(** * Cell-local task reconciliation: the task reaper and the task processor

    A shallow embedding of the [rep] task reaper
    ([reaper/task_reaper.go]) and of the task processor that the
    task/container table test ([generator/internal], test file only)
    exercises.  Collaborators that live outside the repository (the
    store, the executor client, the container delegate) are interfaces:
    records of handlers over an abstract state.  Every call the code
    makes on a collaborator is written to a trace, so that "calls",
    "never calls" and "calls before" are statements about lists. *)

From stdpp Require Import base gmap strings list.
From Stdlib Require Import ZArith.

(** ** Go error values *)

(** A non-nil Go [error].  [==] on errors compares the values
    themselves, never their messages: the sentinel of the executor
    package and the sentinel of the store are constructors of their own,
    every other error is [errorsNew] of its message. *)
Inductive errorValue : Type :=
| ErrContainerNotFound
| ErrStoreResourceNotFound
| errorsNew (msg : string).

(** [error] is the Go interface type; [None] is [nil]. *)
Definition error : Type := option errorValue.

#[global] Instance errorValue_eq_dec : EqDecision errorValue.
Proof. solve_decision. Defined.

(** The text [err.Error()] reports.  The executor's sentinel reads
    "container not found" (spec 6.2). *)
Definition Error_text (e : errorValue) : string :=
  match e with
  | ErrContainerNotFound => "container not found"
  | ErrStoreResourceNotFound => "the requested resource could not be found in the store"
  | errorsNew msg => msg
  end.

(** ** A writer-state monad for code that calls collaborators

    [M St Ev A] threads the collaborators' state [St] and returns the
    list of events [Ev] the computation emitted, oldest first. *)
Definition M (St Ev A : Type) : Type := St → A * St * list Ev.

Definition ret {St Ev A} (a : A) : M St Ev A := λ st, (a, st, []).

Definition bind {St Ev A B} (m : M St Ev A) (k : A → M St Ev B) : M St Ev B :=
  λ st, let '(a, st1, t1) := m st in
        let '(b, st2, t2) := k a st1 in
        (b, st2, t1 ++ t2).

Definition emit {St Ev} (ev : Ev) : M St Ev unit := λ st, (tt, st, [ev]).

Notation "x <- c1 ;; c2" := (bind c1 (λ x, c2))
  (at level 20, c1 at level 99, c2 at level 200, only parsing).
Notation "' pat <- c1 ;; c2" := (bind c1 (λ x, match x with pat => c2 end))
  (at level 20, pat pattern, c1 at level 99, c2 at level 200, only parsing).
Notation "c1 ;; c2" := (bind c1 (λ _, c2))
  (at level 100, c2 at level 200, only parsing, right associativity).

Definition result_of {St Ev A} (r : A * St * list Ev) : A := r.1.1.
Definition state_of {St Ev A} (r : A * St * list Ev) : St := r.1.2.
Definition trace_of {St Ev A} (r : A * St * list Ev) : list Ev := r.2.

(** ** The task reaper ([reaper/task_reaper.go]) *)
Module reaper.

(** [models.TaskState] as the reaper's snapshot of the schema has it:
    the source names [TaskStateClaimed] and [TaskStateRunning]; the
    others are the remaining states of the task lifecycle, with
    [TaskStateInvalid] the zero value. *)
Inductive TaskState : Type :=
| TaskStateInvalid
| TaskStatePending
| TaskStateClaimed
| TaskStateRunning
| TaskStateCompleted
| TaskStateResolving.

#[global] Instance TaskState_eq_dec : EqDecision TaskState.
Proof. solve_decision. Defined.

(** [models.Task]: the fields the reaper and the store's completion
    touch. *)
Record Task : Type := mkTask {
  TaskGuid : string;
  CellID : string;
  State : TaskState;
  Failed : bool;
  FailureReason : string;
  Result : string;
}.

(** What the reaper does to the outside world.  The alphabet lists the
    whole surface of the two collaborators (store: spec 6.1, executor:
    spec 6.2), not only the calls [Run] makes.  A log event keeps the
    message and, for an error, the error; the [lager.Data] is left
    out. *)
Inductive Event : Type :=
| CloseReady
| TimerEvery (d : Z)
| LogInfo (msg : string)
| LogError (msg : string) (err : errorValue)
| CallGetAllTasksByCellID (cellID : string)
| CallCompleteTask (taskGuid : string) (failed : bool) (failureReason result : string)
| CallStartTask (taskGuid cellID : string)
| CallGetContainer (guid : string)
| CallRunContainer (guid : string)
| CallStopContainer (guid : string)
| CallDeleteContainer (guid : string).

#[global] Instance Event_eq_dec : EqDecision Event.
Proof. solve_decision. Defined.

(** [bbs.RepBBS], the two methods [Run] calls, with the arity they
    have at the call sites: [CompleteTask] takes the guid, the failed
    flag, the failure reason and the result, and no cell identifier. *)
Record RepBBS (S : Type) : Type := mkRepBBS {
  GetAllTasksByCellID : string → S → (list Task * error) * S;
  CompleteTask : string → bool → string → string → S → error * S;
}.
Arguments GetAllTasksByCellID {S} _ _ _.
Arguments CompleteTask {S} _ _ _ _ _ _.

(** [executor.Client].  [Container] is the executor's container
    record; [Run] discards it. *)
Record Client (E Container : Type) : Type := mkClient {
  GetContainer : string → E → (Container * error) * E;
}.
Arguments GetContainer {E Container} _ _ _.

(** The state of the two collaborators. *)
Record World (S E : Type) : Type := mkWorld {
  bbsState : S;
  executorState : E;
}.
Arguments mkWorld {S E} _ _.
Arguments bbsState {S E} _.
Arguments executorState {S E} _.

(** [taskReaper]: the timer and the logger are effects, written to
    the trace. *)
Record taskReaper (S E Container : Type) : Type := mkTaskReaper {
  pollInterval : Z;
  cellID : string;
  bbs : RepBBS S;
  executorClient : Client E Container;
}.
Arguments pollInterval {S E Container} _.
Arguments cellID {S E Container} _.
Arguments bbs {S E Container} _.
Arguments executorClient {S E Container} _.

Definition NewTaskReaper {S E Container} (pollInterval : Z) (cellID : string)
    (bbs : RepBBS S) (executorClient : Client E Container) : taskReaper S E Container :=
  mkTaskReaper S E Container pollInterval cellID bbs executorClient.

Section Run.
Context {S E Container : Type}.
Abbreviation R := (M (World S E) Event).

Definition logger_Info (msg : string) : R unit := emit (LogInfo msg).
Definition logger_Error (msg : string) (err : errorValue) : R unit :=
  emit (LogError msg err).

Definition do_GetAllTasksByCellID (r : taskReaper S E Container) (cell : string)
    : R (list Task * error) :=
  λ w, let '(res, s') := GetAllTasksByCellID (bbs r) cell (bbsState w) in
       (res, mkWorld s' (executorState w), [CallGetAllTasksByCellID cell]).

Definition do_CompleteTask (r : taskReaper S E Container) (guid : string)
    (failed : bool) (failureReason result : string) : R error :=
  λ w, let '(err, s') := CompleteTask (bbs r) guid failed failureReason result (bbsState w) in
       (err, mkWorld s' (executorState w), [CallCompleteTask guid failed failureReason result]).

Definition do_GetContainer (r : taskReaper S E Container) (guid : string)
    : R (Container * error) :=
  λ w, let '(res, e') := GetContainer (executorClient r) guid (executorState w) in
       (res, mkWorld (bbsState w) e', [CallGetContainer guid]).

(** The body of [for _, task := range tasks] (lines 60-79). *)
Definition reapTask (r : taskReaper S E Container) (task : Task) : R unit :=
  if bool_decide (State task ≠ TaskStateClaimed) && bool_decide (State task ≠ TaskStateRunning)
  then ret tt
  else
    logger_Info "reaper-finding-container-for-task" ;;
    '(_, err) <- do_GetContainer r (TaskGuid task) ;;
    if bool_decide (err = Some ErrContainerNotFound) then
      logger_Info "reaper-found-no-container-for-task" ;;
      logger_Info "reaper-marking-containerless-task-as-failed" ;;
      err <- do_CompleteTask r (TaskGuid task) true "task container no longer exists" "" ;;
      match err with
      | Some e => logger_Error "reaper-failed-to-mark-containerless-task-as-failed" e
      | None => ret tt
      end
    else
      match err with
      | Some e => logger_Error "reaper-failed-to-determine-container-existence-for-task" e
      | None => ret tt
      end.

Fixpoint rangeTasks (r : taskReaper S E Container) (tasks : list Task) : R unit :=
  match tasks with
  | [] => ret tt
  | task :: rest => reapTask r task ;; rangeTasks r rest
  end.

(** The [case <-ticks] arm of the select (lines 50-81). *)
Definition tick (r : taskReaper S E Container) : R unit :=
  logger_Info "reaper-entering-loop" ;;
  logger_Info "reaper-getting-tasks-by-cell-id" ;;
  '(tasks, err) <- do_GetAllTasksByCellID r (cellID r) ;;
  match err with
  | Some e => logger_Error "reaper-failed-to-get-tasks-by-cell-id" e
  | None =>
      rangeTasks r tasks ;;
      logger_Info "reaper-exiting-loop"
  end.

(** What one [select] takes: a tick of the timer or a signal. *)
Inductive selected : Type :=
| FromTicks
| FromSignals.

(** How far [Run] got on a finite sequence of selections: it
    returned an error value, or it is blocked in [select]. *)
Inductive outcome : Type :=
| Returned (err : error)
| BlockedInSelect.

(** The [for { select { ... } }] loop, driven by what each [select]
    takes. *)
Fixpoint loop (r : taskReaper S E Container) (sel : list selected) : R outcome :=
  match sel with
  | [] => ret BlockedInSelect
  | FromTicks :: rest => tick r ;; loop r rest
  | FromSignals :: _ => ret (Returned None)
  end.

Definition Run (r : taskReaper S E Container) (sel : list selected) : R outcome :=
  emit CloseReady ;;
  emit (TimerEvery (pollInterval r)) ;;
  loop r sel.

(** *** Vocabulary for statements about [Run] *)

(** The task states in which the loop body goes on to the executor. *)
Definition reapable (task : Task) : Prop :=
  State task = TaskStateClaimed ∨ State task = TaskStateRunning.

(** [n] whole iterations of the [ticks] arm. *)
Fixpoint ticks (r : taskReaper S E Container) (n : nat) : R unit :=
  match n with
  | O => ret tt
  | Datatypes.S n' => tick r ;; ticks r n'
  end.

(** The selections up to the first signal, and whether there is one. *)
Fixpoint ticksBeforeSignal (sel : list selected) : nat :=
  match sel with
  | FromTicks :: rest => Datatypes.S (ticksBeforeSignal rest)
  | _ => O
  end.

Fixpoint signalTaken (sel : list selected) : bool :=
  match sel with
  | [] => false
  | FromTicks :: rest => signalTaken rest
  | FromSignals :: _ => true
  end.

(** The tasks of one tick, each with the world the loop body finds
    when it reaches that task. *)
Fixpoint examined (r : taskReaper S E Container) (tasks : list Task) (w : World S E)
    : list (Task * World S E) :=
  match tasks with
  | [] => []
  | task :: rest => (task, w) :: examined r rest (state_of (reapTask r task w))
  end.

(** The error [GetContainer] answers for a guid in a world. *)
Definition containerError (r : taskReaper S E Container) (guid : string) (w : World S E)
    : error :=
  (GetContainer (executorClient r) guid (executorState w)).1.2.

(** The executor state after [GetContainer] queries for the given
    guids, in order. *)
Definition afterQueries (r : taskReaper S E Container) (guids : list string) (e : E) : E :=
  foldl (λ e' guid, (GetContainer (executorClient r) guid e').2) e guids.

(** The executor has no container for a guid, before and after any
    queries: each lookup of the guid answers [ErrContainerNotFound]. *)
Definition containerGone (r : taskReaper S E Container) (guid : string) (e : E) : Prop :=
  ∀ guids,
    (GetContainer (executorClient r) guid (afterQueries r guids e)).1.2
    = Some ErrContainerNotFound.

(** The executor state after the executor calls of a trace, in
    order, when the only executor call is the [GetContainer]
    query. *)
Fixpoint replayQueries (r : taskReaper S E Container) (tr : list Event) (e : E) : E :=
  match tr with
  | [] => e
  | CallGetContainer guid :: rest =>
      replayQueries r rest (GetContainer (executorClient r) guid e).2
  | _ :: rest => replayQueries r rest e
  end.
End Run.

Definition isCompleteTask (ev : Event) : bool :=
  match ev with CallCompleteTask _ _ _ _ => true | _ => false end.

(** Calls that change the executor (spec 6.2: "all effectful"). *)
Definition mutatesExecutor (ev : Event) : bool :=
  match ev with
  | CallRunContainer _ | CallStopContainer _ | CallDeleteContainer _ => true
  | _ => false
  end.

(** Calls on the executor client. *)
Definition onExecutor (ev : Event) : bool :=
  match ev with
  | CallGetContainer _ | CallRunContainer _ | CallStopContainer _
  | CallDeleteContainer _ => true
  | _ => false
  end.

(** Calls that write the store. *)
Definition writesStore (ev : Event) : bool :=
  match ev with
  | CallCompleteTask _ _ _ _ | CallStartTask _ _ => true
  | _ => false
  end.

(** The string arguments a call passes to a collaborator. *)
Definition stringArgs (ev : Event) : list string :=
  match ev with
  | CallGetAllTasksByCellID cell => [cell]
  | CallCompleteTask guid _ reason result => [guid; reason; result]
  | CallStartTask guid cell => [guid; cell]
  | CallGetContainer guid | CallRunContainer guid | CallStopContainer guid
  | CallDeleteContainer guid => [guid]
  | _ => []
  end.

(** *** An in-memory store and a stub executor client *)

Definition completeWith (t : Task) (failed : bool) (failureReason result : string) : Task :=
  {| TaskGuid := TaskGuid t; CellID := CellID t; State := TaskStateCompleted;
     Failed := failed; FailureReason := failureReason; Result := result |}.

(** Modelled from the spec: the store is outside the repository
    (spec 6.1).  [get_all_tasks_by_cell_id] lists the tasks whose
    [cell_id] is the given cell; [complete_task] records the
    completion and "fails if the task is already Completed" (spec 5),
    the lifecycle only moving forward (spec 3). *)
Definition memBBS : RepBBS (gmap string Task) :=
  {| GetAllTasksByCellID := λ cell s,
       ((filter (λ t, CellID t = cell) (map_to_list s).*2, None), s);
     CompleteTask := λ guid failed failureReason result s,
       match s !! guid with
       | None => (Some ErrStoreResourceNotFound, s)
       | Some t =>
           if bool_decide (State t = TaskStateCompleted ∨ State t = TaskStateResolving)
           then (Some (errorsNew "cannot complete task: invalid state transition"), s)
           else (None, <[guid := completeWith t failed failureReason result]> s)
       end |}.

(** A stub executor client in the manner of a test double: the state
    is the answer to give for each guid. *)
Definition stubClient : Client (string → error) unit :=
  {| GetContainer := λ guid answers, ((tt, answers guid), answers) |}.

(** An event of a run that leaves the executor alone: it is no
    mutation of the executor, if it is a call on the executor it is
    the [GetContainer] query, and if it writes the store it is
    [CompleteTask]. *)
Definition leavesExecutorAlone (ev : Event) : Prop :=
  mutatesExecutor ev = false ∧
  (onExecutor ev = true → ∃ guid, ev = CallGetContainer guid) ∧
  (writesStore ev = true → isCompleteTask ev = true).

(** A computation that leaves the executor alone, from any world: its
    events do, and the executor state it ends in is the one it started
    from taken through its [GetContainer] queries. *)
Definition aloof {S E Container A} (r : taskReaper S E Container)
    (m : M (World S E) Event A) : Prop :=
  ∀ w, Forall leavesExecutorAlone (trace_of (m w)) ∧
       executorState (state_of (m w))
       = replayQueries r (trace_of (m w)) (executorState w).

(** Scenario 6 of the spec: the store holds one Running task "g6" of
    cell "A", the executor has no container for it. *)
Definition scenario6_task : Task :=
  {| TaskGuid := "g6"; CellID := "A"; State := TaskStateRunning;
     Failed := false; FailureReason := ""; Result := "" |}.

Definition scenario6_reaper : taskReaper (gmap string Task) (string → error) unit :=
  NewTaskReaper 30000000000 "A" memBBS stubClient.

Definition scenario6_world : World (gmap string Task) (string → error) :=
  mkWorld {[ "g6" := scenario6_task ]} (λ _, Some ErrContainerNotFound).

(** The same store with an executor that fails with an error whose
    text is that of the sentinel, but which is another value. *)
Definition lookalike_world : World (gmap string Task) (string → error) :=
  mkWorld {[ "g6" := scenario6_task ]} (λ _, Some (errorsNew "container not found")).

(** A store whose every call fails, for the error paths. *)
Definition failingBBS : RepBBS unit :=
  {| GetAllTasksByCellID := λ _ s, (([], Some (errorsNew "store unavailable")), s);
     CompleteTask := λ _ _ _ _ s, (Some (errorsNew "store unavailable"), s) |}.

Definition failing_reaper : taskReaper unit (string → error) unit :=
  NewTaskReaper 30000000000 "A" failingBBS stubClient.

Definition no_containers : World unit (string → error) :=
  mkWorld tt (λ _, Some ErrContainerNotFound).

(** A store that lists two tasks of the cell, one Running and one
    Claimed, and refuses every write. *)
Definition refusingBBS : RepBBS unit :=
  {| GetAllTasksByCellID := λ cell s,
       (([ {| TaskGuid := "g6"; CellID := cell; State := TaskStateRunning;
              Failed := false; FailureReason := ""; Result := "" |};
           {| TaskGuid := "g7"; CellID := cell; State := TaskStateClaimed;
              Failed := false; FailureReason := ""; Result := "" |} ], None), s);
     CompleteTask := λ _ _ _ _ s, (Some (errorsNew "store unavailable"), s) |}.

Definition refusing_reaper : taskReaper unit (string → error) unit :=
  NewTaskReaper 30000000000 "A" refusingBBS stubClient.

Definition refused_g6 : Task :=
  {| TaskGuid := "g6"; CellID := "A"; State := TaskStateRunning;
     Failed := false; FailureReason := ""; Result := "" |}.

Definition refused_g7 : Task :=
  {| TaskGuid := "g7"; CellID := "A"; State := TaskStateClaimed;
     Failed := false; FailureReason := ""; Result := "" |}.

End reaper.

(** ** The executor's containers, as the table test builds them *)
Module executor.

(** [executor.State]: the five states the task/container table test
    puts a container in. *)
Inductive State : Type :=
| StateReserved
| StateInitializing
| StateCreated
| StateRunning
| StateCompleted.

#[global] Instance State_eq_dec : EqDecision State.
Proof. solve_decision. Defined.

(** [executor.ContainerRunResult]. *)
Record ContainerRunResult : Type := mkContainerRunResult {
  Failed : bool;
  FailureReason : string;
}.

(** [executor.Container], the fields [NewContainer] and
    [NewCompletedContainer] set ([State_of] is the Go field [State]).
    [Tags] is a Go map: a missing key reads as the empty string. *)
Record Container : Type := mkContainer {
  Guid : string;
  State_of : State;
  RunResult : ContainerRunResult;
  Tags : gmap string string;
}.

Definition tag (c : Container) (key : string) : string :=
  default "" (Tags c !! key).

End executor.

(** ** The task processor

    [generator/internal/task_processor.go] is not among the sources:
    only its table test is.  The processor, the store and the delegate
    below are modelled from the spec (4.1, 4.2, 5, 6.1, 7); the data it
    works on is the one the test builds. *)
Module processor.

(** Modelled from the spec: [models.TaskState], declared outside the
    repository; the four states of a stored task (spec 3), which are the
    states the table test walks a task to. *)
Inductive TaskState : Type :=
| TaskStatePending
| TaskStateRunning
| TaskStateCompleted
| TaskStateResolving.

#[global] Instance TaskState_eq_dec : EqDecision TaskState.
Proof. solve_decision. Defined.

(** Modelled from the spec: [models.Task], declared outside the
    repository; the fields of spec 3. *)
Record Task : Type := mkTask {
  TaskGuid : string;
  CellID : string;
  State : TaskState;
  Failed : bool;
  FailureReason : string;
  Result : string;
  ResultFile : string;
}.

(** The calls of the processor on its two collaborators: the store
    operations of spec 6.1 and the delegate capabilities of spec 4.1. *)
Inductive Event : Type :=
| CallTaskByGuid (guid : string)
| CallStartTask (guid cellID : string)
| CallCompleteTask (guid cellID : string) (failed : bool) (failureReason result : string)
| CallRunContainer (guid : string)
| CallStopContainer (guid : string)
| CallDeleteContainer (guid : string)
| CallFetchContainerResultFile (guid path : string).

#[global] Instance Event_eq_dec : EqDecision Event.
Proof. solve_decision. Defined.

(** Modelled from the spec: the store interface the processor is
    built on ([bbs.RepBBS], outside the repository), with the
    operations the decision table uses (spec 4.2, 6.1).  [TaskByGuid] answers the task or an error
    that "distinguishes not found from transport failure";
    [StartTask] answers [(changed, err)]; [CompleteTask] answers
    [err].  [Transient] tells of an error the store answered whether
    it is of the kind "transient transport", "timeouts, connection
    failures" (spec 7, taxonomy: "kinds, not type names"), rather than
    a refusal of the store. *)
Record Store (S : Type) : Type := mkStore {
  TaskByGuid : string → S → (Task + errorValue) * S;
  StartTask : string → string → S → (bool * error) * S;
  CompleteTask : string → string → bool → string → string → S → error * S;
  Transient : errorValue → bool;
}.
Arguments TaskByGuid {S} _ _ _.
Arguments Transient {S} _ _.
Arguments StartTask {S} _ _ _ _.
Arguments CompleteTask {S} _ _ _ _ _ _ _.

(** Modelled from the spec: the container delegate
    ([internal.ContainerDelegate], not among the sources; the test uses
    its fake), with the capabilities of spec 4.1, "all four
    side-effecting", answering false or an error instead of failing. *)
Record ContainerDelegate (D : Type) : Type := mkContainerDelegate {
  RunContainer : string → D → bool * D;
  StopContainer : string → D → bool * D;
  DeleteContainer : string → D → bool * D;
  FetchContainerResultFile : string → string → D → (string * error) * D;
}.
Arguments RunContainer {D} _ _ _.
Arguments StopContainer {D} _ _ _.
Arguments DeleteContainer {D} _ _ _.
Arguments FetchContainerResultFile {D} _ _ _ _.

Record World (S D : Type) : Type := mkWorld {
  store : S;
  delegate : D;
}.
Arguments mkWorld {S D} _ _.
Arguments store {S D} _.
Arguments delegate {S D} _.

(** Modelled from the spec: the processor's record, built in the test
    by [NewTaskProcessor(BBS, containerDelegate, localCellID)], with the
    tag key under which the result-file path lives ([rep.ResultFileTag]
    in the test, whose value is declared outside the sources;
    [result_file_tag_key] of spec 6.3). *)
Record taskProcessor (S D : Type) : Type := mkTaskProcessor {
  bbs : Store S;
  containerDelegate : ContainerDelegate D;
  cellID : string;
  ResultFileTag : string;
}.
Arguments bbs {S D} _.
Arguments containerDelegate {S D} _.
Arguments cellID {S D} _.
Arguments ResultFileTag {S D} _.

Section Process.
Context {S D : Type}.
Abbreviation P := (M (World S D) Event).

Definition do_TaskByGuid (p : taskProcessor S D) (guid : string) : P (Task + errorValue) :=
  λ w, let '(res, s') := TaskByGuid (bbs p) guid (store w) in
       (res, mkWorld s' (delegate w), [CallTaskByGuid guid]).

Definition do_StartTask (p : taskProcessor S D) (guid cell : string) : P (bool * error) :=
  λ w, let '(res, s') := StartTask (bbs p) guid cell (store w) in
       (res, mkWorld s' (delegate w), [CallStartTask guid cell]).

Definition do_CompleteTask (p : taskProcessor S D) (guid cell : string) (failed : bool)
    (failureReason result : string) : P error :=
  λ w, let '(err, s') := CompleteTask (bbs p) guid cell failed failureReason result (store w) in
       (err, mkWorld s' (delegate w), [CallCompleteTask guid cell failed failureReason result]).

Definition do_RunContainer (p : taskProcessor S D) (guid : string) : P bool :=
  λ w, let '(ok, d') := RunContainer (containerDelegate p) guid (delegate w) in
       (ok, mkWorld (store w) d', [CallRunContainer guid]).

Definition do_DeleteContainer (p : taskProcessor S D) (guid : string) : P bool :=
  λ w, let '(ok, d') := DeleteContainer (containerDelegate p) guid (delegate w) in
       (ok, mkWorld (store w) d', [CallDeleteContainer guid]).

Definition do_FetchContainerResultFile (p : taskProcessor S D) (guid path : string)
    : P (string * error) :=
  λ w, let '(res, d') := FetchContainerResultFile (containerDelegate p) guid path (delegate w) in
       (res, mkWorld (store w) d', [CallFetchContainerResultFile guid path]).

(** Modelled from the spec: the "delete container" action of the
    missing processor's table.  The answer of
    [delete_container] "is advisory; the processor does not retry on
    false" (spec 4.1). *)
Definition deleteContainer (p : taskProcessor S D) (guid : string) : P unit :=
  _ <- do_DeleteContainer p guid ;; ret tt.

(** Modelled from the spec: the "complete(...)" action of the missing
    processor's table, a [complete_task] for the local cell.  Its error does not escape
    (spec 7, propagation policy). *)
Definition complete (p : taskProcessor S D) (guid : string) (failed : bool)
    (failureReason result : string) : P unit :=
  _ <- do_CompleteTask p guid (cellID p) failed failureReason result ;; ret tt.

(** Modelled from the spec: the Pending rows of the missing
    processor's table (spec 4.2).  "claim:
    store.start_task(guid, local_cell); if ok → run_container; if run
    fails → complete(failed, "failed to run container"); if claim fails
    → delete container".  The claim has failed when [start_task]
    answers an error by which the store refuses it; an error of the
    transient kind is "logged; operation skipped; retried on ... next
    container pass" (spec 7), so the container is kept;
    [changed=false] without an error is the compare-and-set conflict
    of spec 7, "a successful no-op": "no run_container call; no task
    mutation" (spec 8).  With [run = false] this is the Created and
    Running row, which "sets task to Running without running". *)
Definition claim (p : taskProcessor S D) (guid : string) (run : bool) : P unit :=
  '(changed, err) <- do_StartTask p guid (cellID p) ;;
  match err with
  | Some e => if Transient (bbs p) e then ret tt else deleteContainer p guid
  | None =>
      if changed && run then
        ok <- do_RunContainer p guid ;;
        if ok then ret tt
        else complete p guid true "failed to run container" ""
      else ret tt
  end.

(** Modelled from the spec: the Completed-container rows of the
    missing processor's table for a Running task of the local cell.  A failed run completes the task with the
    run's failure reason; a successful run fetches the result file
    named by the result-file tag and completes the task with its text,
    or with "failed to fetch result" when the fetch fails. *)
Definition completeFromRunResult (p : taskProcessor S D) (container : executor.Container) : P unit :=
  if executor.Failed (executor.RunResult container) then
    complete p (executor.Guid container) true (executor.FailureReason (executor.RunResult container)) ""
  else
    '(text, err) <- do_FetchContainerResultFile p (executor.Guid container)
                      (executor.tag container (ResultFileTag p)) ;;
    match err with
    | None => complete p (executor.Guid container) false "" text
    | Some _ => complete p (executor.Guid container) true "failed to fetch result" ""
    end.

(** Modelled from the spec: the owner check of the missing processor,
    "whenever task.cell_id is set and ≠ local_cell_id" (spec 4.2, owner
    check first). *)
Definition ownedElsewhere (p : taskProcessor S D) (task : Task) : bool :=
  bool_decide (CellID task ≠ "") && bool_decide (CellID task ≠ cellID p).

(** Modelled from the spec: the table key of the missing processor,
    "is-owner := task.cell_id == local_cell_id" (spec 4.2). *)
Definition isOwner (p : taskProcessor S D) (task : Task) : bool :=
  bool_decide (CellID task = cellID p).

(** Modelled from the spec: the decision table of the missing
    processor (spec 4.2), for a task the store holds.  The owner check comes first; then the rows, by
    task state and container state. *)
Definition table (p : taskProcessor S D) (container : executor.Container) (task : Task) : P unit :=
  if ownedElsewhere p task then deleteContainer p (executor.Guid container)
  else
    match State task with
    | TaskStatePending =>
        match executor.State_of container with
        | executor.StateReserved | executor.StateInitializing => claim p (executor.Guid container) true
        | executor.StateCreated | executor.StateRunning => claim p (executor.Guid container) false
        | executor.StateCompleted =>
            complete p (executor.Guid container) true "invalid state transition" "" ;;
            deleteContainer p (executor.Guid container)
        end
    | TaskStateRunning =>
        if isOwner p task then
          match executor.State_of container with
          | executor.StateCompleted =>
              completeFromRunResult p container ;;
              deleteContainer p (executor.Guid container)
          | _ => ret tt
          end
        else deleteContainer p (executor.Guid container)
    | TaskStateCompleted | TaskStateResolving => deleteContainer p (executor.Guid container)
    end.

(** Modelled from the spec: [taskProcessor.Process] of
    [generator/internal/task_processor.go], which is not among the
    sources: [process(container)] of spec 4.2.  "The
    processor loads the store task by container.guid, then consults the
    decision table".  A missing task is the store's not-found error; any
    other error is transient: "operation skipped; retried on ... next
    container pass" (spec 7). *)
Definition Process (p : taskProcessor S D) (container : executor.Container) : P unit :=
  res <- do_TaskByGuid p (executor.Guid container) ;;
  match res with
  | inl task => table p container task
  | inr ErrStoreResourceNotFound => deleteContainer p (executor.Guid container)
  | inr _ => ret tt
  end.

End Process.

(** *** Vocabulary for statements about [Process] *)

(** The task the store answers for a guid, as the table test reads it
    back ([BBS.TaskByGuid]). *)
Definition taskIn {S} (bbs : Store S) (guid : string) (s : S) : option Task :=
  match (TaskByGuid bbs guid s).1 with
  | inl task => Some task
  | inr _ => None
  end.

Definition isStoreWrite (ev : Event) : bool :=
  match ev with
  | CallStartTask _ _ | CallCompleteTask _ _ _ _ _ => true
  | _ => false
  end.

Definition isRunContainer (ev : Event) : bool :=
  match ev with CallRunContainer _ => true | _ => false end.

Definition isDeleteContainer (ev : Event) : bool :=
  match ev with CallDeleteContainer _ => true | _ => false end.

Definition isFetch (ev : Event) : bool :=
  match ev with CallFetchContainerResultFile _ _ => true | _ => false end.

(** Exactly one of [failed] and [result] is populated: the task failed
    and has no result, or it did not fail and has a result (spec 3,
    invariant 3). *)
Definition exactlyOnePopulated (t : Task) : Prop :=
  (Failed t = true ∧ Result t = "") ∨ (Failed t = false ∧ Result t ≠ "").

(** How many events of a trace satisfy a test. *)
Definition count (test : Event → bool) (tr : list Event) : nat :=
  length (filter (λ ev, test ev = true) tr).

(** The three outcomes of the claim of a Pending task (spec 8, P3),
    for the run [out] of [Process] from the world [w]. *)
Definition taskRunningAndRunOnce {S D} (p : taskProcessor S D) (guid : string)
    (out : unit * World S D * list Event) : Prop :=
  (∃ t, taskIn (bbs p) guid (store (state_of out)) = Some t ∧ State t = TaskStateRunning) ∧
  count isRunContainer (trace_of out) = 1.

Definition runRefusedAndTaskFailed {S D} (p : taskProcessor S D) (guid : string)
    (w : World S D) (out : unit * World S D * list Event) : Prop :=
  CallRunContainer guid ∈ trace_of out ∧
  (RunContainer (containerDelegate p) guid (delegate w)).1 = false ∧
  ∃ t, taskIn (bbs p) guid (store (state_of out)) = Some t ∧
       State t = TaskStateCompleted ∧ Failed t = true ∧
       FailureReason t = "failed to run container".

Definition claimChangedNothing {S D} (p : taskProcessor S D) (guid : string)
    (w : World S D) (out : unit * World S D * list Event) : Prop :=
  (StartTask (bbs p) guid (cellID p) (store w)).1.1 = false ∧
  store (state_of out) = store w ∧
  count isRunContainer (trace_of out) = 0.

(** Exactly one of the three outcomes holds. *)
Definition exactlyOneClaimOutcome {S D} (p : taskProcessor S D) (guid : string)
    (w : World S D) (out : unit * World S D * list Event) : Prop :=
  (taskRunningAndRunOnce p guid out ∧
   ¬ runRefusedAndTaskFailed p guid w out ∧
   ¬ claimChangedNothing p guid w out) ∨
  (¬ taskRunningAndRunOnce p guid out ∧
   runRefusedAndTaskFailed p guid w out ∧
   ¬ claimChangedNothing p guid w out) ∨
  (¬ taskRunningAndRunOnce p guid out ∧
   ¬ runRefusedAndTaskFailed p guid w out ∧
   claimChangedNothing p guid w out).

(** The outcome that the answers of the collaborators call for: a
    claim that [StartTask] reports as made is followed by the run, and
    the task is Running if the delegate accepts the run and Completed
    as failed if it refuses; a claim that [StartTask] does not report
    as made changes nothing. *)
Definition claimOutcomeByAnswers {S D} (p : taskProcessor S D) (guid : string)
    (w : World S D) (out : unit * World S D * list Event) : Prop :=
  match (StartTask (bbs p) guid (cellID p) (store w)).1 with
  | (true, None) =>
      if (RunContainer (containerDelegate p) guid (delegate w)).1
      then taskRunningAndRunOnce p guid out ∧
           trace_of out
           = [CallTaskByGuid guid; CallStartTask guid (cellID p); CallRunContainer guid]
      else runRefusedAndTaskFailed p guid w out ∧
           trace_of out
           = [CallTaskByGuid guid; CallStartTask guid (cellID p); CallRunContainer guid;
              CallCompleteTask guid (cellID p) true "failed to run container" ""]
  | _ =>
      claimChangedNothing p guid w out ∧
      ∀ ev, ev ∈ trace_of out → isRunContainer ev = false ∧
            (isStoreWrite ev = true → ev = CallStartTask guid (cellID p))
  end.

(** The rows of the table in which no store write is made, for the
    task the store holds for the container ([None]: the task is
    missing): [Some true] when the row deletes the container,
    [Some false] when it does nothing, [None] for the rows that write
    the store (a Pending task; a Running task of the local cell under a
    Completed container). *)
Definition settled {S D} (p : taskProcessor S D) (c : executor.Container)
    (held : option Task) : option bool :=
  match held with
  | None => Some true
  | Some task =>
      if ownedElsewhere p task then Some true
      else
        match State task with
        | TaskStatePending => None
        | TaskStateRunning =>
            if isOwner p task then
              match executor.State_of c with
              | executor.StateCompleted => None
              | _ => Some false
              end
            else Some true
        | TaskStateCompleted | TaskStateResolving => Some true
        end
  end.

(** Every RunContainer call of a trace comes after a StartTask call for
    the guid and the cell. *)
Definition startsBeforeRunning (guid cell : string) (tr : list Event) : Prop :=
  ∀ pre guid' post,
    tr = pre ++ CallRunContainer guid' :: post → CallStartTask guid cell ∈ pre.

(** Modelled from the spec: the contract of the store, which is
    outside the repository; what its answers mean (spec 5, 6.1, 7).  Reading changes nothing.  [start_task] is an atomic
    claim: when it reports the change the task is Running for the
    claiming cell; when it reports none, or an error, the store is as it
    was.  [complete_task] records the completion when it answers no
    error, and leaves the store as it was when it refuses; it accepts
    the completion of a Running task by the cell that owns it. *)
Record StoreLaws {S} (bbs : Store S) : Prop := mkStoreLaws {
  TaskByGuid_reads : ∀ guid s, (TaskByGuid bbs guid s).2 = s;
  StartTask_changed : ∀ guid cell s s',
    StartTask bbs guid cell s = ((true, None), s') →
    ∃ task, taskIn bbs guid s' = Some task ∧
            State task = TaskStateRunning ∧ CellID task = cell;
  StartTask_unchanged : ∀ guid cell s err s',
    StartTask bbs guid cell s = ((false, err), s') → s' = s;
  StartTask_failed : ∀ guid cell s changed e s',
    StartTask bbs guid cell s = ((changed, Some e), s') → changed = false;
  CompleteTask_recorded : ∀ guid cell failed reason result s s',
    CompleteTask bbs guid cell failed reason result s = (None, s') →
    ∃ task, taskIn bbs guid s' = Some task ∧
            State task = TaskStateCompleted ∧ Failed task = failed ∧
            FailureReason task = reason ∧ Result task = result;
  CompleteTask_refused : ∀ guid cell failed reason result s e s',
    CompleteTask bbs guid cell failed reason result s = (Some e, s') → s' = s;
  CompleteTask_accepts : ∀ guid cell failed reason result s task,
    taskIn bbs guid s = Some task →
    State task = TaskStateRunning → CellID task = cell →
    (CompleteTask bbs guid cell failed reason result s).1 = None;
}.

(** *** An in-memory store and an in-memory executor *)

Definition started (t : Task) (cell : string) : Task :=
  {| TaskGuid := TaskGuid t; CellID := cell; State := TaskStateRunning;
     Failed := Failed t; FailureReason := FailureReason t; Result := Result t;
     ResultFile := ResultFile t |}.

Definition completed (t : Task) (failed : bool) (failureReason result : string) : Task :=
  {| TaskGuid := TaskGuid t; CellID := CellID t; State := TaskStateCompleted;
     Failed := failed; FailureReason := failureReason; Result := result;
     ResultFile := ResultFile t |}.

(** Modelled from the spec: the store, which is outside the
    repository (spec 5, 6.1), with no other actor and no transport
    failure.  [start_task] "fails if the task is
    not Pending"; [complete_task] "fails if the task is already
    Completed" and "must reject if cell_id does not match current
    owner"; a task with no owner yet can be completed, as the table
    test expects of a Pending task under a completed container. *)
Definition memStore : Store (gmap string Task) :=
  {| TaskByGuid := λ guid s,
       (match s !! guid with
        | Some t => inl t
        | None => inr ErrStoreResourceNotFound
        end, s);
     StartTask := λ guid cell s,
       match s !! guid with
       | None => ((false, Some ErrStoreResourceNotFound), s)
       | Some t =>
           if bool_decide (State t = TaskStatePending)
           then ((true, None), <[guid := started t cell]> s)
           else ((false, Some (errorsNew "cannot start task: not pending")), s)
       end;
     CompleteTask := λ guid cell failed failureReason result s,
       match s !! guid with
       | None => (Some ErrStoreResourceNotFound, s)
       | Some t =>
           if bool_decide (State t = TaskStateCompleted ∨ State t = TaskStateResolving)
           then (Some (errorsNew "cannot complete task: already completed"), s)
           else if bool_decide (CellID t ≠ "" ∧ CellID t ≠ cell)
           then (Some (errorsNew "cannot complete task: running on another cell"), s)
           else (None, <[guid := completed t failed failureReason result]> s)
       end;
     Transient := λ _, false |}.

(** How the executor behaves in a scenario: whether it accepts to run
    a container, and what reading a result file answers. *)
Record executorBehaviour : Type := mkExecutorBehaviour {
  runs : bool;
  resultFileReads : string * error;
}.

(** Modelled from the spec: the delegate, not among the sources, over
    an executor that holds a set of containers (spec 4.1).  [delete_container] is an "idempotent
    removal" and "may return false the second time"; no capability
    fails on a missing container, "they return false/error". *)
Definition memDelegate (b : executorBehaviour) : ContainerDelegate (gset string) :=
  {| RunContainer := λ guid d, (runs b && bool_decide (guid ∈ d), d);
     StopContainer := λ guid d, (bool_decide (guid ∈ d), d);
     DeleteContainer := λ guid d, (bool_decide (guid ∈ d), d ∖ {[ guid ]});
     FetchContainerResultFile := λ guid path d,
       (if bool_decide (guid ∈ d) then resultFileReads b
        else ("", Some ErrContainerNotFound), d) |}.

(** A store on which another actor always wins the claim: it lists
    every task as Pending and answers [changed=false] to [start_task];
    it refuses every completion. *)
Definition contendedStore : Store unit :=
  {| TaskByGuid := λ guid s,
       (inl {| TaskGuid := guid; CellID := ""; State := TaskStatePending;
               Failed := false; FailureReason := ""; Result := "";
               ResultFile := "" |}, s);
     StartTask := λ _ _ s, ((false, None), s);
     CompleteTask := λ _ _ _ _ _ s, (Some (errorsNew "compare-and-set conflict"), s);
     Transient := λ _, false |}.

(** A store that cannot be reached when a task is to be claimed: it
    lists every task as Pending; [start_task] times out, an error of
    the transient kind; it refuses every completion. *)
Definition unreachableStore : Store unit :=
  {| TaskByGuid := λ guid s,
       (inl {| TaskGuid := guid; CellID := ""; State := TaskStatePending;
               Failed := false; FailureReason := ""; Result := "";
               ResultFile := "" |}, s);
     StartTask := λ _ _ s, ((false, Some (errorsNew "timeout")), s);
     CompleteTask := λ _ _ _ _ _ s, (Some (errorsNew "timeout"), s);
     Transient := λ _, true |}.

(** A store on which the claim is refused: it lists every task as
    Pending, and [start_task] answers an error that is a refusal. *)
Definition claimedElsewhereStore : Store unit :=
  {| TaskByGuid := λ guid s,
       (inl {| TaskGuid := guid; CellID := ""; State := TaskStatePending;
               Failed := false; FailureReason := ""; Result := "";
               ResultFile := "" |}, s);
     StartTask := λ _ _ s, ((false, Some (errorsNew "task claimed elsewhere")), s);
     CompleteTask := λ _ _ _ _ _ s, (Some (errorsNew "task claimed elsewhere"), s);
     Transient := λ _, false |}.

(** *** The scenarios of spec 8 and of the table test *)

Definition NewContainer (guid : string) (containerState : executor.State) (resultFile : string)
    : executor.Container :=
  {| executor.Guid := guid; executor.State_of := containerState;
     executor.RunResult := executor.mkContainerRunResult false "";
     executor.Tags := {[ "result-file" := resultFile ]} |}.

Definition NewCompletedContainer (guid : string) (runResult : executor.ContainerRunResult)
    (resultFile : string) : executor.Container :=
  {| executor.Guid := guid; executor.State_of := executor.StateCompleted;
     executor.RunResult := runResult;
     executor.Tags := {[ "result-file" := resultFile ]} |}.

Definition NewTask (guid cellID : string) (taskState : TaskState) (resultFile : string) : Task :=
  {| TaskGuid := guid; CellID := cellID; State := taskState;
     Failed := false; FailureReason := ""; Result := ""; ResultFile := resultFile |}.

(** A processor over the in-memory store and executor. *)
Definition memProcessor (b : executorBehaviour) (cell tagKey : string)
    : taskProcessor (gmap string Task) (gset string) :=
  {| bbs := memStore; containerDelegate := memDelegate b;
     cellID := cell; ResultFileTag := tagKey |}.

(** The processor of cell "A" over the in-memory store and executor. *)
Definition cellA (b : executorBehaviour) : taskProcessor (gmap string Task) (gset string) :=
  memProcessor b "A" "result-file".

Definition obliging : executorBehaviour := mkExecutorBehaviour true ("payload", None).
Definition refusing : executorBehaviour := mkExecutorBehaviour false ("payload", None).
Definition unreadable : executorBehaviour :=
  mkExecutorBehaviour true ("", Some (errorsNew "nope")).
Definition silent : executorBehaviour := mkExecutorBehaviour true ("", None).

(** The world holding one task and its container. *)
Definition oneTask (t : Task) : World (gmap string Task) (gset string) :=
  mkWorld {[ TaskGuid t := t ]} {[ TaskGuid t ]}.

(** [Process] invoked again, back to back, on the same container. *)
Definition ProcessAgain {S D} (p : taskProcessor S D) (c : executor.Container) (w : World S D)
    : unit * World S D * list Event :=
  Process p c (state_of (Process p c w)).

(** Scenarios 2 to 5 of spec 8, and scenario 4 with an empty result
    file. *)
Definition scenario2_container : executor.Container :=
  NewContainer "g2" executor.StateReserved "/out".
Definition scenario2_task : Task := NewTask "g2" "" TaskStatePending "/out".

Definition scenario3_container : executor.Container :=
  NewCompletedContainer "g3" (executor.mkContainerRunResult true "boom") "/out".
Definition scenario3_task : Task := NewTask "g3" "A" TaskStateRunning "/out".

Definition scenario4_container : executor.Container :=
  NewCompletedContainer "g4" (executor.mkContainerRunResult false "") "/out".
Definition scenario4_task : Task := NewTask "g4" "A" TaskStateRunning "/out".

Definition scenario5_container : executor.Container :=
  NewContainer "g5" executor.StateRunning "/out".
Definition scenario5_task : Task := NewTask "g5" "B" TaskStateRunning "/out".

(** A Pending task under a Created container (table test, "container
    created" rows). *)
Definition created_container : executor.Container :=
  NewContainer "g7" executor.StateCreated "/out".
Definition created_task : Task := NewTask "g7" "" TaskStatePending "/out".

(** The processor of cell "A" over the contended store. *)
Definition cellA_contended : taskProcessor unit (gset string) :=
  {| bbs := contendedStore; containerDelegate := memDelegate obliging;
     cellID := "A"; ResultFileTag := "result-file" |}.

(** A processor over any store and the in-memory executor. *)
Definition overStore {S} (st : Store S) (b : executorBehaviour) (cell tagKey : string)
    : taskProcessor S (gset string) :=
  {| bbs := st; containerDelegate := memDelegate b;
     cellID := cell; ResultFileTag := tagKey |}.

(** A pass of [Process] that leaves the store as it finds it, whatever
    the state of the executor: it reads the task, makes the store
    calls [writes], which remain without effect, and then deletes the
    container or not. *)
Definition passWithoutEffect {S D} (p : taskProcessor S D)
    (c : executor.Container) (s : S) (writes : list Event) (del : bool) : Prop :=
  ∀ d, Process p c (mkWorld s d) =
         (tt, mkWorld s (if del
                         then (DeleteContainer (containerDelegate p) (executor.Guid c) d).2
                         else d),
          CallTaskByGuid (executor.Guid c)
          :: writes ++ if del then [CallDeleteContainer (executor.Guid c)] else []).

(** [delete_container] is an "idempotent removal" (spec 4.1): deleting
    a container again leaves the executor as the first deletion left
    it. *)
Definition idempotentDelete {D} (dlg : ContainerDelegate D) : Prop :=
  ∀ guid d,
    (DeleteContainer dlg guid (DeleteContainer dlg guid d).2).2
    = (DeleteContainer dlg guid d).2.

End processor.

(** ** The task/container table test

    The test file of [generator/internal] ("Task <-> Container table"):
    its rows, and what each of its shared examples expects, run here
    against the processor above over the in-memory store and
    executor. *)
Module table_test.
Import processor.

Definition taskGuid : string := "my-guid".
Definition localCellID : string := "a".
Definition otherCellID : string := "w".

(** Stands for [rep.ResultFileTag], whose value is declared outside the
    sources; the test only needs the container to carry it. *)
Definition ResultFileTag : string := "result-file".

(** The shared examples a row is tested with. *)
Inductive TaskTest : Type :=
| itDeletesTheContainer
| itCompletesTheTaskWithFailure (reason : string)
| itCompletesTheSuccessfulTaskAndDeletesTheContainer
| itCompletesTheFailedTaskAndDeletesTheContainer
| itSetsTheTaskToRunning
| itRunsTheContainer
| itDoesNothing.

Record TaskRow : Type := mkTaskRow {
  Container : executor.Container;
  Task : option processor.Task;
  TestFunc : TaskTest;
}.

(** The three scenario constructors build the same row. *)
Definition ExpectedTaskScenario := mkTaskRow.
Definition ConceivableTaskScenario := mkTaskRow.
Definition InconceivableTaskScenario := mkTaskRow.

Definition NewContainer (containerState : executor.State) : executor.Container :=
  {| executor.Guid := taskGuid; executor.State_of := containerState;
     executor.RunResult := executor.mkContainerRunResult false "";
     executor.Tags := {[ ResultFileTag := "some-result-filename" ]} |}.

Definition NewCompletedContainer (runResult : executor.ContainerRunResult)
    : executor.Container :=
  {| executor.Guid := taskGuid; executor.State_of := executor.StateCompleted;
     executor.RunResult := runResult;
     executor.Tags := {[ ResultFileTag := "some-result-filename" ]} |}.

Definition NewTask (cellID : string) (taskState : TaskState) : option processor.Task :=
  Some {| TaskGuid := taskGuid; CellID := cellID; State := taskState;
          Failed := false; FailureReason := ""; Result := "";
          ResultFile := "some-result-filename" |}.

Definition successfulRunResult : executor.ContainerRunResult :=
  executor.mkContainerRunResult false "".

Definition failedRunResult : executor.ContainerRunResult :=
  executor.mkContainerRunResult true "because".

Definition Rows : list TaskRow :=
  [ (* container reserved *)
    ConceivableTaskScenario (NewContainer executor.StateReserved) None
      itDeletesTheContainer;
    ExpectedTaskScenario (NewContainer executor.StateReserved)
      (NewTask "" TaskStatePending) itRunsTheContainer;
    ExpectedTaskScenario (NewContainer executor.StateReserved)
      (NewTask "a" TaskStateRunning) itDoesNothing;
    ConceivableTaskScenario (NewContainer executor.StateReserved)
      (NewTask "w" TaskStateRunning) itDeletesTheContainer;
    ConceivableTaskScenario (NewContainer executor.StateReserved)
      (NewTask "a" TaskStateCompleted) itDeletesTheContainer;
    ConceivableTaskScenario (NewContainer executor.StateReserved)
      (NewTask "w" TaskStateCompleted) itDeletesTheContainer;
    ConceivableTaskScenario (NewContainer executor.StateReserved)
      (NewTask "a" TaskStateResolving) itDeletesTheContainer;
    ConceivableTaskScenario (NewContainer executor.StateReserved)
      (NewTask "w" TaskStateResolving) itDeletesTheContainer;
    (* container initializing *)
    ConceivableTaskScenario (NewContainer executor.StateInitializing) None
      itDeletesTheContainer;
    InconceivableTaskScenario (NewContainer executor.StateInitializing)
      (NewTask "" TaskStatePending) itRunsTheContainer;
    ExpectedTaskScenario (NewContainer executor.StateInitializing)
      (NewTask "a" TaskStateRunning) itDoesNothing;
    InconceivableTaskScenario (NewContainer executor.StateInitializing)
      (NewTask "w" TaskStateRunning) itDeletesTheContainer;
    ConceivableTaskScenario (NewContainer executor.StateInitializing)
      (NewTask "a" TaskStateCompleted) itDeletesTheContainer;
    InconceivableTaskScenario (NewContainer executor.StateInitializing)
      (NewTask "w" TaskStateCompleted) itDeletesTheContainer;
    ConceivableTaskScenario (NewContainer executor.StateInitializing)
      (NewTask "a" TaskStateResolving) itDeletesTheContainer;
    InconceivableTaskScenario (NewContainer executor.StateInitializing)
      (NewTask "w" TaskStateResolving) itDeletesTheContainer;
    (* container created *)
    ConceivableTaskScenario (NewContainer executor.StateCreated) None
      itDeletesTheContainer;
    InconceivableTaskScenario (NewContainer executor.StateCreated)
      (NewTask "" TaskStatePending) itSetsTheTaskToRunning;
    ExpectedTaskScenario (NewContainer executor.StateCreated)
      (NewTask "a" TaskStateRunning) itDoesNothing;
    InconceivableTaskScenario (NewContainer executor.StateCreated)
      (NewTask "w" TaskStateRunning) itDeletesTheContainer;
    ConceivableTaskScenario (NewContainer executor.StateCreated)
      (NewTask "a" TaskStateCompleted) itDeletesTheContainer;
    InconceivableTaskScenario (NewContainer executor.StateCreated)
      (NewTask "w" TaskStateCompleted) itDeletesTheContainer;
    ConceivableTaskScenario (NewContainer executor.StateCreated)
      (NewTask "a" TaskStateResolving) itDeletesTheContainer;
    InconceivableTaskScenario (NewContainer executor.StateCreated)
      (NewTask "w" TaskStateResolving) itDeletesTheContainer;
    (* container running *)
    ConceivableTaskScenario (NewContainer executor.StateRunning) None
      itDeletesTheContainer;
    InconceivableTaskScenario (NewContainer executor.StateRunning)
      (NewTask "" TaskStatePending) itSetsTheTaskToRunning;
    ExpectedTaskScenario (NewContainer executor.StateRunning)
      (NewTask "a" TaskStateRunning) itDoesNothing;
    InconceivableTaskScenario (NewContainer executor.StateRunning)
      (NewTask "w" TaskStateRunning) itDeletesTheContainer;
    ConceivableTaskScenario (NewContainer executor.StateRunning)
      (NewTask "a" TaskStateCompleted) itDeletesTheContainer;
    InconceivableTaskScenario (NewContainer executor.StateRunning)
      (NewTask "w" TaskStateCompleted) itDeletesTheContainer;
    ConceivableTaskScenario (NewContainer executor.StateRunning)
      (NewTask "a" TaskStateResolving) itDeletesTheContainer;
    InconceivableTaskScenario (NewContainer executor.StateRunning)
      (NewTask "w" TaskStateResolving) itDeletesTheContainer;
    (* container completed *)
    ConceivableTaskScenario (NewCompletedContainer failedRunResult) None
      itDeletesTheContainer;
    InconceivableTaskScenario (NewCompletedContainer failedRunResult)
      (NewTask "" TaskStatePending)
      (itCompletesTheTaskWithFailure "invalid state transition");
    ExpectedTaskScenario (NewCompletedContainer failedRunResult)
      (NewTask "a" TaskStateRunning) itCompletesTheFailedTaskAndDeletesTheContainer;
    ExpectedTaskScenario (NewCompletedContainer successfulRunResult)
      (NewTask "a" TaskStateRunning) itCompletesTheSuccessfulTaskAndDeletesTheContainer;
    InconceivableTaskScenario (NewCompletedContainer failedRunResult)
      (NewTask "w" TaskStateRunning) itDeletesTheContainer;
    ConceivableTaskScenario (NewCompletedContainer failedRunResult)
      (NewTask "a" TaskStateCompleted) itDeletesTheContainer;
    InconceivableTaskScenario (NewCompletedContainer failedRunResult)
      (NewTask "w" TaskStateCompleted) itDeletesTheContainer;
    ConceivableTaskScenario (NewCompletedContainer failedRunResult)
      (NewTask "a" TaskStateResolving) itDeletesTheContainer;
    InconceivableTaskScenario (NewCompletedContainer failedRunResult)
      (NewTask "w" TaskStateResolving) itDeletesTheContainer ].

(** [walkToState]: the store after the task has been desired and then
    started, completed and resolved as far as its state asks.
    [DesireTask] and [ResolvingTask] are store operations the processor
    does not call; they are written out on the map. *)
Definition walkToState (task : processor.Task) : gmap string processor.Task :=
  let desired : gmap string processor.Task :=
    {[ TaskGuid task :=
         {| TaskGuid := TaskGuid task; CellID := ""; State := TaskStatePending;
            Failed := false; FailureReason := ""; Result := "";
            ResultFile := ResultFile task |} ]} in
  let running := (StartTask memStore (TaskGuid task) (CellID task) desired).2 in
  let completed :=
    (CompleteTask memStore (TaskGuid task) (CellID task) true "reason" "result" running).2 in
  let resolving :=
    match completed !! TaskGuid task with
    | Some t =>
        <[TaskGuid task :=
            {| TaskGuid := TaskGuid t; CellID := CellID t; State := TaskStateResolving;
               Failed := Failed t; FailureReason := FailureReason t; Result := Result t;
               ResultFile := ResultFile t |}]> completed
    | None => completed
    end in
  match State task with
  | TaskStatePending => desired
  | TaskStateRunning => running
  | TaskStateCompleted => completed
  | TaskStateResolving => resolving
  end.

(** [BeforeEach] and [JustBeforeEach] of a row: walk the task to its
    state, then process the container, under a delegate that behaves as
    the fake is told to. *)
Definition runRow (b : executorBehaviour) (row : TaskRow)
    : unit * World (gmap string processor.Task) (gset string) * list Event :=
  Process (memProcessor b localCellID ResultFileTag) (Container row)
    (mkWorld (from_option walkToState ∅ (Task row)) {[ taskGuid ]}).

(** The fake delegate as the test configures it: by default every call
    answers true; "when running the container fails"; "when fetching
    the result succeeds"; "when fetching the result fails". *)
Definition byDefault : executorBehaviour := mkExecutorBehaviour true ("", None).
Definition runningFails : executorBehaviour := mkExecutorBehaviour false ("", None).
Definition fetchingSucceeds : executorBehaviour :=
  mkExecutorBehaviour true ("some-result", None).
Definition fetchingFails : executorBehaviour :=
  mkExecutorBehaviour true ("", Some (errorsNew "nope")).

Definition storedTask (out : unit * World (gmap string processor.Task) (gset string) * list Event)
    : option processor.Task :=
  store (state_of out) !! taskGuid.

Definition deletesTheContainer
    (out : unit * World (gmap string processor.Task) (gset string) * list Event) : bool :=
  bool_decide (filter (λ ev, isDeleteContainer ev = true) (trace_of out)
               = [CallDeleteContainer taskGuid]).

Definition completesTheTaskWithFailure (reason : string)
    (out : unit * World (gmap string processor.Task) (gset string) * list Event) : bool :=
  match storedTask out with
  | Some t =>
      bool_decide (State t = TaskStateCompleted) && Failed t
      && bool_decide (FailureReason t = reason)
  | None => false
  end.

Definition setsTheTaskToRunning
    (out : unit * World (gmap string processor.Task) (gset string) * list Event) : bool :=
  match storedTask out with
  | Some t => bool_decide (State t = TaskStateRunning)
  | None => false
  end.

(** The stub of [DeleteContainer] checks that the task is Completed
    when the container is deleted: the completion comes first in the
    trace and the deletion last. *)
Definition completesBeforeDeleting
    (out : unit * World (gmap string processor.Task) (gset string) * list Event) : bool :=
  bool_decide (last (trace_of out) = Some (CallDeleteContainer taskGuid))
  && bool_decide (count isStoreWrite (trace_of out) = 1).

Definition passes (row : TaskRow) : bool :=
  match TestFunc row with
  | itDeletesTheContainer => deletesTheContainer (runRow byDefault row)
  | itCompletesTheTaskWithFailure reason =>
      completesTheTaskWithFailure reason (runRow byDefault row)
  | itCompletesTheSuccessfulTaskAndDeletesTheContainer =>
      match storedTask (runRow fetchingSucceeds row) with
      | Some t => negb (Failed t) && bool_decide (Result t = "some-result")
      | None => false
      end
      && bool_decide (filter (λ ev, isFetch ev = true) (trace_of (runRow fetchingSucceeds row))
                      = [CallFetchContainerResultFile taskGuid "some-result-filename"])
      && completesBeforeDeleting (runRow fetchingSucceeds row)
      && deletesTheContainer (runRow fetchingSucceeds row)
      && completesTheTaskWithFailure "failed to fetch result" (runRow fetchingFails row)
      && deletesTheContainer (runRow fetchingFails row)
  | itCompletesTheFailedTaskAndDeletesTheContainer =>
      bool_decide (count isFetch (trace_of (runRow byDefault row)) = 0)
      && completesTheTaskWithFailure "because" (runRow byDefault row)
      && deletesTheContainer (runRow byDefault row)
  | itSetsTheTaskToRunning => setsTheTaskToRunning (runRow byDefault row)
  | itRunsTheContainer =>
      setsTheTaskToRunning (runRow byDefault row)
      && bool_decide (filter (λ ev, isRunContainer ev = true) (trace_of (runRow byDefault row))
                      = [CallRunContainer taskGuid])
      && completesTheTaskWithFailure "failed to run container" (runRow runningFails row)
  | itDoesNothing =>
      bool_decide (filter (λ ev, isRunContainer ev = true) (trace_of (runRow byDefault row)) = [])
      && bool_decide (CallStopContainer taskGuid ∉ trace_of (runRow byDefault row))
      && bool_decide (filter (λ ev, isDeleteContainer ev = true)
                        (trace_of (runRow byDefault row)) = [])
  end.

End table_test.

(** ** Views of the reaper's trace *)
Module reaper_calls.
Import reaper.

(** The guid of a [GetContainer] call, of a [CompleteTask] call, and
    the cell of a [GetAllTasksByCellID] call. *)
Definition queriedGuid (ev : Event) : option string :=
  match ev with CallGetContainer guid => Some guid | _ => None end.

Definition completedGuid (ev : Event) : option string :=
  match ev with CallCompleteTask guid _ _ _ => Some guid | _ => None end.

Definition listedCell (ev : Event) : option string :=
  match ev with CallGetAllTasksByCellID cell => Some cell | _ => None end.

(** The guids looked up in the executor, the guids completed in the
    store and the cells listed, each in the order of the trace. *)
Definition queriedGuids (tr : list Event) : list string := omap queriedGuid tr.
Definition completedGuids (tr : list Event) : list string := omap completedGuid tr.
Definition listedCells (tr : list Event) : list string := omap listedCell tr.

#[global] Instance reapable_dec (task : Task) : Decision (reapable task).
Proof. unfold reapable. apply _. Defined.

(** At every point of the trace, the tasks completed so far have each
    been looked up before, one lookup per completion. *)
Definition lookedUpFirst (tr : list Event) : Prop :=
  ∀ pre, pre `prefix_of` tr → completedGuids pre `sublist_of` queriedGuids pre.

(** Every [CompleteTask] call of the trace fails its task for the
    missing container and sets no result. *)
Definition onlyFailsTasks (tr : list Event) : Prop :=
  ∀ ev, ev ∈ tr → isCompleteTask ev = true →
        ∃ guid, ev = CallCompleteTask guid true "task container no longer exists" "".

(** The executor never answers [ErrContainerNotFound], now and after
    any queries: it holds every container it is asked for, or fails in
    some other way. *)
Definition holdsEveryContainer {S E Container} (r : taskReaper S E Container) (e : E) : Prop :=
  ∀ guids guid,
    (GetContainer (executorClient r) guid (afterQueries r guids e)).1.2
    ≠ Some ErrContainerNotFound.

(** The store state after [n] listings of the reaper's cell. *)
Definition afterListings {S E Container} (r : taskReaper S E Container) (n : nat) (s : S) : S :=
  Nat.iter n (λ s', (GetAllTasksByCellID (bbs r) (cellID r) s').2) s.

(** A world in which the stub client finds every container. *)
Definition all_present : World unit (string → error) := mkWorld tt (λ _, None).

(** The executor has no container for a guid: [GetContainer] answers
    the value [ErrContainerNotFound]. *)
Definition missing {S E Container} (r : taskReaper S E Container) (e : E) (guid : string)
    : Prop :=
  (GetContainer (executorClient r) guid e).1.2 = Some ErrContainerNotFound.

#[global] Instance missing_dec {S E Container} (r : taskReaper S E Container) e guid :
  Decision (missing r e guid).
Proof. unfold missing. apply _. Defined.

(** The answers of the executor do not change with the queries made
    of it. *)
Definition steadyExecutor {S E Container} (r : taskReaper S E Container) (e : E) : Prop :=
  ∀ guids guid,
    (GetContainer (executorClient r) guid (afterQueries r guids e)).1.2
    = (GetContainer (executorClient r) guid e).1.2.

(** Whether an event is a log line with the given message, at either
    level. *)
Definition logs (msg : string) (ev : Event) : bool :=
  match ev with
  | LogInfo m | LogError m _ => bool_decide (m = msg)
  | _ => false
  end.

(** How many times a message is logged in a trace. *)
Definition logged (msg : string) (tr : list Event) : nat :=
  length (filter (λ ev, logs msg ev = true) tr).

(** The log lines of a stretch of a run in which [entered] iterations
    start and [ended] iterations end: an iteration ends with the exit
    line or with the failure of the listing; each executor query and
    each completion has its lines. *)
Definition logTally (entered ended : nat) (tr : list Event) : Prop :=
  logged "reaper-entering-loop" tr = entered ∧
  logged "reaper-exiting-loop" tr + logged "reaper-failed-to-get-tasks-by-cell-id" tr
  = ended ∧
  logged "reaper-finding-container-for-task" tr = length (queriedGuids tr) ∧
  logged "reaper-found-no-container-for-task" tr = length (completedGuids tr) ∧
  logged "reaper-marking-containerless-task-as-failed" tr = length (completedGuids tr).

End reaper_calls.

(** ** The table test's walk of a task through its lifecycle

    [walkToState] and [advanceState] of the table test file: before a
    row is processed, its task is taken from no task at all to the
    state the row names, one store call per step. *)
Module table_harness.

(** [models.TaskState]: the five values the test file names, with
    [TaskStateInvalid] the zero value [currentState] starts from, and
    [TaskStateOther] for any further value of the type (the reaper
    names one, [TaskStateClaimed]), which the switch of [advanceState]
    sends to its default branch. *)
Inductive TaskState : Type :=
| TaskStateInvalid
| TaskStatePending
| TaskStateRunning
| TaskStateCompleted
| TaskStateResolving
| TaskStateOther.

#[global] Instance TaskState_eq_dec : EqDecision TaskState.
Proof. solve_decision. Defined.

(** [models.Task], the fields [NewTask] sets ([Action] left out). *)
Record Task : Type := mkTask {
  TaskGuid : string;
  CellID : string;
  State : TaskState;
  ResultFile : string;
  Domain : string;
  RootFS : string;
}.

#[global] Instance Task_eq_dec : EqDecision Task.
Proof. solve_decision. Defined.

(** The store calls of the walk. *)
Inductive Event : Type :=
| CallDesireTask (task : Task)
| CallStartTask (taskGuid cellID : string)
| CallCompleteTask (taskGuid cellID : string) (failed : bool) (failureReason result : string)
| CallResolvingTask (taskGuid : string).

#[global] Instance Event_eq_dec : EqDecision Event.
Proof. solve_decision. Defined.

(** The four methods of [*bbs.BBS] that [advanceState] calls (the
    logger argument left out). *)
Record BBS (S : Type) : Type := mkBBS {
  DesireTask : Task → S → error * S;
  StartTask : string → string → S → (bool * error) * S;
  CompleteTask : string → string → bool → string → string → S → error * S;
  ResolvingTask : string → S → error * S;
}.
Arguments DesireTask {S} _ _ _.
Arguments StartTask {S} _ _ _ _.
Arguments CompleteTask {S} _ _ _ _ _ _ _.
Arguments ResolvingTask {S} _ _ _.

(** How a step is cut short: an expectation of the test is not met
    (the test fails there), or the code panics. *)
Inductive abort : Type :=
| ExpectationUnmet (expectation : string)
| Panicked (msg : string).

Section Walk.
Context {S : Type}.
Abbreviation W := (M S Event).

Definition do_DesireTask (BBS : BBS S) (task : Task) : W error :=
  λ s, let '(err, s') := DesireTask BBS task s in (err, s', [CallDesireTask task]).

Definition do_StartTask (BBS : BBS S) (guid cell : string) : W (bool * error) :=
  λ s, let '(res, s') := StartTask BBS guid cell s in (res, s', [CallStartTask guid cell]).

Definition do_CompleteTask (BBS : BBS S) (guid cell : string) (failed : bool)
    (failureReason result : string) : W error :=
  λ s, let '(err, s') := CompleteTask BBS guid cell failed failureReason result s in
       (err, s', [CallCompleteTask guid cell failed failureReason result]).

Definition do_ResolvingTask (BBS : BBS S) (guid : string) : W error :=
  λ s, let '(err, s') := ResolvingTask BBS guid s in (err, s', [CallResolvingTask guid]).

(** [Ω(err).ShouldNot(HaveOccurred())], then the value returned. *)
Definition shouldNotHaveOccurred (err : error) (next : TaskState) : abort + TaskState :=
  match err with
  | Some _ => inl (ExpectationUnmet "err should not have occurred")
  | None => inr next
  end.

(** [advanceState] (lines 518-544): one store call by the current
    state, the expectations on its answer, and the next state. *)
Definition advanceState (BBS : BBS S) (task : Task) (currentState : TaskState)
    : W (abort + TaskState) :=
  match currentState with
  | TaskStateInvalid =>
      err <- do_DesireTask BBS task ;;
      ret (shouldNotHaveOccurred err TaskStatePending)
  | TaskStatePending =>
      '(changed, err) <- do_StartTask BBS (TaskGuid task) (CellID task) ;;
      ret (match shouldNotHaveOccurred err TaskStateRunning with
           | inl a => inl a
           | inr next =>
               if changed then inr next
               else inl (ExpectationUnmet "changed should be true")
           end)
  | TaskStateRunning =>
      err <- do_CompleteTask BBS (TaskGuid task) (CellID task) true "reason" "result" ;;
      ret (shouldNotHaveOccurred err TaskStateCompleted)
  | TaskStateCompleted =>
      err <- do_ResolvingTask BBS (TaskGuid task) ;;
      ret (shouldNotHaveOccurred err TaskStateResolving)
  | TaskStateResolving | TaskStateOther => ret (inl (Panicked "not a thing."))
  end.

(** How a walk ends: the desired state is reached, a step is cut
    short, or the iterations allowed are used up. *)
Inductive walk : Type :=
| Walked
| Aborted (a : abort)
| OutOfFuel.

(** The loop of [walkToState] (lines 513-515), from a current state,
    for at most [fuel] iterations. *)
Fixpoint walkFrom (fuel : nat) (BBS : BBS S) (task : Task) (currentState : TaskState)
    : W walk :=
  if bool_decide (State task ≠ currentState) then
    match fuel with
    | O => ret OutOfFuel
    | Datatypes.S fuel' =>
        step <- advanceState BBS task currentState ;;
        match step with
        | inl a => ret (Aborted a)
        | inr next => walkFrom fuel' BBS task next
        end
    end
  else ret Walked.

(** [walkToState] (lines 510-516): the loop from the zero value of
    [currentState]. *)
Definition walkToState (fuel : nat) (BBS : BBS S) (task : Task) : W walk :=
  walkFrom fuel BBS task TaskStateInvalid.
End Walk.

(** *** Vocabulary for statements about the walk *)

(** The place of a state in the lifecycle: the number of store calls
    that lead to it.  A value outside the lifecycle is never reached,
    so all four calls are made on the way. *)
Definition rank (st : TaskState) : nat :=
  match st with
  | TaskStateInvalid => 0
  | TaskStatePending => 1
  | TaskStateRunning => 2
  | TaskStateCompleted => 3
  | TaskStateResolving | TaskStateOther => 4
  end.

(** The store calls of a whole lifecycle of a task, in order. *)
Definition lifecycleCalls (task : Task) : list Event :=
  [CallDesireTask task;
   CallStartTask (TaskGuid task) (CellID task);
   CallCompleteTask (TaskGuid task) (CellID task) true "reason" "result";
   CallResolvingTask (TaskGuid task)].

(** The calls that lead from one state of the lifecycle to a later
    one. *)
Definition callsBetween (current desired : TaskState) (task : Task) : list Event :=
  drop (rank current) (take (rank desired) (lifecycleCalls task)).

(** A store that accepts every call of the walk. *)
Definition accepts {S} (BBS : BBS S) : Prop :=
  (∀ task s, (DesireTask BBS task s).1 = None) ∧
  (∀ guid cell s, (StartTask BBS guid cell s).1 = (true, None)) ∧
  (∀ guid cell failed reason result s,
     (CompleteTask BBS guid cell failed reason result s).1 = None) ∧
  (∀ guid s, (ResolvingTask BBS guid s).1 = None).

(** [NewTask] of the test file. *)
Definition NewTask (cellID : string) (taskState : TaskState) : Task :=
  {| TaskGuid := "my-guid"; CellID := cellID; State := taskState;
     ResultFile := "some-result-filename"; Domain := "domain"; RootFS := "some:rootfs" |}.

(** A store that accepts every call and counts them. *)
Definition countingBBS : BBS nat :=
  {| DesireTask := λ _ n, (None, Datatypes.S n);
     StartTask := λ _ _ n, ((true, None), Datatypes.S n);
     CompleteTask := λ _ _ _ _ _ n, (None, Datatypes.S n);
     ResolvingTask := λ _ n, (None, Datatypes.S n) |}.

End table_harness.

(** * Facts *)

(** ** The monad *)
Section MonadFacts.
Context {St Ev : Type}.

Lemma trace_of_bind {A B} (m : M St Ev A) (k : A → M St Ev B) (st : St) :
  trace_of (bind m k st)
  = trace_of (m st) ++ trace_of (k (result_of (m st)) (state_of (m st))).
Proof.
  unfold bind, trace_of, result_of, state_of.
  destruct (m st) as [[a st1] t1]; simpl.
  by destruct (k a st1) as [[b st2] t2].
Qed.

Lemma state_of_bind {A B} (m : M St Ev A) (k : A → M St Ev B) (st : St) :
  state_of (bind m k st) = state_of (k (result_of (m st)) (state_of (m st))).
Proof.
  unfold bind, trace_of, result_of, state_of.
  destruct (m st) as [[a st1] t1]; simpl.
  by destruct (k a st1) as [[b st2] t2].
Qed.

Lemma result_of_bind {A B} (m : M St Ev A) (k : A → M St Ev B) (st : St) :
  result_of (bind m k st) = result_of (k (result_of (m st)) (state_of (m st))).
Proof.
  unfold bind, trace_of, result_of, state_of.
  destruct (m st) as [[a st1] t1]; simpl.
  by destruct (k a st1) as [[b st2] t2].
Qed.

Lemma run_eta {A} (out : A * St * list Ev) :
  out = (result_of out, state_of out, trace_of out).
Proof. by destruct out as [[a st] t]. Qed.
End MonadFacts.

(** Membership in a trace written out as a list: one case per element. *)
Ltac small_trace Hin :=
  repeat (apply elem_of_cons in Hin as [Hin|Hin];
          [first [by simplify_eq/= | subst | idtac]|]);
  try (by apply elem_of_nil in Hin).

(** ** The reaper *)
Section ReaperFacts.
Import reaper.
Context {S E Container : Type}.
Implicit Types (r : taskReaper S E Container) (task : Task) (w : World S E).

Lemma reapTask_skip r task w :
  ¬ reapable task → reapTask r task w = (tt, w, []).
Proof.
  intros Hn. unfold reapTask, reapable in *.
  rewrite !bool_decide_eq_true_2; [done | naive_solver | naive_solver].
Qed.

Lemma reapTask_guard r task :
  reapable task →
  bool_decide (State task ≠ TaskStateClaimed) && bool_decide (State task ≠ TaskStateRunning)
  = false.
Proof.
  intros [H|H]; rewrite H; reflexivity.
Qed.

(** The loop body on a task the reaper goes to the executor for: the
    state and trace, by what the executor and the store answer. *)
Lemma reapTask_reapable r task w :
  reapable task →
  reapTask r task w =
    let '((_, err), e') := GetContainer (executorClient r) (TaskGuid task) (executorState w) in
    if bool_decide (err = Some ErrContainerNotFound) then
      let '(err', s') :=
        CompleteTask (bbs r) (TaskGuid task) true "task container no longer exists" ""
          (bbsState w) in
      (tt, mkWorld s' e',
       [LogInfo "reaper-finding-container-for-task"; CallGetContainer (TaskGuid task);
        LogInfo "reaper-found-no-container-for-task";
        LogInfo "reaper-marking-containerless-task-as-failed";
        CallCompleteTask (TaskGuid task) true "task container no longer exists" ""]
       ++ match err' with
          | Some e => [LogError "reaper-failed-to-mark-containerless-task-as-failed" e]
          | None => []
          end)
    else
      (tt, mkWorld (bbsState w) e',
       [LogInfo "reaper-finding-container-for-task"; CallGetContainer (TaskGuid task)]
       ++ match err with
          | Some e => [LogError "reaper-failed-to-determine-container-existence-for-task" e]
          | None => []
          end).
Proof.
  intros Hr. unfold reapTask. rewrite (reapTask_guard r task Hr).
  unfold bind, logger_Info, logger_Error, emit, ret, do_GetContainer, do_CompleteTask.
  destruct (GetContainer _ _ _) as [[c err] e']; simpl.
  case_bool_decide; simpl.
  - destruct (CompleteTask _ _ _ _ _ _) as [err' s']; simpl. by destruct err'.
  - by destruct err.
Qed.

(** Every CompleteTask call of the loop body is the one of line 72. *)
Lemma reapTask_complete_shape r task w ev :
  ev ∈ trace_of (reapTask r task w) → isCompleteTask ev = true →
  ev = CallCompleteTask (TaskGuid task) true "task container no longer exists" "".
Proof.
  intros Hin Hev.
  destruct (decide (reapable task)) as [Hr|Hn].
  - rewrite (reapTask_reapable r task w Hr) in Hin.
    destruct (GetContainer _ _ _) as [[c err] e'].
    case_bool_decide.
    + destruct (CompleteTask _ _ _ _ _ _) as [err' s'].
      unfold trace_of in Hin; simpl in Hin. destruct err'; small_trace Hin.
    + unfold trace_of in Hin; simpl in Hin. destruct err; small_trace Hin.
  - rewrite (reapTask_skip r task w Hn) in Hin. unfold trace_of in Hin; simpl in Hin.
    small_trace Hin.
Qed.

Lemma rangeTasks_cons r task rest w :
  rangeTasks r (task :: rest) w
  = (tt, state_of (rangeTasks r rest (state_of (reapTask r task w))),
     trace_of (reapTask r task w)
     ++ trace_of (rangeTasks r rest (state_of (reapTask r task w)))).
Proof.
  rewrite (run_eta (rangeTasks r (task :: rest) w)). simpl rangeTasks.
  rewrite trace_of_bind, state_of_bind. f_equal. f_equal.
  by destruct (result_of _).
Qed.

Lemma rangeTasks_examined r tasks w :
  trace_of (rangeTasks r tasks w)
  = concat (map (λ tw, trace_of (reapTask r tw.1 tw.2)) (examined r tasks w)).
Proof.
  revert w. induction tasks as [|task rest IH]; intros w; [done|].
  rewrite rangeTasks_cons. simpl. by rewrite <- IH.
Qed.

Lemma tick_got_tasks r w tasks s' :
  GetAllTasksByCellID (bbs r) (cellID r) (bbsState w) = ((tasks, None), s') →
  tick r w =
    (tt, state_of (rangeTasks r tasks (mkWorld s' (executorState w))),
     [LogInfo "reaper-entering-loop"; LogInfo "reaper-getting-tasks-by-cell-id";
      CallGetAllTasksByCellID (cellID r)]
     ++ trace_of (rangeTasks r tasks (mkWorld s' (executorState w)))
     ++ [LogInfo "reaper-exiting-loop"]).
Proof.
  intros Hget. unfold tick, bind, logger_Info, emit, do_GetAllTasksByCellID; simpl.
  rewrite Hget.
  by destruct (rangeTasks r tasks _) as [[[] w2] t2].
Qed.

Lemma tick_failed_to_get_tasks r w tasks e s' :
  GetAllTasksByCellID (bbs r) (cellID r) (bbsState w) = ((tasks, Some e), s') →
  tick r w =
    (tt, mkWorld s' (executorState w),
     [LogInfo "reaper-entering-loop"; LogInfo "reaper-getting-tasks-by-cell-id";
      CallGetAllTasksByCellID (cellID r);
      LogError "reaper-failed-to-get-tasks-by-cell-id" e]).
Proof.
  intros Hget. unfold tick, bind, logger_Info, logger_Error, emit, do_GetAllTasksByCellID; simpl.
  by rewrite Hget.
Qed.

(** C5 (reaper branching discipline).  Within one tick the loop body
    runs once for each task the store listed, in order, each in the
    world the previous bodies left ([examined]).  For a task and the
    world the body finds: the body calls CompleteTask if and only if
    the task is Claimed or Running and GetContainer answers the value
    ErrContainerNotFound itself (equality of error values, the text of
    the error plays no part); the call is for that task's guid, failed,
    with the fixed reason and an empty result; on any other answer the
    store is left as it was and the trace is the query and, for an
    error, its log line; a task in any other state leaves the world
    untouched and the trace empty, so the executor is not asked. *)
Theorem reaper_branching_discipline r :
  (∀ w tasks s',
     GetAllTasksByCellID (bbs r) (cellID r) (bbsState w) = ((tasks, None), s') →
     trace_of (tick r w) =
       [LogInfo "reaper-entering-loop"; LogInfo "reaper-getting-tasks-by-cell-id";
        CallGetAllTasksByCellID (cellID r)]
       ++ concat (map (λ tw, trace_of (reapTask r tw.1 tw.2))
                    (examined r tasks (mkWorld s' (executorState w))))
       ++ [LogInfo "reaper-exiting-loop"]) ∧
  (∀ task w,
     ((∃ ev, ev ∈ trace_of (reapTask r task w) ∧ isCompleteTask ev = true)
      ↔ reapable task ∧ containerError r (TaskGuid task) w = Some ErrContainerNotFound) ∧
     (∀ ev, ev ∈ trace_of (reapTask r task w) → isCompleteTask ev = true →
            ev = CallCompleteTask (TaskGuid task) true "task container no longer exists" "") ∧
     (reapable task →
      containerError r (TaskGuid task) w ≠ Some ErrContainerNotFound →
      bbsState (state_of (reapTask r task w)) = bbsState w ∧
      trace_of (reapTask r task w) =
        [LogInfo "reaper-finding-container-for-task"; CallGetContainer (TaskGuid task)]
        ++ match containerError r (TaskGuid task) w with
           | Some e =>
               [LogError "reaper-failed-to-determine-container-existence-for-task" e]
           | None => []
           end) ∧
     (¬ reapable task → reapTask r task w = (tt, w, []))).
Proof.
  split.
  { intros w tasks s' Hget. rewrite (tick_got_tasks r w tasks s' Hget).
    unfold trace_of at 1; simpl. by rewrite rangeTasks_examined. }
  intros task w.
  destruct (decide (reapable task)) as [Hr|Hn].
  - pose proof (reapTask_reapable r task w Hr) as Hrun.
    unfold containerError.
    destruct (GetContainer _ _ _) as [[c err] e'] eqn:Hq; simpl in *.
    case_bool_decide as Herr.
    + destruct (CompleteTask _ _ _ _ _ _) as [err' s'] eqn:Hc.
      rewrite Hrun; unfold trace_of, state_of; simpl.
      split; [|split; [|split]].
      * split; [done|]. intros _.
        exists (CallCompleteTask (TaskGuid task) true "task container no longer exists" "").
        split; [|reflexivity].
        rewrite !elem_of_cons. naive_solver.
      * intros ev Hin Hev. destruct err'; small_trace Hin.
      * done.
      * done.
    + rewrite Hrun; unfold trace_of, state_of; simpl.
      split; [|split; [|split]].
      * split; [|by intros [_ ?]].
        intros (ev & Hin & Hev). destruct err; small_trace Hin.
      * intros ev Hin Hev. destruct err; small_trace Hin.
      * done.
      * done.
  - rewrite (reapTask_skip r task w Hn). unfold trace_of, state_of; simpl.
    split; [|split; [|split]].
    + split; [|by intros [? _]]. intros (ev & Hin & _). small_trace Hin.
    + intros ev Hin. small_trace Hin.
    + done.
    + done.
Qed.
Lemma rangeTasks_queries_all r tasks w task :
  task ∈ tasks → reapable task →
  CallGetContainer (TaskGuid task) ∈ trace_of (rangeTasks r tasks w).
Proof.
  intros Hin Hr. revert w.
  induction tasks as [|t rest IH]; intros w; [by apply elem_of_nil in Hin|].
  rewrite rangeTasks_cons. unfold trace_of at 1; simpl.
  apply elem_of_app. apply elem_of_cons in Hin as [->|Hin]; [left|right; by apply IH].
  rewrite (reapTask_reapable r t w Hr).
  destruct (GetContainer _ _ _) as [[c err] e'].
  case_bool_decide; [destruct (CompleteTask _ _ _ _ _ _) as [err' s']|];
    unfold trace_of; simpl; rewrite !elem_of_cons; naive_solver.
Qed.

Lemma loop_ticks r sel w :
  loop r sel w =
    (if signalTaken sel then Returned None else BlockedInSelect,
     state_of (ticks r (ticksBeforeSignal sel) w),
     trace_of (ticks r (ticksBeforeSignal sel) w)).
Proof.
  revert w. induction sel as [|[|] rest IH]; intros w; [done| |done].
  simpl. unfold bind at 1. rewrite state_of_bind, trace_of_bind.
  rewrite (run_eta (tick r w)) at 1.
  destruct (result_of (tick r w)). rewrite IH. done.
Qed.

Lemma Run_ticks r sel w :
  Run r sel w =
    (if signalTaken sel then Returned None else BlockedInSelect,
     state_of (ticks r (ticksBeforeSignal sel) w),
     [CloseReady; TimerEvery (pollInterval r)]
     ++ trace_of (ticks r (ticksBeforeSignal sel) w)).
Proof.
  unfold Run, bind at 1 2, emit. by rewrite loop_ticks.
Qed.

(** C8 (reaper error containment).  When GetAllTasksByCellID answers
    an error, the tick is the two log lines, the call and the error
    log line, and nothing else (so no CompleteTask), and the loop goes
    on from the next select.  When CompleteTask answers an error for a
    task, the body logs it as its last step and the range loop goes on
    with the rest of the tasks: every Claimed or Running task among
    them is still looked up in the executor.  Run itself never returns
    a non-nil error: on any selections it is blocked in select or has
    returned nil. *)
Theorem reaper_error_containment r :
  (∀ w e,
     (GetAllTasksByCellID (bbs r) (cellID r) (bbsState w)).1.2 = Some e →
     trace_of (tick r w) =
       [LogInfo "reaper-entering-loop"; LogInfo "reaper-getting-tasks-by-cell-id";
        CallGetAllTasksByCellID (cellID r);
        LogError "reaper-failed-to-get-tasks-by-cell-id" e] ∧
     (∀ ev, ev ∈ trace_of (tick r w) → isCompleteTask ev = false) ∧
     (∀ sel,
        result_of (loop r (FromTicks :: sel) w) = result_of (loop r sel (state_of (tick r w))) ∧
        trace_of (loop r (FromTicks :: sel) w) =
          trace_of (tick r w) ++ trace_of (loop r sel (state_of (tick r w))))) ∧
  (∀ task rest w e,
     reapable task →
     containerError r (TaskGuid task) w = Some ErrContainerNotFound →
     (CompleteTask (bbs r) (TaskGuid task) true "task container no longer exists" ""
        (bbsState w)).1 = Some e →
     last (trace_of (reapTask r task w))
       = Some (LogError "reaper-failed-to-mark-containerless-task-as-failed" e) ∧
     trace_of (rangeTasks r (task :: rest) w) =
       trace_of (reapTask r task w)
       ++ trace_of (rangeTasks r rest (state_of (reapTask r task w))) ∧
     (∀ t, t ∈ rest → reapable t →
           CallGetContainer (TaskGuid t)
             ∈ trace_of (rangeTasks r rest (state_of (reapTask r task w))))) ∧
  (∀ sel w,
     result_of (Run r sel w) = BlockedInSelect ∨ result_of (Run r sel w) = Returned None).
Proof.
  split; [|split].
  - intros w e He.
    destruct (GetAllTasksByCellID _ _ _) as [[tasks err] s'] eqn:Hget; simpl in He; subst err.
    rewrite (tick_failed_to_get_tasks r w tasks e s' Hget).
    unfold trace_of at 1 2, state_of; simpl.
    split; [done|]. split.
    + intros ev Hin. small_trace Hin.
    + intros sel. simpl loop. rewrite result_of_bind, trace_of_bind.
      rewrite (tick_failed_to_get_tasks r w tasks e s' Hget). done.
  - intros task rest w e Hr Hnf Hc.
    split; [|split].
    + rewrite (reapTask_reapable r task w Hr). unfold containerError in Hnf.
      destruct (GetContainer _ _ _) as [[c err] e']; simpl in Hnf; subst err.
      rewrite bool_decide_eq_true_2 by done.
      destruct (CompleteTask _ _ _ _ _ _) as [err' s']; simpl in Hc; subst err'.
      done.
    + by rewrite rangeTasks_cons.
    + intros t Hin Ht. by apply rangeTasks_queries_all.
  - intros sel w. rewrite Run_ticks. unfold result_of; simpl.
    destruct (signalTaken sel); auto.
Qed.

(** C9 (reaper shutdown).  Whatever the selections, Run has done the
    start-up steps and then a whole number of tick iterations, one for
    each tick taken before the first signal, and nothing else: it has
    returned nil if a signal was taken and is blocked in select
    otherwise.  In particular, once the select takes a signal after n
    ticks, Run returns nil with the state and the trace of exactly n
    whole iterations, whatever was to be selected afterwards: no call
    follows the signal and no iteration is cut short. *)
Theorem reaper_shutdown r w :
  (∀ sel,
     Run r sel w =
       (if signalTaken sel then Returned None else BlockedInSelect,
        state_of (ticks r (ticksBeforeSignal sel) w),
        [CloseReady; TimerEvery (pollInterval r)]
        ++ trace_of (ticks r (ticksBeforeSignal sel) w))) ∧
  (∀ n rest,
     Run r (replicate n FromTicks ++ FromSignals :: rest) w =
       (Returned None, state_of (ticks r n w),
        [CloseReady; TimerEvery (pollInterval r)] ++ trace_of (ticks r n w))) ∧
  (∀ n, result_of (Run r (replicate n FromTicks) w) = BlockedInSelect).
Proof.
  split; [intros sel; apply Run_ticks|]. split.
  - intros n rest. rewrite Run_ticks.
    assert (Hs : signalTaken (replicate n FromTicks ++ FromSignals :: rest) = true)
      by (induction n; simpl; auto).
    assert (Hn : ticksBeforeSignal (replicate n FromTicks ++ FromSignals :: rest) = n)
      by (induction n; simpl; auto).
    by rewrite Hs, Hn.
  - intros n. rewrite Run_ticks. unfold result_of; simpl.
    assert (Hs : signalTaken (replicate n FromTicks) = false)
      by (induction n; simpl; auto).
    by rewrite Hs.
Qed.
Lemma replayQueries_app r t1 t2 e :
  replayQueries r (t1 ++ t2) e = replayQueries r t2 (replayQueries r t1 e).
Proof.
  revert e. induction t1 as [|ev t1 IH]; intros e; [done|].
  destruct ev; simpl; apply IH.
Qed.

Lemma aloof_ret {A} r (a : A) : aloof r (ret a).
Proof. intros w. split; [constructor|done]. Qed.

Lemma aloof_bind {A B} r (m : M (World S E) Event A) (k : A → M (World S E) Event B) :
  aloof r m → (∀ a, aloof r (k a)) → aloof r (bind m k).
Proof.
  intros Hm Hk w. rewrite trace_of_bind, state_of_bind.
  destruct (Hm w) as [Hm1 Hm2].
  destruct (Hk (result_of (m w)) (state_of (m w))) as [Hk1 Hk2].
  split; [by apply Forall_app|].
  by rewrite replayQueries_app, <- Hm2.
Qed.

Lemma aloof_log_info r msg : aloof r (logger_Info msg).
Proof.
  intros w. split; [|done]. repeat constructor; done.
Qed.

Lemma aloof_log_error r msg e : aloof r (logger_Error msg e).
Proof.
  intros w. split; [|done]. repeat constructor; done.
Qed.

Lemma aloof_GetContainer r guid : aloof r (do_GetContainer r guid).
Proof.
  intros w. unfold do_GetContainer, trace_of, state_of.
  destruct (GetContainer _ _ _) as [res e'] eqn:Hq; simpl. rewrite Hq.
  split; [|done]. repeat constructor; eauto.
Qed.

Lemma aloof_CompleteTask r guid failed reason result :
  aloof r (do_CompleteTask r guid failed reason result).
Proof.
  intros w. unfold do_CompleteTask, trace_of, state_of.
  destruct (CompleteTask _ _ _ _ _ _) as [err s']; simpl.
  split; [|done]. repeat constructor; done.
Qed.

Lemma aloof_GetAllTasksByCellID r cell : aloof r (do_GetAllTasksByCellID r cell).
Proof.
  intros w. unfold do_GetAllTasksByCellID, trace_of, state_of.
  destruct (GetAllTasksByCellID _ _ _) as [res s']; simpl.
  split; [|done]. repeat constructor; done.
Qed.

Lemma aloof_reapTask r task : aloof r (reapTask r task).
Proof.
  unfold reapTask. destruct (_ && _); [apply aloof_ret|].
  apply aloof_bind; [apply aloof_log_info|intros _].
  apply aloof_bind; [apply aloof_GetContainer|intros [c err]].
  case_bool_decide.
  - repeat (apply aloof_bind; [apply aloof_log_info|intros _]).
    apply aloof_bind; [apply aloof_CompleteTask|intros [e|]];
      [apply aloof_log_error|apply aloof_ret].
  - destruct err; [apply aloof_log_error|apply aloof_ret].
Qed.

Lemma aloof_rangeTasks r tasks : aloof r (rangeTasks r tasks).
Proof.
  induction tasks as [|task rest IH]; [apply aloof_ret|].
  simpl. apply aloof_bind; [apply aloof_reapTask|done].
Qed.

Lemma aloof_tick r : aloof r (tick r).
Proof.
  unfold tick.
  repeat (apply aloof_bind; [apply aloof_log_info|intros _]).
  apply aloof_bind; [apply aloof_GetAllTasksByCellID|intros [tasks [e|]]].
  - apply aloof_log_error.
  - apply aloof_bind; [apply aloof_rangeTasks|intros _; apply aloof_log_info].
Qed.

Lemma aloof_loop r sel : aloof r (loop r sel).
Proof.
  induction sel as [|[|] rest IH]; [apply aloof_ret| |apply aloof_ret].
  simpl. apply aloof_bind; [apply aloof_tick|done].
Qed.

(** C10 (the reaper never mutates the executor).  On any selections
    and from any world, no event of Run is RunContainer, StopContainer
    or DeleteContainer; every call on the executor client is the
    GetContainer query; every store write is CompleteTask; and the
    executor state after Run is the state before it taken through the
    GetContainer queries of the trace, in order, and through nothing
    else. *)
Theorem reaper_never_mutates_executor r sel w :
  Forall leavesExecutorAlone (trace_of (Run r sel w)) ∧
  executorState (state_of (Run r sel w))
  = replayQueries r (trace_of (Run r sel w)) (executorState w).
Proof.
  revert w. change (aloof r (Run r sel)). unfold Run.
  apply aloof_bind; [|intros _; apply aloof_bind; [|intros _; apply aloof_loop]];
    (intros w; split; [|done]); repeat constructor; done.
Qed.
Lemma reapTask_completes r task w :
  reapable task →
  containerError r (TaskGuid task) w = Some ErrContainerNotFound →
  CallCompleteTask (TaskGuid task) true "task container no longer exists" ""
    ∈ trace_of (reapTask r task w) ∧
  bbsState (state_of (reapTask r task w))
  = (CompleteTask (bbs r) (TaskGuid task) true "task container no longer exists" ""
       (bbsState w)).2.
Proof.
  intros Hr Hnf. rewrite (reapTask_reapable r task w Hr). unfold containerError in Hnf.
  destruct (GetContainer _ _ _) as [[c err] e']; simpl in Hnf; subst err.
  rewrite bool_decide_eq_true_2 by done.
  destruct (CompleteTask _ _ _ _ _ _) as [err' s']; unfold trace_of, state_of; simpl.
  split; [|done]. rewrite !elem_of_cons. naive_solver.
Qed.

(** What the loop body can do to the store: nothing, or the one
    CompleteTask call on the task's guid. *)
Lemma reapTask_store r task w :
  bbsState (state_of (reapTask r task w)) = bbsState w ∨
  bbsState (state_of (reapTask r task w))
  = (CompleteTask (bbs r) (TaskGuid task) true "task container no longer exists" ""
       (bbsState w)).2.
Proof.
  destruct (decide (reapable task)) as [Hr|Hn];
    [|left; by rewrite (reapTask_skip r task w Hn)].
  destruct (decide (containerError r (TaskGuid task) w = Some ErrContainerNotFound))
    as [Hnf|Hne]; [right; by apply reapTask_completes|left].
  rewrite (reapTask_reapable r task w Hr). unfold containerError in Hne.
  destruct (GetContainer _ _ _) as [[c err] e']; simpl in Hne.
  by rewrite bool_decide_eq_false_2.
Qed.

Lemma reapTask_executor r task w :
  executorState (state_of (reapTask r task w)) = executorState w ∨
  executorState (state_of (reapTask r task w))
  = (GetContainer (executorClient r) (TaskGuid task) (executorState w)).2.
Proof.
  destruct (decide (reapable task)) as [Hr|Hn];
    [|left; by rewrite (reapTask_skip r task w Hn)].
  right. rewrite (reapTask_reapable r task w Hr).
  destruct (GetContainer _ _ _) as [[c err] e'].
  case_bool_decide; [by destruct (CompleteTask _ _ _ _ _ _)|done].
Qed.

Lemma containerGone_now r guid w :
  containerGone r guid (executorState w) →
  containerError r guid w = Some ErrContainerNotFound.
Proof. intros Hgone. apply (Hgone []). Qed.

Lemma containerGone_reapTask r guid task w :
  containerGone r guid (executorState w) →
  containerGone r guid (executorState (state_of (reapTask r task w))).
Proof.
  intros Hgone. destruct (reapTask_executor r task w) as [->| ->]; [done|].
  intros guids. apply (Hgone (TaskGuid task :: guids)).
Qed.

Lemma rangeTasks_completes r tasks w task :
  task ∈ tasks → reapable task →
  containerGone r (TaskGuid task) (executorState w) →
  CallCompleteTask (TaskGuid task) true "task container no longer exists" ""
    ∈ trace_of (rangeTasks r tasks w).
Proof.
  intros Hin Hr. revert w.
  induction tasks as [|t rest IH]; intros w Hgone; [by apply elem_of_nil in Hin|].
  rewrite rangeTasks_cons. unfold trace_of at 1; simpl.
  apply elem_of_app. apply elem_of_cons in Hin as [->|Hin].
  - left. apply reapTask_completes; [done|by apply containerGone_now].
  - right. apply IH; [done|]. by apply containerGone_reapTask.
Qed.

Lemma rangeTasks_only_completes r tasks w ev :
  ev ∈ trace_of (rangeTasks r tasks w) → isCompleteTask ev = true →
  ∃ guid, ev = CallCompleteTask guid true "task container no longer exists" "".
Proof.
  revert w. induction tasks as [|t rest IH]; intros w Hin Hev;
    [by apply elem_of_nil in Hin|].
  rewrite rangeTasks_cons in Hin. unfold trace_of at 1 in Hin; simpl in Hin.
  apply elem_of_app in Hin as [Hin|Hin]; [|by eapply IH].
  exists (TaskGuid t). by eapply reapTask_complete_shape.
Qed.
End ReaperFacts.

(** ** The reaper over the in-memory store *)
Section ReaperStoreFacts.
Import reaper.
Context {E Container : Type}.
Implicit Types (s : gmap string Task) (cl : Client E Container).

Lemma memBBS_CompleteTask_other s guid failed reason result g :
  g ≠ guid →
  (CompleteTask memBBS guid failed reason result s).2 !! g = s !! g.
Proof.
  intros Hne. simpl. destruct (s !! guid) as [x|]; [|done].
  case_bool_decide; [done|]. simpl. by rewrite lookup_insert_ne.
Qed.

Lemma memBBS_CompleteTask_held s guid failed reason result t :
  s !! guid = Some t → State t ≠ TaskStateCompleted → State t ≠ TaskStateResolving →
  (CompleteTask memBBS guid failed reason result s).2 !! guid
  = Some (completeWith t failed reason result).
Proof.
  intros Hs Hc Hv. simpl. rewrite Hs.
  rewrite bool_decide_eq_false_2 by (by intros [|]). simpl. by rewrite lookup_insert_eq.
Qed.

Lemma memBBS_CompleteTask_done s guid failed reason result t :
  s !! guid = Some t → State t = TaskStateCompleted →
  (CompleteTask memBBS guid failed reason result s).2 = s.
Proof.
  intros Hs Hc. simpl. rewrite Hs.
  by rewrite bool_decide_eq_true_2 by (by left).
Qed.

(** Once a task is recorded as completed, the rest of the range loop
    leaves the record as it is. *)
Lemma rangeTasks_keeps_done cl interval cell tasks s e g t :
  s !! g = Some t → State t = TaskStateCompleted →
  bbsState (state_of (rangeTasks (NewTaskReaper interval cell memBBS cl) tasks (mkWorld s e)))
    !! g = Some t.
Proof.
  revert s e. induction tasks as [|t' rest IH]; intros s e Hs Hc; [done|].
  rewrite rangeTasks_cons. unfold state_of at 1; simpl.
  destruct (state_of (reapTask _ t' (mkWorld s e))) as [s1 e1] eqn:Hw.
  apply IH; [|done].
  destruct (reapTask_store (NewTaskReaper interval cell memBBS cl) t' (mkWorld s e)) as [Heq|Heq];
    rewrite Hw in Heq; simpl bbsState in Heq; rewrite Heq; [done|].
  destruct (decide (g = TaskGuid t')) as [->|Hne].
  - by rewrite (memBBS_CompleteTask_done s _ _ _ _ t).
  - by rewrite memBBS_CompleteTask_other.
Qed.

Lemma rangeTasks_converges cl interval cell tasks s e t :
  t ∈ tasks → s !! TaskGuid t = Some t → reapable t →
  containerGone (NewTaskReaper interval cell memBBS cl) (TaskGuid t) e →
  bbsState (state_of (rangeTasks (NewTaskReaper interval cell memBBS cl) tasks (mkWorld s e)))
    !! TaskGuid t
  = Some (completeWith t true "task container no longer exists" "").
Proof.
  intros Hin Hs Hr. revert s e Hs.
  induction tasks as [|t' rest IH]; intros s e Hs Hgone; [by apply elem_of_nil in Hin|].
  assert (Hlive : State t ≠ TaskStateCompleted ∧ State t ≠ TaskStateResolving)
    by (destruct Hr as [Hr|Hr]; rewrite Hr; done).
  destruct Hlive as [Hl1 Hl2].
  rewrite rangeTasks_cons. unfold state_of at 1; simpl.
  set (r := NewTaskReaper interval cell memBBS cl) in *.
  pose proof (containerGone_reapTask r (TaskGuid t) t' (mkWorld s e) Hgone) as Hgone'.
  destruct (state_of (reapTask r t' (mkWorld s e))) as [s1 e1] eqn:Hw.
  assert (Hdone : ∀ t0, TaskGuid t0 = TaskGuid t → reapable t0 →
            bbsState (state_of (reapTask r t0 (mkWorld s e))) !! TaskGuid t
            = Some (completeWith t true "task container no longer exists" "")).
  { intros t0 Hg Hr0.
    destruct (reapTask_completes r t0 (mkWorld s e) Hr0) as [_ ->].
    - rewrite Hg. by apply containerGone_now.
    - rewrite Hg. simpl bbs. by apply memBBS_CompleteTask_held. }
  destruct (decide (TaskGuid t' = TaskGuid t ∧ reapable t')) as [[Hg Hr']|Hno].
  - specialize (Hdone t' Hg Hr'). rewrite Hw in Hdone. simpl in Hdone.
    by apply rangeTasks_keeps_done.
  - apply elem_of_cons in Hin as [Heq|Hin].
    { subst t'. destruct Hno. split; [reflexivity|exact Hr]. }
    apply IH; [done| |done].
    destruct (decide (reapable t')) as [Hr'|Hn].
    + destruct (reapTask_store r t' (mkWorld s e)) as [Heq|Heq];
        rewrite Hw in Heq; simpl bbsState in Heq; rewrite Heq; [done|].
      rewrite memBBS_CompleteTask_other; [done|].
      intros Hg. apply Hno. by split.
    + rewrite (reapTask_skip r t' _ Hn) in Hw. unfold state_of in Hw; simpl in Hw.
      by simplify_eq.
Qed.

(** C2, as amended (reaper convergence).  The store is the in-memory
    one.  For a task that the store holds under its guid for the local
    cell, Claimed or Running, and for which the executor answers
    ErrContainerNotFound whenever it is asked, one tick calls
    CompleteTask with the task's
    guid, failed, the reason "task container no longer exists" and an
    empty result; every CompleteTask call of the tick has that shape (a
    guid, a flag and two strings: no cell identifier is passed); and
    after the tick the store holds the task Completed and failed with
    that reason, an empty result and its cell unchanged. *)
Theorem reaper_convergence cl interval cell s (e : E) t :
  s !! TaskGuid t = Some t →
  CellID t = cell →
  reapable t →
  containerGone (NewTaskReaper interval cell memBBS cl) (TaskGuid t) e →
  CallCompleteTask (TaskGuid t) true "task container no longer exists" ""
    ∈ trace_of (tick (NewTaskReaper interval cell memBBS cl) (mkWorld s e)) ∧
  (∀ ev, ev ∈ trace_of (tick (NewTaskReaper interval cell memBBS cl) (mkWorld s e)) →
         isCompleteTask ev = true →
         ∃ guid, ev = CallCompleteTask guid true "task container no longer exists" "") ∧
  ∃ t', bbsState (state_of (tick (NewTaskReaper interval cell memBBS cl) (mkWorld s e)))
          !! TaskGuid t = Some t' ∧
        State t' = TaskStateCompleted ∧ Failed t' = true ∧
        FailureReason t' = "task container no longer exists" ∧ Result t' = "" ∧
        CellID t' = cell.
Proof.
  intros Hs Hcell Hr Hnf.
  set (r := NewTaskReaper interval cell memBBS cl).
  set (tasks := filter (λ t0, CellID t0 = cell) (map_to_list s).*2).
  assert (Hget : GetAllTasksByCellID (bbs r) (cellID r) (bbsState (mkWorld s e))
                 = ((tasks, None), s)) by done.
  assert (Hin : t ∈ tasks).
  { apply list_elem_of_filter. split; [done|].
    apply list_elem_of_fmap. exists (TaskGuid t, t). split; [done|].
    by apply elem_of_map_to_list. }
  rewrite (tick_got_tasks r _ tasks s Hget). unfold trace_of at 1 2, state_of at 1.
  simpl fst; simpl snd.
  split; [|split].
  - rewrite !elem_of_cons, !elem_of_app. do 3 right. left.
    by apply rangeTasks_completes.
  - intros ev Hev Hc. simpl in Hev.
    repeat (apply elem_of_cons in Hev as [->|Hev]; [done|]).
    apply elem_of_app in Hev as [Hev|Hev]; [by eapply rangeTasks_only_completes|].
    small_trace Hev.
  - eexists. split; [by apply rangeTasks_converges|]. done.
Qed.
End ReaperStoreFacts.

(** ** The reaper on the scenarios *)
Section ReaperScenarios.
Import reaper.

(** C2 at scenario 6 of the spec. *)
Lemma reaper_convergence_witness :
  CallCompleteTask "g6" true "task container no longer exists" ""
    ∈ trace_of (tick scenario6_reaper scenario6_world) ∧
  (∀ ev, ev ∈ trace_of (tick scenario6_reaper scenario6_world) →
         isCompleteTask ev = true →
         ∃ guid, ev = CallCompleteTask guid true "task container no longer exists" "") ∧
  ∃ t', bbsState (state_of (tick scenario6_reaper scenario6_world)) !! "g6" = Some t' ∧
        State t' = TaskStateCompleted ∧ Failed t' = true ∧
        FailureReason t' = "task container no longer exists" ∧ Result t' = "" ∧
        CellID t' = "A".
Proof.
  apply (reaper_convergence stubClient 30000000000 "A" {[ "g6" := scenario6_task ]}
           (λ _, Some ErrContainerNotFound) scenario6_task).
  - reflexivity.
  - reflexivity.
  - right. reflexivity.
  - intros guids. induction guids as [|guid guids IH]; [reflexivity|exact IH].
Defined.

(** C2 as stated fails on scenario 6: the tick is the trace below, and
    no CompleteTask call of it has the local cell identifier "A" among
    its arguments. *)
Lemma reaper_completes_without_cell_id :
  trace_of (tick scenario6_reaper scenario6_world) =
    [LogInfo "reaper-entering-loop"; LogInfo "reaper-getting-tasks-by-cell-id";
     CallGetAllTasksByCellID "A";
     LogInfo "reaper-finding-container-for-task"; CallGetContainer "g6";
     LogInfo "reaper-found-no-container-for-task";
     LogInfo "reaper-marking-containerless-task-as-failed";
     CallCompleteTask "g6" true "task container no longer exists" "";
     LogInfo "reaper-exiting-loop"] ∧
  ¬ (∃ ev, ev ∈ trace_of (tick scenario6_reaper scenario6_world) ∧
           isCompleteTask ev = true ∧
           cellID scenario6_reaper ∈ stringArgs ev).
Proof.
  assert (Htr : trace_of (tick scenario6_reaper scenario6_world) =
    [LogInfo "reaper-entering-loop"; LogInfo "reaper-getting-tasks-by-cell-id";
     CallGetAllTasksByCellID "A";
     LogInfo "reaper-finding-container-for-task"; CallGetContainer "g6";
     LogInfo "reaper-found-no-container-for-task";
     LogInfo "reaper-marking-containerless-task-as-failed";
     CallCompleteTask "g6" true "task container no longer exists" "";
     LogInfo "reaper-exiting-loop"]) by (vm_compute; reflexivity).
  split; [exact Htr|].
  intros (ev & Hin & Hev & Harg). rewrite Htr in Hin.
  small_trace Hin. unfold scenario6_reaper, NewTaskReaper in Harg. simpl in Harg.
  repeat (apply elem_of_cons in Harg as [Harg|Harg]; [discriminate Harg|]).
  by apply elem_of_nil in Harg.
Qed.

(** C5 on the scenarios: a Running task whose lookup fails with
    another error value of the same text is logged and skipped, and a
    Completed task is skipped without a query. *)
Lemma reaper_branching_discipline_witness :
  (bbsState (state_of (reapTask scenario6_reaper scenario6_task lookalike_world))
   = bbsState lookalike_world ∧
   trace_of (reapTask scenario6_reaper scenario6_task lookalike_world) =
     [LogInfo "reaper-finding-container-for-task"; CallGetContainer "g6"]
     ++ match containerError scenario6_reaper "g6" lookalike_world with
        | Some e => [LogError "reaper-failed-to-determine-container-existence-for-task" e]
        | None => []
        end) ∧
  reapTask scenario6_reaper (completeWith scenario6_task true "boom" "") scenario6_world
  = (tt, scenario6_world, []) ∧
  trace_of (tick scenario6_reaper scenario6_world) =
    [LogInfo "reaper-entering-loop"; LogInfo "reaper-getting-tasks-by-cell-id";
     CallGetAllTasksByCellID "A"]
    ++ concat (map (λ tw, trace_of (reapTask scenario6_reaper tw.1 tw.2))
                 (examined scenario6_reaper [scenario6_task] scenario6_world))
    ++ [LogInfo "reaper-exiting-loop"].
Proof.
  destruct (reaper_branching_discipline scenario6_reaper) as [Htick Hbody].
  destruct (Hbody scenario6_task lookalike_world) as (_ & _ & Hother & _).
  destruct (Hbody (completeWith scenario6_task true "boom" "") scenario6_world)
    as (_ & _ & _ & Hskip).
  split; [|split].
  - apply Hother; [right; reflexivity|discriminate].
  - apply Hskip. intros [Hc|Hc]; discriminate Hc.
  - apply (Htick scenario6_world [scenario6_task] {[ "g6" := scenario6_task ]}).
    vm_compute. reflexivity.
Defined.

(** C8 on the scenarios: a store that cannot list the tasks, and a
    store that lists two tasks and refuses to complete either. *)
Lemma reaper_error_containment_witness :
  trace_of (tick failing_reaper no_containers) =
    [LogInfo "reaper-entering-loop"; LogInfo "reaper-getting-tasks-by-cell-id";
     CallGetAllTasksByCellID "A";
     LogError "reaper-failed-to-get-tasks-by-cell-id" (errorsNew "store unavailable")] ∧
  last (trace_of (reapTask refusing_reaper refused_g6 no_containers))
    = Some (LogError "reaper-failed-to-mark-containerless-task-as-failed"
              (errorsNew "store unavailable")) ∧
  CallGetContainer "g7"
    ∈ trace_of (rangeTasks refusing_reaper [refused_g7]
                  (state_of (reapTask refusing_reaper refused_g6 no_containers))).
Proof.
  destruct (reaper_error_containment failing_reaper) as (Hlist & _ & _).
  destruct (reaper_error_containment refusing_reaper) as (_ & Hwrite & _).
  destruct (Hlist no_containers (errorsNew "store unavailable")) as (Htr & _);
    [reflexivity|].
  destruct (Hwrite refused_g6 [refused_g7] no_containers (errorsNew "store unavailable"))
    as (Hlast & _ & Hrest); [right; reflexivity|reflexivity|reflexivity|].
  split; [exact Htr|]. split; [exact Hlast|].
  apply (Hrest refused_g7); [|left; reflexivity].
  apply list_elem_of_singleton. reflexivity.
Defined.
End ReaperScenarios.

(** ** The task processor *)
Section ProcessorFacts.
Import processor.
Context {S D : Type}.
Implicit Types (p : taskProcessor S D) (c : executor.Container) (w : World S D) (task : Task).

Lemma deleteContainer_run p guid w :
  deleteContainer p guid w =
    (tt, mkWorld (store w) (DeleteContainer (containerDelegate p) guid (delegate w)).2,
     [CallDeleteContainer guid]).
Proof.
  unfold deleteContainer, bind, do_DeleteContainer, ret.
  by destruct (DeleteContainer _ _ _).
Qed.

Lemma complete_run p guid failed reason result w :
  complete p guid failed reason result w =
    (tt, mkWorld (CompleteTask (bbs p) guid (cellID p) failed reason result (store w)).2
           (delegate w),
     [CallCompleteTask guid (cellID p) failed reason result]).
Proof.
  unfold complete, bind, do_CompleteTask, ret.
  by destruct (CompleteTask _ _ _ _ _ _ _).
Qed.

(** [Process] on a task the store holds: the read, then the table. *)
Lemma Process_found p c w task :
  StoreLaws (bbs p) →
  taskIn (bbs p) (executor.Guid c) (store w) = Some task →
  Process p c w =
    (tt, state_of (table p c task w),
     CallTaskByGuid (executor.Guid c) :: trace_of (table p c task w)).
Proof.
  intros Hlaws Hin. unfold Process, bind, do_TaskByGuid. unfold taskIn in Hin.
  pose proof (TaskByGuid_reads _ Hlaws (executor.Guid c) (store w)) as Hread.
  destruct (TaskByGuid _ _ _) as [[t|e] s1]; simpl in *; [|done].
  simplify_eq. destruct w as [s d]; simpl.
  by destruct (table p c task _) as [[[] w2] t2].
Qed.

Lemma claim_run p guid run w :
  claim p guid run w =
    let '((changed, err), s1) := StartTask (bbs p) guid (cellID p) (store w) in
    match err with
    | Some e =>
        if Transient (bbs p) e
        then (tt, mkWorld s1 (delegate w), [CallStartTask guid (cellID p)])
        else
          (tt, mkWorld s1 (DeleteContainer (containerDelegate p) guid (delegate w)).2,
           [CallStartTask guid (cellID p); CallDeleteContainer guid])
    | None =>
        if changed && run then
          let '(ok, d1) := RunContainer (containerDelegate p) guid (delegate w) in
          if ok then
            (tt, mkWorld s1 d1, [CallStartTask guid (cellID p); CallRunContainer guid])
          else
            (tt, mkWorld (CompleteTask (bbs p) guid (cellID p) true
                            "failed to run container" "" s1).2 d1,
             [CallStartTask guid (cellID p); CallRunContainer guid;
              CallCompleteTask guid (cellID p) true "failed to run container" ""])
        else (tt, mkWorld s1 (delegate w), [CallStartTask guid (cellID p)])
    end.
Proof.
  unfold claim, bind, do_StartTask.
  destruct (StartTask _ _ _ _) as [[changed err] s1]; simpl.
  destruct err as [e|].
  - destruct (Transient (bbs p) e); [done|by rewrite deleteContainer_run].
  - destruct (changed && run); [|done].
    unfold bind, do_RunContainer; simpl.
    destruct (RunContainer _ _ _) as [[|] d1]; simpl; [done|].
    by rewrite complete_run.
Qed.

(** C1 (owner safety).  When the store holds the container's task for
    a cell that is set and is not the local cell, whatever the state of
    the container and of the task, [Process] reads the task and deletes
    the container, and does nothing else: its trace is the read and one
    DeleteContainer for the container's guid, so no event is a store
    write (no StartTask, no CompleteTask) and the store is as the read
    left it. *)
Theorem owner_safety p c w task :
  (TaskByGuid (bbs p) (executor.Guid c) (store w)).1 = inl task →
  CellID task ≠ "" →
  CellID task ≠ cellID p →
  trace_of (Process p c w)
    = [CallTaskByGuid (executor.Guid c); CallDeleteContainer (executor.Guid c)] ∧
  (∀ ev, ev ∈ trace_of (Process p c w) → isStoreWrite ev = false) ∧
  count isDeleteContainer (trace_of (Process p c w)) = 1 ∧
  store (state_of (Process p c w)) = (TaskByGuid (bbs p) (executor.Guid c) (store w)).2.
Proof.
  intros Hget Hset Hother.
  assert (Hrun : Process p c w =
    (tt, mkWorld (TaskByGuid (bbs p) (executor.Guid c) (store w)).2
           (DeleteContainer (containerDelegate p) (executor.Guid c) (delegate w)).2,
     [CallTaskByGuid (executor.Guid c); CallDeleteContainer (executor.Guid c)])).
  { unfold Process, bind, do_TaskByGuid.
    destruct (TaskByGuid _ _ _) as [res s1]; simpl in *; subst res.
    unfold table, ownedElsewhere. rewrite !bool_decide_eq_true_2 by done. simpl.
    by rewrite deleteContainer_run. }
  rewrite Hrun. unfold trace_of, state_of; simpl.
  split; [done|]. split; [|done].
  intros ev Hin. small_trace Hin.
Qed.
Lemma completeFromRunResult_run p c w :
  completeFromRunResult p c w =
    if executor.Failed (executor.RunResult c) then
      complete p (executor.Guid c) true (executor.FailureReason (executor.RunResult c)) "" w
    else
      let '((text, err), d1) :=
        FetchContainerResultFile (containerDelegate p) (executor.Guid c)
          (executor.tag c (ResultFileTag p)) (delegate w) in
      let out :=
        match err with
        | None => complete p (executor.Guid c) false "" text (mkWorld (store w) d1)
        | Some _ =>
            complete p (executor.Guid c) true "failed to fetch result" ""
              (mkWorld (store w) d1)
        end in
      (tt, state_of out,
       CallFetchContainerResultFile (executor.Guid c) (executor.tag c (ResultFileTag p))
       :: trace_of out).
Proof.
  unfold completeFromRunResult. destruct (executor.Failed _); [done|].
  unfold bind, do_FetchContainerResultFile.
  destruct (FetchContainerResultFile _ _ _ _) as [[text err] d1]; simpl.
  destruct err; by rewrite complete_run.
Qed.

(** A completion of a Running task by its owner is recorded. *)
Lemma complete_owned p guid failed reason result w task :
  StoreLaws (bbs p) →
  taskIn (bbs p) guid (store w) = Some task →
  State task = TaskStateRunning → CellID task = cellID p →
  ∃ task', taskIn (bbs p) guid
             (CompleteTask (bbs p) guid (cellID p) failed reason result (store w)).2
           = Some task' ∧
           State task' = TaskStateCompleted ∧ Failed task' = failed ∧
           FailureReason task' = reason ∧ Result task' = result.
Proof.
  intros Hlaws Hin Hst Hcell.
  pose proof (CompleteTask_accepts _ Hlaws guid (cellID p) failed reason result
                (store w) task Hin Hst Hcell) as Hok.
  destruct (CompleteTask _ _ _ _ _ _ _) as [err s'] eqn:Hc; simpl in Hok; subst err.
  apply (CompleteTask_recorded _ Hlaws _ _ _ _ _ _ _ Hc).
Qed.

(** C3, as amended (terminal completion).  For a Completed container
    whose task the store holds Running for the local cell, [Process]
    leaves the task Completed and deletes the container as its last
    step, once, in each of the three branches.  A failed run completes
    the task as failed with the run's failure reason and an empty
    result, without a fetch.  A successful run fetches the file named
    by the result-file tag; on success the task is completed, not
    failed, with the fetched text as result; on a fetch error it is
    completed as failed with "failed to fetch result".  Exactly one of
    failed and result is populated, except when a successful run's
    result file reads as the empty text: then the task is Completed,
    not failed, with an empty result. *)
Theorem terminal_completion p c w task :
  StoreLaws (bbs p) →
  executor.State_of c = executor.StateCompleted →
  taskIn (bbs p) (executor.Guid c) (store w) = Some task →
  State task = TaskStateRunning →
  CellID task = cellID p →
  ∃ task',
    taskIn (bbs p) (executor.Guid c) (store (state_of (Process p c w))) = Some task' ∧
    State task' = TaskStateCompleted ∧
    count isDeleteContainer (trace_of (Process p c w)) = 1 ∧
    last (trace_of (Process p c w)) = Some (CallDeleteContainer (executor.Guid c)) ∧
    (if executor.Failed (executor.RunResult c) then
       trace_of (Process p c w) =
         [CallTaskByGuid (executor.Guid c);
          CallCompleteTask (executor.Guid c) (cellID p) true
            (executor.FailureReason (executor.RunResult c)) "";
          CallDeleteContainer (executor.Guid c)] ∧
       Failed task' = true ∧
       FailureReason task' = executor.FailureReason (executor.RunResult c) ∧
       Result task' = "" ∧
       exactlyOnePopulated task'
     else
       match (FetchContainerResultFile (containerDelegate p) (executor.Guid c)
                (executor.tag c (ResultFileTag p)) (delegate w)).1 with
       | (text, None) =>
           trace_of (Process p c w) =
             [CallTaskByGuid (executor.Guid c);
              CallFetchContainerResultFile (executor.Guid c)
                (executor.tag c (ResultFileTag p));
              CallCompleteTask (executor.Guid c) (cellID p) false "" text;
              CallDeleteContainer (executor.Guid c)] ∧
           Failed task' = false ∧ FailureReason task' = "" ∧ Result task' = text ∧
           (exactlyOnePopulated task' ↔ text ≠ "")
       | (_, Some _) =>
           trace_of (Process p c w) =
             [CallTaskByGuid (executor.Guid c);
              CallFetchContainerResultFile (executor.Guid c)
                (executor.tag c (ResultFileTag p));
              CallCompleteTask (executor.Guid c) (cellID p) true
                "failed to fetch result" "";
              CallDeleteContainer (executor.Guid c)] ∧
           Failed task' = true ∧ FailureReason task' = "failed to fetch result" ∧
           Result task' = "" ∧
           exactlyOnePopulated task'
       end).
Proof.
  intros Hlaws Hc Hin Hst Hcell.
  rewrite (Process_found p c w task Hlaws Hin).
  unfold table, ownedElsewhere, isOwner. rewrite Hst, Hc, Hcell.
  rewrite (bool_decide_eq_false_2 (cellID p ≠ cellID p)) by (intros Hne; by apply Hne).
  rewrite andb_false_r. rewrite bool_decide_eq_true_2 by done.
  rewrite state_of_bind, trace_of_bind, !deleteContainer_run.
  rewrite completeFromRunResult_run.
  destruct (executor.Failed (executor.RunResult c)).
  - rewrite complete_run. unfold state_of, trace_of, result_of; simpl.
    destruct (complete_owned p (executor.Guid c) true
                (executor.FailureReason (executor.RunResult c)) "" w task
                Hlaws Hin Hst Hcell) as (task' & Hin' & Hs' & Hf' & Hr' & Hres').
    exists task'. unfold exactlyOnePopulated. naive_solver.
  - destruct (FetchContainerResultFile _ _ _ _) as [[text err] d1]; simpl.
    destruct err as [e|]; rewrite complete_run; unfold state_of, trace_of, result_of; simpl.
    + destruct (complete_owned p (executor.Guid c) true "failed to fetch result" ""
                  (mkWorld (store w) d1) task Hlaws Hin Hst Hcell)
        as (task' & Hin' & Hs' & Hf' & Hr' & Hres').
      exists task'. unfold exactlyOnePopulated. naive_solver.
    + destruct (complete_owned p (executor.Guid c) false "" text
                  (mkWorld (store w) d1) task Hlaws Hin Hst Hcell)
        as (task' & Hin' & Hs' & Hf' & Hr' & Hres').
      exists task'. split_and!; try done.
      unfold exactlyOnePopulated. rewrite Hf', Hres'. split.
      * intros [[Hx _]|[_ Hx]]; [discriminate Hx|exact Hx].
      * intros Hx. right. by split.
Qed.
(** The table on a Pending task that no other cell owns. *)
Lemma table_pending p c w task :
  State task = TaskStatePending →
  ownedElsewhere p task = false →
  table p c task w =
    match executor.State_of c with
    | executor.StateReserved | executor.StateInitializing =>
        claim p (executor.Guid c) true w
    | executor.StateCreated | executor.StateRunning =>
        claim p (executor.Guid c) false w
    | executor.StateCompleted =>
        (complete p (executor.Guid c) true "invalid state transition" "" ;;
         deleteContainer p (executor.Guid c)) w
    end.
Proof.
  intros Hst Hown. unfold table. rewrite Hown, Hst.
  by destruct (executor.State_of c).
Qed.

(** A trace of at most four events cut at a RunContainer call. *)
Ltac cut_trace Hcut pre :=
  destruct pre as [|? [|? [|? [|? pre]]]]; simplify_eq/=;
  try (rewrite !elem_of_cons; naive_solver).

(** C4 (claim atomicity and claim-then-run ordering).  For a Reserved
    container whose task the store holds Pending and not owned by
    another cell: every RunContainer call of [Process] comes after
    its StartTask call, and exactly one of three outcomes holds: the
    task is Running and RunContainer was called exactly once; or
    RunContainer was called and answered false and the task is
    Completed, failed, with the reason "failed to run container"; or
    StartTask answered changed=false, the store is as it was and
    RunContainer was not called.  Which of the three it is follows the
    answers of the collaborators: when StartTask reports the claim and
    the delegate accepts the run, the first, the calls being the read,
    StartTask and RunContainer; when StartTask reports the claim and
    the delegate refuses the run, the second, the calls being those
    and then CompleteTask for the local cell with failed=true, the
    reason "failed to run container" and an empty result; when
    StartTask does not report the claim, the third, with no
    RunContainer call and no store write but that StartTask. *)
Theorem claim_then_run p c w task :
  StoreLaws (bbs p) →
  executor.State_of c = executor.StateReserved →
  taskIn (bbs p) (executor.Guid c) (store w) = Some task →
  State task = TaskStatePending →
  ownedElsewhere p task = false →
  startsBeforeRunning (executor.Guid c) (cellID p) (trace_of (Process p c w)) ∧
  exactlyOneClaimOutcome p (executor.Guid c) w (Process p c w) ∧
  claimOutcomeByAnswers p (executor.Guid c) w (Process p c w).
Proof.
  intros Hlaws Hc Hin Hst Hown.
  rewrite (Process_found p c w task Hlaws Hin).
  rewrite (table_pending p c w task Hst Hown), Hc, claim_run.
  unfold claimOutcomeByAnswers, exactlyOneClaimOutcome, taskRunningAndRunOnce,
    runRefusedAndTaskFailed, claimChangedNothing, startsBeforeRunning.
  destruct (StartTask _ _ _ _) as [[changed err] s1] eqn:Hstart.
  destruct err as [e|].
  { (* the claim failed *)
    pose proof (StartTask_failed _ Hlaws _ _ _ _ _ _ Hstart) as ->.
    pose proof (StartTask_unchanged _ Hlaws _ _ _ _ _ Hstart) as ->.
    destruct (Transient (bbs p) e); unfold state_of, trace_of; simpl.
    all: split; [intros pre g' post Hcut; cut_trace Hcut pre|].
    all: split;
      [ right; right; split_and!; try done;
        [intros [_ Hn]; discriminate Hn | intros (Hr & _); small_trace Hr]
      | split; [done|]; intros ev Hev; small_trace Hev ]. }
  destruct changed; simpl.
  2:{ (* compare-and-set conflict *)
    pose proof (StartTask_unchanged _ Hlaws _ _ _ _ _ Hstart) as ->.
    unfold state_of, trace_of; simpl.
    split; [intros pre g' post Hcut; cut_trace Hcut pre|].
    split.
    - right; right. split_and!; try done.
      + intros [_ Hn]. discriminate Hn.
      + intros (Hr & _). small_trace Hr.
    - split; [done|]. intros ev Hev. small_trace Hev. }
  destruct (StartTask_changed _ Hlaws _ _ _ _ Hstart) as (t1 & Hin1 & Hst1 & Hcell1).
  destruct (RunContainer _ _ _) as [[|] d1] eqn:Hrun; simpl.
  { (* the container runs *)
    unfold state_of, trace_of; simpl.
    split; [intros pre g' post Hcut; cut_trace Hcut pre|].
    assert (Hone : (∃ t, taskIn (bbs p) (executor.Guid c) s1 = Some t ∧
                         State t = TaskStateRunning) ∧
                   count isRunContainer
                     [CallTaskByGuid (executor.Guid c);
                      CallStartTask (executor.Guid c) (cellID p);
                      CallRunContainer (executor.Guid c)] = 1)
      by (split; [by exists t1|done]).
    split; [|done].
    left. split_and!; try done.
    - by exists t1.
    - intros (_ & Hn & _). discriminate Hn.
    - intros (Hn & _). discriminate Hn. }
  (* the run is refused: the store accepts the completion of the task
     that has just been claimed *)
  pose proof (CompleteTask_accepts _ Hlaws (executor.Guid c) (cellID p) true
                "failed to run container" "" s1 t1 Hin1 Hst1 Hcell1) as Haccepts.
  destruct (CompleteTask _ _ _ _ _ _ s1) as [err s2] eqn:Hcomplete.
  simpl in Haccepts. subst err.
  destruct (CompleteTask_recorded _ Hlaws _ _ _ _ _ _ _ Hcomplete)
    as (t2 & Hin2 & Hst2 & Hf2 & Hr2 & _).
  unfold state_of, trace_of; simpl.
  split; [intros pre g' post Hcut; cut_trace Hcut pre|].
  assert (Htwo : CallRunContainer (executor.Guid c)
                   ∈ [CallTaskByGuid (executor.Guid c);
                      CallStartTask (executor.Guid c) (cellID p);
                      CallRunContainer (executor.Guid c);
                      CallCompleteTask (executor.Guid c) (cellID p) true
                        "failed to run container" ""] ∧
                 false = false ∧
                 ∃ t, taskIn (bbs p) (executor.Guid c) s2 = Some t ∧
                      State t = TaskStateCompleted ∧ Failed t = true ∧
                      FailureReason t = "failed to run container").
  { split_and!; [rewrite !elem_of_cons; naive_solver|done|by exists t2]. }
  split; [|done].
  right; left. split_and!; try done.
  - intros [(t3 & Hin3 & Hst3) _]. congruence.
  - apply Htwo.
  - by exists t2.
  - intros (Hn & _). discriminate Hn.
Qed.

(** C6 (a Pending task under a container past the run call).  For a
    task the store holds Pending and not owned by another cell: under a
    Created or Running container, [Process] calls StartTask and never
    RunContainer, and when StartTask reports the change the task is
    Running for the local cell; under a Reserved or Initializing
    container and the same answer of StartTask, RunContainer is called,
    once, for the container's guid, right after StartTask. *)
Theorem pending_task_past_the_run_call p c w task :
  StoreLaws (bbs p) →
  taskIn (bbs p) (executor.Guid c) (store w) = Some task →
  State task = TaskStatePending →
  ownedElsewhere p task = false →
  (executor.State_of c = executor.StateCreated ∨
   executor.State_of c = executor.StateRunning →
   CallStartTask (executor.Guid c) (cellID p) ∈ trace_of (Process p c w) ∧
   count isRunContainer (trace_of (Process p c w)) = 0 ∧
   ((StartTask (bbs p) (executor.Guid c) (cellID p) (store w)).1 = (true, None) →
    trace_of (Process p c w)
      = [CallTaskByGuid (executor.Guid c); CallStartTask (executor.Guid c) (cellID p)] ∧
    ∃ t, taskIn (bbs p) (executor.Guid c) (store (state_of (Process p c w))) = Some t ∧
         State t = TaskStateRunning ∧ CellID t = cellID p)) ∧
  (executor.State_of c = executor.StateReserved ∨
   executor.State_of c = executor.StateInitializing →
   (StartTask (bbs p) (executor.Guid c) (cellID p) (store w)).1 = (true, None) →
   take 3 (trace_of (Process p c w))
     = [CallTaskByGuid (executor.Guid c); CallStartTask (executor.Guid c) (cellID p);
        CallRunContainer (executor.Guid c)] ∧
   count isRunContainer (trace_of (Process p c w)) = 1).
Proof.
  intros Hlaws Hin Hst Hown.
  rewrite (Process_found p c w task Hlaws Hin).
  rewrite (table_pending p c w task Hst Hown), !claim_run.
  split.
  - intros Hcs.
    destruct (StartTask _ _ _ _) as [[changed err] s1] eqn:Hstart.
    assert (Hchanged : (changed, err) = (true, None) →
              ∃ t, taskIn (bbs p) (executor.Guid c) s1 = Some t ∧
                   State t = TaskStateRunning ∧ CellID t = cellID p).
    { intros Heq. simplify_eq. apply (StartTask_changed _ Hlaws _ _ _ _ Hstart). }
    destruct Hcs as [-> | ->]; simpl;
      (destruct err as [e|]; [destruct (Transient (bbs p) e)|rewrite andb_false_r]);
      unfold state_of, trace_of; simpl;
      (split; [rewrite !elem_of_cons; by (right; left)|]);
      (split; [done|]);
      intros Heq; (split; [by simplify_eq|by apply Hchanged]).
  - intros Hc Hstart.
    destruct (StartTask _ _ _ _) as [[changed err] s1]; simpl in Hstart; simplify_eq.
    destruct Hc as [-> | ->]; simpl;
      destruct (RunContainer _ _ _) as [[|] d1]; done.
Qed.
End ProcessorFacts.

(** ** The processor over the in-memory store and executor *)
Section ProcessorStoreFacts.
Import processor.

Lemma taskIn_memStore guid (s : gmap string Task) :
  taskIn memStore guid s = s !! guid.
Proof. unfold taskIn; simpl. by destruct (s !! guid). Qed.

(** The in-memory store answers as the laws of the store say. *)
Lemma memStore_laws : StoreLaws memStore.
Proof.
  split.
  - done.
  - intros guid cell s s' Hstart. simpl in Hstart.
    destruct (s !! guid) as [t|] eqn:Hs; [|done].
    case_bool_decide; [|done]. simplify_eq.
    exists (started t cell). by rewrite taskIn_memStore, lookup_insert_eq.
  - intros guid cell s err s' Hstart. simpl in Hstart.
    destruct (s !! guid) as [t|] eqn:Hs; [|by simplify_eq].
    case_bool_decide; by simplify_eq.
  - intros guid cell s changed e s' Hstart. simpl in Hstart.
    destruct (s !! guid) as [t|] eqn:Hs; [|by simplify_eq].
    case_bool_decide; by simplify_eq.
  - intros guid cell failed reason result s s' Hcomplete. simpl in Hcomplete.
    destruct (s !! guid) as [t|] eqn:Hs; [|done].
    repeat case_bool_decide; try done. simplify_eq.
    exists (completed t failed reason result).
    by rewrite taskIn_memStore, lookup_insert_eq.
  - intros guid cell failed reason result s e s' Hcomplete. simpl in Hcomplete.
    destruct (s !! guid) as [t|] eqn:Hs; [|by simplify_eq].
    repeat case_bool_decide; by simplify_eq.
  - intros guid cell failed reason result s task Hin Hst Hcell.
    rewrite taskIn_memStore in Hin. simpl. rewrite Hin.
    rewrite bool_decide_eq_false_2 by (rewrite Hst; by intros [|]).
    rewrite bool_decide_eq_false_2 by (intros [_ Hne]; by apply Hne).
    done.
Qed.

(** So does the contended store: it reports no change and records
    nothing. *)
Lemma contendedStore_laws : StoreLaws contendedStore.
Proof.
  split; try done.
  - intros guid cell [] err [] _. done.
  - intros guid cell failed reason result [] e [] _. done.
  - intros guid cell failed reason result [] task Hin Hst.
    unfold taskIn in Hin; simpl in Hin. by simplify_eq.
Qed.

(** So does the store that cannot be reached for the claim. *)
Lemma unreachableStore_laws : StoreLaws unreachableStore.
Proof.
  split; try done.
  - intros guid cell [] err [] _. done.
  - intros guid cell [] changed e [] Hstart. simpl in Hstart. by simplify_eq.
  - intros guid cell failed reason result [] e [] _. done.
  - intros guid cell failed reason result [] task Hin Hst.
    unfold taskIn in Hin; simpl in Hin. by simplify_eq.
Qed.

(** And the store that refuses the claim. *)
Lemma claimedElsewhereStore_laws : StoreLaws claimedElsewhereStore.
Proof.
  split; try done.
  - intros guid cell [] err [] _. done.
  - intros guid cell [] changed e [] Hstart. simpl in Hstart. by simplify_eq.
  - intros guid cell failed reason result [] e [] _. done.
  - intros guid cell failed reason result [] task Hin Hst.
    unfold taskIn in Hin; simpl in Hin. by simplify_eq.
Qed.

(** The in-memory executor deletes idempotently. *)
Lemma memDelegate_idempotentDelete b : idempotentDelete (memDelegate b).
Proof.
  intros guid d. simpl. apply set_eq. intros guid'.
  rewrite !elem_of_difference. tauto.
Qed.
Implicit Types (b : executorBehaviour) (c : executor.Container)
  (s : gmap string Task) (d : gset string).

Lemma not_elem_of_deleted (guid : string) d : guid ∉ d ∖ {[ guid ]}.
Proof.
  intros [_ Hn]%elem_of_difference. apply Hn. by apply elem_of_singleton.
Qed.

Lemma Process_mem b cell tagKey c s d :
  Process (memProcessor b cell tagKey) c (mkWorld s d) =
    match s !! executor.Guid c with
    | Some task =>
        (tt, state_of (table (memProcessor b cell tagKey) c task (mkWorld s d)),
         CallTaskByGuid (executor.Guid c)
         :: trace_of (table (memProcessor b cell tagKey) c task (mkWorld s d)))
    | None =>
        (tt, mkWorld s (d ∖ {[ executor.Guid c ]}),
         [CallTaskByGuid (executor.Guid c); CallDeleteContainer (executor.Guid c)])
    end.
Proof.
  unfold Process, bind, do_TaskByGuid; simpl.
  destruct (s !! executor.Guid c) as [task|]; simpl; [|done].
  by destruct (table _ c task _) as [[[] w2] t2].
Qed.

(** In a settled row [Process] reads the task and deletes the
    container or does nothing; the store is untouched. *)
Lemma Process_settled b cell tagKey c s d del :
  settled (memProcessor b cell tagKey) c (s !! executor.Guid c) = Some del →
  Process (memProcessor b cell tagKey) c (mkWorld s d) =
    (tt, mkWorld s (if del then d ∖ {[ executor.Guid c ]} else d),
     CallTaskByGuid (executor.Guid c)
     :: if del then [CallDeleteContainer (executor.Guid c)] else []).
Proof.
  intros Hrow. rewrite Process_mem.
  destruct (s !! executor.Guid c) as [task|]; simpl in Hrow; [|by simplify_eq].
  unfold table.
  destruct (ownedElsewhere _ task);
    [simplify_eq; by rewrite deleteContainer_run|].
  destruct (State task); [done| |simplify_eq; by rewrite deleteContainer_run..].
  destruct (isOwner _ task); [|simplify_eq; by rewrite deleteContainer_run].
  destruct (executor.State_of c); by simplify_eq.
Qed.

Lemma ownedElsewhere_false b cell tagKey task :
  ownedElsewhere (memProcessor b cell tagKey) task = false →
  CellID task = "" ∨ CellID task = cell.
Proof.
  unfold ownedElsewhere; simpl. intros Hown.
  destruct (decide (CellID task = "")) as [?|Hset]; [by left|right].
  destruct (decide (CellID task = cell)) as [?|Hother]; [done|].
  by rewrite !bool_decide_eq_true_2 in Hown.
Qed.

Lemma ownedElsewhere_local b cell tagKey task :
  CellID task = cell → ownedElsewhere (memProcessor b cell tagKey) task = false.
Proof.
  intros Hcell. unfold ownedElsewhere; simpl.
  rewrite (bool_decide_eq_false_2 (CellID task ≠ cell)) by (intros Hne; by apply Hne).
  apply andb_false_r.
Qed.

Lemma memStore_StartTask_pending guid cell s task :
  s !! guid = Some task → State task = TaskStatePending →
  StartTask memStore guid cell s = ((true, None), <[guid := started task cell]> s).
Proof. intros Hs Hst. simpl. by rewrite Hs, bool_decide_eq_true_2. Qed.

Lemma memStore_CompleteTask_accepted guid cell failed reason result s task :
  s !! guid = Some task →
  State task ≠ TaskStateCompleted → State task ≠ TaskStateResolving →
  CellID task = "" ∨ CellID task = cell →
  CompleteTask memStore guid cell failed reason result s
  = (None, <[guid := completed task failed reason result]> s).
Proof.
  intros Hs Hc Hv Hcell. simpl. rewrite Hs.
  rewrite bool_decide_eq_false_2 by (by intros [|]).
  rewrite bool_decide_eq_false_2; [done|].
  intros [Hset Hother]. by destruct Hcell.
Qed.

(** A completed task is in a settled row that deletes the container. *)
Lemma settled_completed b cell tagKey c s guid task failed reason result :
  ownedElsewhere (memProcessor b cell tagKey) task = false →
  settled (memProcessor b cell tagKey) c
    (<[guid := completed task failed reason result]> s !! guid) = Some true.
Proof.
  intros Hown. rewrite lookup_insert_eq. unfold settled.
  replace (ownedElsewhere _ (completed task failed reason result))
    with (ownedElsewhere (memProcessor b cell tagKey) task) by done.
  by rewrite Hown.
Qed.

(** A task started by the local cell is in a settled row that does
    nothing, unless the container is Completed. *)
Lemma settled_started b cell tagKey c s guid task :
  executor.State_of c ≠ executor.StateCompleted →
  settled (memProcessor b cell tagKey) c (<[guid := started task cell]> s !! guid)
  = Some false.
Proof.
  intros Hc. rewrite lookup_insert_eq. unfold settled.
  rewrite ownedElsewhere_local by done. simpl.
  unfold isOwner; simpl. rewrite bool_decide_eq_true_2 by done.
  by destruct (executor.State_of c).
Qed.
(** The claim of a Pending task over the in-memory store and
    executor. *)
Lemma claim_mem b cell tagKey guid run s d task :
  s !! guid = Some task → State task = TaskStatePending →
  claim (memProcessor b cell tagKey) guid run (mkWorld s d) =
    if run then
      if runs b && bool_decide (guid ∈ d) then
        (tt, mkWorld (<[guid := started task cell]> s) d,
         [CallStartTask guid cell; CallRunContainer guid])
      else
        (tt, mkWorld (<[guid := completed (started task cell) true
                                  "failed to run container" ""]>
                        (<[guid := started task cell]> s)) d,
         [CallStartTask guid cell; CallRunContainer guid;
          CallCompleteTask guid cell true "failed to run container" ""])
    else
      (tt, mkWorld (<[guid := started task cell]> s) d, [CallStartTask guid cell]).
Proof.
  intros Hs Hst. rewrite claim_run.
  change (bbs (memProcessor b cell tagKey)) with memStore.
  change (cellID (memProcessor b cell tagKey)) with cell.
  change (store (mkWorld s d)) with s.
  rewrite (memStore_StartTask_pending guid cell s task Hs Hst).
  destruct run; [|done]. simpl andb. cbv iota.
  change (RunContainer (containerDelegate (memProcessor b cell tagKey)) guid
            (delegate (mkWorld s d)))
    with (runs b && bool_decide (guid ∈ d), d).
  destruct (runs b && bool_decide (guid ∈ d)); [done|].
  rewrite (memStore_CompleteTask_accepted guid cell true "failed to run container" ""
             _ (started task cell)); [done|by rewrite lookup_insert_eq|done|done|by right].
Qed.

(** A completion by the local cell of a task it may write, over the
    in-memory store. *)
Lemma complete_mem b cell tagKey guid failed reason result s d task :
  s !! guid = Some task →
  State task ≠ TaskStateCompleted → State task ≠ TaskStateResolving →
  ownedElsewhere (memProcessor b cell tagKey) task = false →
  complete (memProcessor b cell tagKey) guid failed reason result (mkWorld s d) =
    (tt, mkWorld (<[guid := completed task failed reason result]> s) d,
     [CallCompleteTask guid cell failed reason result]).
Proof.
  intros Hs Hc Hv Hown. rewrite complete_run.
  change (bbs (memProcessor b cell tagKey)) with memStore.
  change (cellID (memProcessor b cell tagKey)) with cell.
  change (store (mkWorld s d)) with s.
  rewrite (memStore_CompleteTask_accepted guid cell failed reason result s task);
    [done..|by eapply ownedElsewhere_false].
Qed.

(** Whatever the row, one pass of [Process] leaves the task in a
    settled row; if that row deletes the container, either this pass
    has deleted it already or this pass has completed the task with
    "failed to run container". *)
Lemma Process_settles b cell tagKey c s d :
  ∃ del,
    settled (memProcessor b cell tagKey) c
      (store (state_of (Process (memProcessor b cell tagKey) c (mkWorld s d)))
         !! executor.Guid c) = Some del ∧
    (del = true →
     (CallDeleteContainer (executor.Guid c)
        ∈ trace_of (Process (memProcessor b cell tagKey) c (mkWorld s d)) ∧
      executor.Guid c
        ∉ delegate (state_of (Process (memProcessor b cell tagKey) c (mkWorld s d)))) ∨
     CallCompleteTask (executor.Guid c) cell true "failed to run container" ""
       ∈ trace_of (Process (memProcessor b cell tagKey) c (mkWorld s d))).
Proof.
  destruct (settled (memProcessor b cell tagKey) c (s !! executor.Guid c))
    as [del|] eqn:Hrow.
  { rewrite (Process_settled b cell tagKey c s d del Hrow).
    unfold state_of, trace_of; simpl. exists del. split; [done|].
    intros ->. left. split; [rewrite !elem_of_cons; by (right; left)|apply not_elem_of_deleted]. }
  rewrite Process_mem.
  destruct (s !! executor.Guid c) as [task|] eqn:Hs; [|done]. simpl in Hrow.
  unfold table.
  destruct (ownedElsewhere _ task) eqn:Hown; [done|].
  destruct (State task) eqn:Hst; try done.
  - (* a Pending task *)
    destruct (executor.State_of c) eqn:Hcs.
    5:{ rewrite state_of_bind, trace_of_bind.
        rewrite (complete_mem b cell tagKey _ _ _ _ s d task Hs); [|by rewrite Hst..|done].
        rewrite deleteContainer_run. unfold state_of, trace_of, result_of; simpl.
        exists true. split; [by apply settled_completed|].
        intros _. left.
        split; [rewrite !elem_of_cons; by (right; right; left)|apply not_elem_of_deleted]. }
    all: rewrite (claim_mem b cell tagKey _ _ s d task Hs Hst).
    1-2: destruct (runs b && bool_decide (executor.Guid c ∈ d)).
    all: unfold state_of, trace_of; simpl.
    1,3,5,6: exists false; split; [|done];
      apply settled_started; by rewrite Hcs.
    all: exists true; split;
      [apply settled_completed; by apply ownedElsewhere_local
      |intros _; right; rewrite !elem_of_cons; by (right; right; right; left)].
  - (* a Running task of the local cell under a Completed container *)
    destruct (isOwner _ task) eqn:Hio; [|done].
    destruct (executor.State_of c) eqn:Hcs; try done.
    rewrite state_of_bind, trace_of_bind, completeFromRunResult_run.
    destruct (executor.Failed (executor.RunResult c)).
    + rewrite (complete_mem b cell tagKey _ _ _ _ s d task Hs); [|by rewrite Hst..|done].
      rewrite deleteContainer_run. unfold state_of, trace_of, result_of; simpl.
      exists true. split; [by apply settled_completed|].
      intros _. left. split; [rewrite !elem_of_cons; by (right; right; left)|apply not_elem_of_deleted].
    + change (FetchContainerResultFile (containerDelegate (memProcessor b cell tagKey))
                (executor.Guid c)
                (executor.tag c (ResultFileTag (memProcessor b cell tagKey)))
                (delegate (mkWorld s d)))
        with (if bool_decide (executor.Guid c ∈ d) then resultFileReads b
              else ("", Some ErrContainerNotFound), d).
      destruct (if bool_decide (executor.Guid c ∈ d) then resultFileReads b
                else ("", Some ErrContainerNotFound)) as [text [e|]];
        rewrite (complete_mem b cell tagKey _ _ _ _ s d task Hs);
        try (by rewrite Hst); try done;
        rewrite deleteContainer_run; unfold state_of, trace_of, result_of; simpl;
        (exists true; split; [by apply settled_completed|]);
        intros _; left;
        (split; [rewrite !elem_of_cons; by (right; right; right; left)|apply not_elem_of_deleted]).
Qed.
(** Over the in-memory store and executor, where every write of
    [Process] takes effect, for every container, store and set of
    containers: a second invocation of [Process] right after the first
    leaves the store as the first left it and calls neither StartTask
    nor CompleteTask.  It reads the task and either does nothing more,
    the containers staying as they were, or calls DeleteContainer once
    for the container's guid.  That deletion is redundant (the first
    invocation had deleted the container, and the containers stay as
    they were), except when the first invocation completed the task
    with "failed to run container": then the second invocation is the
    one that deletes the container. *)
Lemma process_twice_in_memory b cell tagKey c s d :
  store (state_of (ProcessAgain (memProcessor b cell tagKey) c (mkWorld s d)))
  = store (state_of (Process (memProcessor b cell tagKey) c (mkWorld s d))) ∧
  (∀ ev, ev ∈ trace_of (ProcessAgain (memProcessor b cell tagKey) c (mkWorld s d)) →
         isStoreWrite ev = false) ∧
  ((trace_of (ProcessAgain (memProcessor b cell tagKey) c (mkWorld s d))
    = [CallTaskByGuid (executor.Guid c)] ∧
    delegate (state_of (ProcessAgain (memProcessor b cell tagKey) c (mkWorld s d)))
    = delegate (state_of (Process (memProcessor b cell tagKey) c (mkWorld s d)))) ∨
   (trace_of (ProcessAgain (memProcessor b cell tagKey) c (mkWorld s d))
    = [CallTaskByGuid (executor.Guid c); CallDeleteContainer (executor.Guid c)] ∧
    delegate (state_of (ProcessAgain (memProcessor b cell tagKey) c (mkWorld s d)))
    = delegate (state_of (Process (memProcessor b cell tagKey) c (mkWorld s d)))
        ∖ {[ executor.Guid c ]} ∧
    ((CallDeleteContainer (executor.Guid c)
        ∈ trace_of (Process (memProcessor b cell tagKey) c (mkWorld s d)) ∧
      delegate (state_of (ProcessAgain (memProcessor b cell tagKey) c (mkWorld s d)))
      = delegate (state_of (Process (memProcessor b cell tagKey) c (mkWorld s d)))) ∨
     CallCompleteTask (executor.Guid c) cell true "failed to run container" ""
       ∈ trace_of (Process (memProcessor b cell tagKey) c (mkWorld s d))))).
Proof.
  destruct (Process_settles b cell tagKey c s d) as (del & Hrow & Hwhy).
  unfold ProcessAgain.
  destruct (state_of (Process (memProcessor b cell tagKey) c (mkWorld s d)))
    as [s1 d1] eqn:Hw1.
  simpl in Hrow. rewrite (Process_settled b cell tagKey c s1 d1 del Hrow).
  unfold state_of, trace_of; simpl.
  split; [done|]. split.
  { intros ev Hin. destruct del; small_trace Hin. }
  destruct del; [right|by left].
  split; [done|]. split; [done|].
  destruct (Hwhy eq_refl) as [[Hdel Hgone]|Hfailed]; [left|by right].
  split; [done|]. simpl in Hgone.
  apply set_eq. intros guid. rewrite elem_of_difference, elem_of_singleton.
  split; [by intros [? _]|]. intros Hin. split; [done|]. by intros ->.
Qed.
End ProcessorStoreFacts.

(** ** Two passes of the processor over any store and executor *)
Section ProcessTwice.
Import processor.
Context {S D : Type} (p : taskProcessor S D).
Implicit Types (c : executor.Container) (s : S) (d : D).

Lemma Process_over c s d :
  StoreLaws (bbs p) →
  Process p c (mkWorld s d) =
    match (TaskByGuid (bbs p) (executor.Guid c) s).1 with
    | inl task =>
        (tt, state_of (table p c task (mkWorld s d)),
         CallTaskByGuid (executor.Guid c) :: trace_of (table p c task (mkWorld s d)))
    | inr ErrStoreResourceNotFound =>
        (tt, mkWorld s (DeleteContainer (containerDelegate p) (executor.Guid c) d).2,
         [CallTaskByGuid (executor.Guid c); CallDeleteContainer (executor.Guid c)])
    | inr _ => (tt, mkWorld s d, [CallTaskByGuid (executor.Guid c)])
    end.
Proof.
  intros Hlaws. unfold Process, bind, do_TaskByGuid. simpl.
  pose proof (TaskByGuid_reads _ Hlaws (executor.Guid c) s) as Hread.
  destruct (TaskByGuid (bbs p) (executor.Guid c) s) as [[task|e] s1];
    simpl in *; subst s1.
  - by destruct (table p c task _) as [[[] w2] t2].
  - destruct e; by rewrite ?deleteContainer_run.
Qed.

(** In a settled row [Process] reads the task and deletes the
    container or does nothing, whatever the store. *)
Lemma Process_settled_over c s task del :
  StoreLaws (bbs p) →
  (TaskByGuid (bbs p) (executor.Guid c) s).1 = inl task →
  settled p c (Some task) = Some del →
  passWithoutEffect p c s [] del.
Proof.
  intros Hlaws Hread Hrow d. rewrite Process_over, Hread by done.
  simpl in Hrow. unfold table.
  destruct (ownedElsewhere p task);
    [simplify_eq; by rewrite deleteContainer_run|].
  destruct (State task); [done| |simplify_eq; by rewrite deleteContainer_run..].
  destruct (isOwner p task); [|simplify_eq; by rewrite deleteContainer_run].
  destruct (executor.State_of c); by simplify_eq.
Qed.

Lemma taskIn_read guid s task :
  taskIn (bbs p) guid s = Some task → (TaskByGuid (bbs p) guid s).1 = inl task.
Proof.
  unfold taskIn. destruct ((TaskByGuid (bbs p) guid s).1); intros Hin; by simplify_eq.
Qed.

Lemma settled_after_completion c task :
  State task = TaskStateCompleted → settled p c (Some task) = Some true.
Proof. intros Hst. simpl. rewrite Hst. by destruct (ownedElsewhere p task). Qed.

Lemma settled_after_claim c task :
  State task = TaskStateRunning → CellID task = cellID p →
  executor.State_of c ≠ executor.StateCompleted →
  settled p c (Some task) = Some false.
Proof.
  intros Hst Hcell Hcs. simpl. unfold ownedElsewhere, isOwner.
  rewrite (bool_decide_eq_false_2 (CellID task ≠ cellID p))
    by (intros Hne; by apply Hne).
  rewrite andb_false_r, Hst, bool_decide_eq_true_2 by done.
  by destruct (executor.State_of c).
Qed.

(** The claim of a Pending task, over any store: it is without effect,
    or it leaves the task in a settled row. *)
Lemma claim_once c s d task run :
  StoreLaws (bbs p) →
  (TaskByGuid (bbs p) (executor.Guid c) s).1 = inl task →
  executor.State_of c ≠ executor.StateCompleted →
  (∃ del : bool,
     ∀ d', claim p (executor.Guid c) run (mkWorld s d') =
             (tt, mkWorld s (if del
                             then (DeleteContainer (containerDelegate p)
                                     (executor.Guid c) d').2
                             else d'),
              [CallStartTask (executor.Guid c) (cellID p)]
              ++ if del then [CallDeleteContainer (executor.Guid c)] else [])) ∨
  (∃ task' del,
     (TaskByGuid (bbs p) (executor.Guid c)
        (store (state_of (claim p (executor.Guid c) run (mkWorld s d))))).1 = inl task' ∧
     settled p c (Some task') = Some del ∧
     (del = true →
      CallCompleteTask (executor.Guid c) (cellID p) true "failed to run container" ""
        ∈ trace_of (claim p (executor.Guid c) run (mkWorld s d)))).
Proof.
  intros Hlaws Hread Hcs.
  destruct (StartTask (bbs p) (executor.Guid c) (cellID p) s)
    as [[changed err] s1] eqn:Hstart.
  destruct err as [e|].
  { left. pose proof (StartTask_failed _ Hlaws _ _ _ _ _ _ Hstart) as ->.
    pose proof (StartTask_unchanged _ Hlaws _ _ _ _ _ Hstart) as ->.
    exists (negb (Transient (bbs p) e)). intros d'. rewrite claim_run. simpl.
    rewrite Hstart. by destruct (Transient (bbs p) e). }
  destruct changed.
  2:{ left. pose proof (StartTask_unchanged _ Hlaws _ _ _ _ _ Hstart) as ->.
      exists false. intros d'. rewrite claim_run. simpl. by rewrite Hstart. }
  right.
  destruct (StartTask_changed _ Hlaws _ _ _ _ Hstart) as (t1 & Hin1 & Hst1 & Hcell1).
  rewrite claim_run. simpl. rewrite Hstart. simpl.
  destruct run; simpl.
  2:{ exists t1, false.
      split_and!; [by apply taskIn_read|by apply settled_after_claim|done]. }
  destruct (RunContainer (containerDelegate p) (executor.Guid c) d) as [[|] d1].
  { exists t1, false.
    split_and!; [by apply taskIn_read|by apply settled_after_claim|done]. }
  destruct (complete_owned p (executor.Guid c) true "failed to run container" ""
              (mkWorld s1 d1) t1 Hlaws Hin1 Hst1 Hcell1) as (t2 & Hin2 & Hst2 & _).
  exists t2, true. unfold state_of, trace_of; simpl.
  split_and!; [by apply taskIn_read|by apply settled_after_completion|].
  intros _. rewrite !elem_of_cons. by (right; right; left).
Qed.

(** The completion of a Running task by its owner from the run result
    of the container leaves the task Completed, over any store. *)
Lemma completeFromRunResult_once c s d task :
  StoreLaws (bbs p) →
  taskIn (bbs p) (executor.Guid c) s = Some task →
  State task = TaskStateRunning → CellID task = cellID p →
  ∃ task',
    taskIn (bbs p) (executor.Guid c)
      (store (state_of (completeFromRunResult p c (mkWorld s d)))) = Some task' ∧
    State task' = TaskStateCompleted.
Proof.
  intros Hlaws Hin Hst Hcell. rewrite completeFromRunResult_run.
  destruct (executor.Failed (executor.RunResult c)).
  - rewrite complete_run. unfold state_of; simpl.
    destruct (complete_owned p (executor.Guid c) true
                (executor.FailureReason (executor.RunResult c)) ""
                (mkWorld s d) task Hlaws Hin Hst Hcell) as (t2 & Hin2 & Hst2 & _).
    by exists t2.
  - destruct (FetchContainerResultFile _ _ _ _) as [[text [e|]] d1];
      rewrite complete_run; unfold state_of; simpl.
    + destruct (complete_owned p (executor.Guid c) true "failed to fetch result" ""
                  (mkWorld s d1) task Hlaws Hin Hst Hcell) as (t2 & Hin2 & Hst2 & _).
      by exists t2.
    + destruct (complete_owned p (executor.Guid c) false "" text
                  (mkWorld s d1) task Hlaws Hin Hst Hcell) as (t2 & Hin2 & Hst2 & _).
      by exists t2.
Qed.

(** One pass of [Process], over any store that keeps the laws: the
    pass is without effect on the store, with at most one store call;
    or it leaves the task in a settled row, and if that row deletes the
    container, either this pass has ended with the deletion of the
    container or this pass has completed the task with "failed to run
    container". *)
Lemma Process_once c s d :
  StoreLaws (bbs p) →
  (∃ writes del,
     passWithoutEffect p c s writes del ∧ length writes ≤ 1 ∧
     ∀ ev, ev ∈ writes → isStoreWrite ev = true) ∨
  (∃ task' del,
     (TaskByGuid (bbs p) (executor.Guid c)
        (store (state_of (Process p c (mkWorld s d))))).1 = inl task' ∧
     settled p c (Some task') = Some del ∧
     (del = true →
      (CallDeleteContainer (executor.Guid c) ∈ trace_of (Process p c (mkWorld s d)) ∧
       ∃ d', delegate (state_of (Process p c (mkWorld s d)))
             = (DeleteContainer (containerDelegate p) (executor.Guid c) d').2) ∨
      CallCompleteTask (executor.Guid c) (cellID p) true "failed to run container" ""
        ∈ trace_of (Process p c (mkWorld s d)))).
Proof.
  intros Hlaws.
  destruct ((TaskByGuid (bbs p) (executor.Guid c) s).1) as [task|e] eqn:Hread.
  2:{ left. exists [], (bool_decide (e = ErrStoreResourceNotFound)).
      split; [|split; [simpl; lia|by intros ev ?%elem_of_nil]].
      intros d'. rewrite Process_over, Hread by done. by destruct e. }
  destruct (settled p c (Some task)) as [del|] eqn:Hrow.
  { left. exists [], del.
    split; [by eapply Process_settled_over|split; [simpl; lia|by intros ev ?%elem_of_nil]]. }
  assert (Hin : taskIn (bbs p) (executor.Guid c) s = Some task)
    by (unfold taskIn; by rewrite Hread).
  simpl in Hrow.
  destruct (ownedElsewhere p task) eqn:Hown; [done|].
  destruct (State task) eqn:Hst; try done.
  - (* a Pending task *)
    assert (Hclaim : ∀ run,
              executor.State_of c ≠ executor.StateCompleted →
              (∀ d', table p c task (mkWorld s d')
                     = claim p (executor.Guid c) run (mkWorld s d')) →
              (∃ writes del,
                 passWithoutEffect p c s writes del ∧ length writes ≤ 1 ∧
                 ∀ ev, ev ∈ writes → isStoreWrite ev = true) ∨
              (∃ task' del,
                 (TaskByGuid (bbs p) (executor.Guid c)
                    (store (state_of (Process p c (mkWorld s d))))).1 = inl task' ∧
                 settled p c (Some task') = Some del ∧
                 (del = true →
                  (CallDeleteContainer (executor.Guid c)
                     ∈ trace_of (Process p c (mkWorld s d)) ∧
                   ∃ d', delegate (state_of (Process p c (mkWorld s d)))
                         = (DeleteContainer (containerDelegate p) (executor.Guid c) d').2) ∨
                  CallCompleteTask (executor.Guid c) (cellID p) true
                    "failed to run container" ""
                    ∈ trace_of (Process p c (mkWorld s d))))).
    { intros run Hcs Htable.
      destruct (claim_once c s d task run Hlaws Hread Hcs)
        as [(del & Hquiet)|(task' & del & Hread' & Hrow' & Hwhy)].
      - left. exists [CallStartTask (executor.Guid c) (cellID p)], del.
        split; [|split; [simpl; lia|]].
        + intros d'. rewrite Process_over, Hread, Htable, Hquiet by done. done.
        + intros ev ->%list_elem_of_singleton. done.
      - right. exists task', del.
        rewrite Process_over, Hread, Htable by done.
        unfold state_of at 1, trace_of at 1 2; simpl.
        split_and!; [done..|].
        intros Hdel. right. rewrite elem_of_cons. right. by apply Hwhy. }
    destruct (executor.State_of c) eqn:Hcs.
    1-4: eapply Hclaim; [done|];
      intros d'; by rewrite (table_pending p c _ task Hst Hown), Hcs.
    (* a Completed container: the task is failed and the container deleted *)
    assert (Hpass : ∀ d',
              Process p c (mkWorld s d') =
                (tt, mkWorld (CompleteTask (bbs p) (executor.Guid c) (cellID p) true
                                "invalid state transition" "" s).2
                       (DeleteContainer (containerDelegate p) (executor.Guid c) d').2,
                 [CallTaskByGuid (executor.Guid c);
                  CallCompleteTask (executor.Guid c) (cellID p) true
                    "invalid state transition" "";
                  CallDeleteContainer (executor.Guid c)])).
    { intros d'. rewrite Process_over, Hread by done.
      rewrite (table_pending p c _ task Hst Hown), Hcs.
      unfold bind. rewrite complete_run. cbv beta iota.
      by rewrite deleteContainer_run. }
    destruct (CompleteTask (bbs p) (executor.Guid c) (cellID p) true
                "invalid state transition" "" s) as [[e|] s1] eqn:Hc.
    + left. pose proof (CompleteTask_refused _ Hlaws _ _ _ _ _ _ _ _ Hc) as ->.
      exists [CallCompleteTask (executor.Guid c) (cellID p) true
                "invalid state transition" ""], true.
      split; [|split; [simpl; lia|]].
      * intros d'. by rewrite Hpass.
      * intros ev ->%list_elem_of_singleton. done.
    + right.
      destruct (CompleteTask_recorded _ Hlaws _ _ _ _ _ _ _ Hc) as (t1 & Hin1 & Hst1 & _).
      exists t1, true. rewrite Hpass. unfold state_of, trace_of; simpl.
      split_and!; [by apply taskIn_read|by apply settled_after_completion|].
      intros _. left.
      split; [rewrite !elem_of_cons; by (right; right; left)|by exists d].
  - (* a Running task of the local cell under a Completed container *)
    destruct (isOwner p task) eqn:Hio; [|done].
    destruct (executor.State_of c) eqn:Hcs; try done.
    right.
    assert (Hcell : CellID task = cellID p)
      by (unfold isOwner in Hio; by apply bool_decide_eq_true in Hio).
    destruct (completeFromRunResult_once c s d task Hlaws Hin Hst Hcell)
      as (t1 & Hin1 & Hst1).
    exists t1, true.
    rewrite Process_over, Hread by done.
    unfold table. rewrite Hown, Hst, Hio, Hcs.
    rewrite state_of_bind, trace_of_bind. cbv beta. rewrite !deleteContainer_run.
    unfold state_of at 1, trace_of at 1 3; simpl.
    split_and!; [by apply taskIn_read|by apply settled_after_completion|].
    intros _. left.
    split; [|by eexists].
    rewrite elem_of_cons, elem_of_app, list_elem_of_singleton. by (right; right).
Qed.

(** C7, as amended (idempotence of process).  Over any store that
    keeps the laws of the store and any executor whose deletion of a
    container is idempotent, for every container and world: a second
    invocation of [Process] right after the first leaves the store as
    the first left it.  It never runs a container and never fetches a
    result file.  It makes at most one store call, and only to repeat
    a call of the first invocation that left the store as it was (a
    claim that was lost or that failed, a completion that the store
    refused): when a write of the first invocation took effect, the
    second makes none.  It calls DeleteContainer at most once, as its
    last step and for the container's guid.  That deletion is
    redundant (the first invocation had deleted the container, and the
    executor stays as it was), except when the first invocation
    completed the task with "failed to run container": then the
    second invocation is the one that deletes the container. *)
Theorem process_twice c w :
  StoreLaws (bbs p) →
  idempotentDelete (containerDelegate p) →
  store (state_of (ProcessAgain p c w)) = store (state_of (Process p c w)) ∧
  (∀ ev, ev ∈ trace_of (ProcessAgain p c w) →
         isRunContainer ev = false ∧ isFetch ev = false ∧
         (isStoreWrite ev = true →
          ev ∈ trace_of (Process p c w) ∧
          store (state_of (Process p c w)) = store w)) ∧
  count isStoreWrite (trace_of (ProcessAgain p c w)) ≤ 1 ∧
  ((count isDeleteContainer (trace_of (ProcessAgain p c w)) = 0 ∧
    delegate (state_of (ProcessAgain p c w)) = delegate (state_of (Process p c w))) ∨
   (count isDeleteContainer (trace_of (ProcessAgain p c w)) = 1 ∧
    last (trace_of (ProcessAgain p c w)) = Some (CallDeleteContainer (executor.Guid c)) ∧
    delegate (state_of (ProcessAgain p c w))
    = (DeleteContainer (containerDelegate p) (executor.Guid c)
         (delegate (state_of (Process p c w)))).2 ∧
    ((CallDeleteContainer (executor.Guid c) ∈ trace_of (Process p c w) ∧
      delegate (state_of (ProcessAgain p c w)) = delegate (state_of (Process p c w))) ∨
     CallCompleteTask (executor.Guid c) (cellID p) true "failed to run container" ""
       ∈ trace_of (Process p c w)))).
Proof.
  intros Hlaws Hidem. destruct w as [s d]. unfold ProcessAgain.
  destruct (Process_once c s d Hlaws)
    as [(writes & del & Hquiet & Hlen & Hwr)|(task' & del & Hread' & Hrow' & Hwhy)].
  - (* the first invocation is without effect: the second repeats it *)
    rewrite (Hquiet d). unfold state_of, trace_of. cbn [fst snd].
    rewrite (Hquiet (if del
                     then (DeleteContainer (containerDelegate p) (executor.Guid c) d).2
                     else d)).
    cbn [fst snd store delegate].
    destruct writes as [|wr [|wr' writes]]; [| |simpl in Hlen; lia].
    + split; [done|]. split; [intros ev Hev; destruct del; small_trace Hev|].
      split; [destruct del; vm_compute; lia|].
      destruct del; [right|left]; simpl.
      * split_and!; [done..|]. left.
        split; [rewrite !elem_of_cons; by (right; left)|apply Hidem].
      * done.
    + assert (Hw : isStoreWrite wr = true) by (apply Hwr; by apply list_elem_of_singleton).
      split; [done|]. split.
      { intros ev Hev.
        destruct wr; try done; destruct del; small_trace Hev;
          (split_and!; [done..|]); intros Hwrite; try done;
          (split; [|done]); rewrite !elem_of_cons; by (right; left). }
      split; [destruct wr; try done; destruct del; vm_compute; lia|].
      destruct del; [right|left]; simpl.
      * split_and!; try done; [by destruct wr|].
        left. split; [rewrite !elem_of_cons; by (right; right; left)|apply Hidem].
      * split; [by destruct wr|done].
  - (* the first invocation leaves a settled row *)
    destruct (state_of (Process p c (mkWorld s d))) as [s1 d1] eqn:Hw1.
    simpl in Hread', Hwhy.
    rewrite (Process_settled_over c s1 task' del Hlaws Hread' Hrow' d1).
    unfold state_of, trace_of; simpl.
    split; [done|]. split; [intros ev Hev; destruct del; small_trace Hev|].
    split; [destruct del; vm_compute; lia|].
    destruct del; [right|by left].
    split_and!; [done..|].
    destruct (Hwhy eq_refl) as [[Hdel [d' ->]]|Hfailed]; [left|by right].
    split; [done|]. apply Hidem.
Qed.
End ProcessTwice.

(** ** The processor on the scenarios *)
Section ProcessorScenarios.
Import processor.

(** C1 at scenario 5 of the spec: the task runs on cell "B". *)
Lemma owner_safety_witness :
  trace_of (Process (cellA obliging) scenario5_container (oneTask scenario5_task))
    = [CallTaskByGuid "g5"; CallDeleteContainer "g5"] ∧
  (∀ ev, ev ∈ trace_of (Process (cellA obliging) scenario5_container
                          (oneTask scenario5_task)) →
         isStoreWrite ev = false) ∧
  count isDeleteContainer
    (trace_of (Process (cellA obliging) scenario5_container (oneTask scenario5_task))) = 1.
Proof.
  destruct (owner_safety (cellA obliging) scenario5_container (oneTask scenario5_task)
              scenario5_task) as (Htr & Hw & Hn & _).
  - reflexivity.
  - discriminate.
  - discriminate.
  - split; [exact Htr|]. split; [exact Hw|exact Hn].
Defined.

(** C3 at scenario 4 of the spec: the run succeeded and the result
    file reads "payload". *)
Lemma terminal_completion_witness :
  ∃ task',
    taskIn memStore "g4"
      (store (state_of (Process (cellA obliging) scenario4_container
                          (oneTask scenario4_task)))) = Some task' ∧
    State task' = TaskStateCompleted ∧
    count isDeleteContainer
      (trace_of (Process (cellA obliging) scenario4_container (oneTask scenario4_task)))
    = 1.
Proof.
  destruct (terminal_completion (cellA obliging) scenario4_container
              (oneTask scenario4_task) scenario4_task)
    as (task' & Hin & Hst & Hn & _).
  - exact memStore_laws.
  - reflexivity.
  - reflexivity.
  - reflexivity.
  - reflexivity.
  - exists task'. split; [exact Hin|]. split; [exact Hst|exact Hn].
Defined.

(** C3 as stated fails when the result file of a successful run is
    empty: the task is Completed with neither failed nor result
    populated. *)
Lemma terminal_completion_empty_result :
  ∃ task',
    taskIn memStore "g4"
      (store (state_of (Process (cellA silent) scenario4_container
                          (oneTask scenario4_task)))) = Some task' ∧
    State task' = TaskStateCompleted ∧
    Failed task' = false ∧ Result task' = "" ∧
    ¬ exactlyOnePopulated task'.
Proof.
  eexists. split; [vm_compute; reflexivity|].
  split; [reflexivity|]. split; [reflexivity|]. split; [reflexivity|].
  intros [[Hf _]|[_ Hr]]; [discriminate Hf|by apply Hr].
Qed.

(** C4 at scenario 2 of the spec: with a delegate that accepts the
    run, with a delegate that refuses it, and on the contended
    store. *)
Lemma claim_then_run_witness :
  (startsBeforeRunning "g2" "A"
     (trace_of (Process (cellA obliging) scenario2_container (oneTask scenario2_task))) ∧
   exactlyOneClaimOutcome (cellA obliging) "g2" (oneTask scenario2_task)
     (Process (cellA obliging) scenario2_container (oneTask scenario2_task)) ∧
   taskRunningAndRunOnce (cellA obliging) "g2"
     (Process (cellA obliging) scenario2_container (oneTask scenario2_task)) ∧
   trace_of (Process (cellA obliging) scenario2_container (oneTask scenario2_task))
   = [CallTaskByGuid "g2"; CallStartTask "g2" "A"; CallRunContainer "g2"]) ∧
  (startsBeforeRunning "g2" "A"
     (trace_of (Process (cellA refusing) scenario2_container (oneTask scenario2_task))) ∧
   exactlyOneClaimOutcome (cellA refusing) "g2" (oneTask scenario2_task)
     (Process (cellA refusing) scenario2_container (oneTask scenario2_task)) ∧
   runRefusedAndTaskFailed (cellA refusing) "g2" (oneTask scenario2_task)
     (Process (cellA refusing) scenario2_container (oneTask scenario2_task)) ∧
   trace_of (Process (cellA refusing) scenario2_container (oneTask scenario2_task))
   = [CallTaskByGuid "g2"; CallStartTask "g2" "A"; CallRunContainer "g2";
      CallCompleteTask "g2" "A" true "failed to run container" ""]) ∧
  (startsBeforeRunning "g2" "A"
     (trace_of (Process cellA_contended scenario2_container (mkWorld tt {[ "g2" ]}))) ∧
   exactlyOneClaimOutcome cellA_contended "g2" (mkWorld tt {[ "g2" ]})
     (Process cellA_contended scenario2_container (mkWorld tt {[ "g2" ]})) ∧
   claimChangedNothing cellA_contended "g2" (mkWorld tt {[ "g2" ]})
     (Process cellA_contended scenario2_container (mkWorld tt {[ "g2" ]})) ∧
   ∀ ev, ev ∈ trace_of (Process cellA_contended scenario2_container
                          (mkWorld tt {[ "g2" ]})) →
         isRunContainer ev = false ∧
         (isStoreWrite ev = true → ev = CallStartTask "g2" "A")).
Proof.
  split; [|split].
  - apply (claim_then_run (cellA obliging) scenario2_container (oneTask scenario2_task)
             scenario2_task).
    + exact memStore_laws.
    + reflexivity.
    + reflexivity.
    + reflexivity.
    + reflexivity.
  - apply (claim_then_run (cellA refusing) scenario2_container (oneTask scenario2_task)
             scenario2_task).
    + exact memStore_laws.
    + reflexivity.
    + reflexivity.
    + reflexivity.
    + reflexivity.
  - apply (claim_then_run cellA_contended scenario2_container (mkWorld tt {[ "g2" ]})
             (NewTask "g2" "" TaskStatePending "")).
    + exact contendedStore_laws.
    + reflexivity.
    + reflexivity.
    + reflexivity.
    + reflexivity.
Defined.

(** C6 on a Pending task under a Created container. *)
Lemma pending_task_past_the_run_call_witness :
  CallStartTask "g7" "A"
    ∈ trace_of (Process (cellA obliging) created_container (oneTask created_task)) ∧
  count isRunContainer
    (trace_of (Process (cellA obliging) created_container (oneTask created_task))) = 0 ∧
  ∃ t, taskIn memStore "g7"
         (store (state_of (Process (cellA obliging) created_container
                             (oneTask created_task)))) = Some t ∧
       State t = TaskStateRunning ∧ CellID t = "A".
Proof.
  destruct (pending_task_past_the_run_call (cellA obliging) created_container
              (oneTask created_task) created_task) as [Hpast _].
  - exact memStore_laws.
  - reflexivity.
  - reflexivity.
  - reflexivity.
  - destruct Hpast as (Hstart & Hn & Hchanged); [left; reflexivity|].
    destruct Hchanged as [_ Hrunning]; [reflexivity|].
    split; [exact Hstart|]. split; [exact Hn|exact Hrunning].
Defined.

(** C7 as stated fails when the run is refused: the first invocation
    completes the task as failed and leaves the container; the second
    deletes it, so the containers differ after one and after two
    invocations. *)
Lemma process_twice_after_refused_run :
  trace_of (Process (cellA refusing) scenario2_container (oneTask scenario2_task))
    = [CallTaskByGuid "g2"; CallStartTask "g2" "A"; CallRunContainer "g2";
       CallCompleteTask "g2" "A" true "failed to run container" ""] ∧
  trace_of (ProcessAgain (cellA refusing) scenario2_container (oneTask scenario2_task))
    = [CallTaskByGuid "g2"; CallDeleteContainer "g2"] ∧
  delegate (state_of (Process (cellA refusing) scenario2_container
                        (oneTask scenario2_task))) = {[ "g2" ]} ∧
  delegate (state_of (ProcessAgain (cellA refusing) scenario2_container
                        (oneTask scenario2_task))) = ∅ ∧
  state_of (ProcessAgain (cellA refusing) scenario2_container (oneTask scenario2_task))
  ≠ state_of (Process (cellA refusing) scenario2_container (oneTask scenario2_task)).
Proof.
  assert (Hone : delegate (state_of (Process (cellA refusing) scenario2_container
                   (oneTask scenario2_task))) = {[ "g2" ]}) by (vm_compute; reflexivity).
  assert (Htwo : delegate (state_of (ProcessAgain (cellA refusing) scenario2_container
                   (oneTask scenario2_task))) = ∅) by (vm_compute; reflexivity).
  split; [vm_compute; reflexivity|]. split; [vm_compute; reflexivity|].
  split; [exact Hone|]. split; [exact Htwo|].
  intros Heq. rewrite Heq, Hone in Htwo.
  assert (Hin : "g2" ∈ (∅ : gset string)) by (rewrite <- Htwo; by apply elem_of_singleton).
  by apply not_elem_of_empty in Hin.
Qed.

(** C7 on the contended store, where the claim is lost: the second
    invocation repeats the StartTask call of the first, which had left
    the store as it was, and nothing else; and at scenario 2 with a
    delegate that refuses the run: the second invocation makes no store
    call and is the one that deletes the container. *)
Lemma process_twice_witness :
  (store (state_of (ProcessAgain cellA_contended scenario2_container
                      (mkWorld tt {[ "g2" ]})))
   = store (state_of (Process cellA_contended scenario2_container
                        (mkWorld tt {[ "g2" ]}))) ∧
   (∀ ev, ev ∈ trace_of (ProcessAgain cellA_contended scenario2_container
                           (mkWorld tt {[ "g2" ]})) →
          isRunContainer ev = false ∧ isFetch ev = false ∧
          (isStoreWrite ev = true →
           ev ∈ trace_of (Process cellA_contended scenario2_container
                            (mkWorld tt {[ "g2" ]})) ∧
           store (state_of (Process cellA_contended scenario2_container
                              (mkWorld tt {[ "g2" ]}))) = tt)) ∧
   count isStoreWrite
     (trace_of (ProcessAgain cellA_contended scenario2_container
                  (mkWorld tt {[ "g2" ]}))) ≤ 1 ∧
   ((count isDeleteContainer
       (trace_of (ProcessAgain cellA_contended scenario2_container
                    (mkWorld tt {[ "g2" ]}))) = 0 ∧
     delegate (state_of (ProcessAgain cellA_contended scenario2_container
                           (mkWorld tt {[ "g2" ]})))
     = delegate (state_of (Process cellA_contended scenario2_container
                             (mkWorld tt {[ "g2" ]})))) ∨
    (count isDeleteContainer
       (trace_of (ProcessAgain cellA_contended scenario2_container
                    (mkWorld tt {[ "g2" ]}))) = 1 ∧
     last (trace_of (ProcessAgain cellA_contended scenario2_container
                       (mkWorld tt {[ "g2" ]})))
     = Some (CallDeleteContainer "g2") ∧
     delegate (state_of (ProcessAgain cellA_contended scenario2_container
                           (mkWorld tt {[ "g2" ]})))
     = delegate (state_of (Process cellA_contended scenario2_container
                             (mkWorld tt {[ "g2" ]}))) ∖ {[ "g2" ]} ∧
     ((CallDeleteContainer "g2"
         ∈ trace_of (Process cellA_contended scenario2_container
                       (mkWorld tt {[ "g2" ]})) ∧
       delegate (state_of (ProcessAgain cellA_contended scenario2_container
                             (mkWorld tt {[ "g2" ]})))
       = delegate (state_of (Process cellA_contended scenario2_container
                               (mkWorld tt {[ "g2" ]})))) ∨
      CallCompleteTask "g2" "A" true "failed to run container" ""
        ∈ trace_of (Process cellA_contended scenario2_container
                      (mkWorld tt {[ "g2" ]})))))) ∧
  (store (state_of (ProcessAgain (cellA refusing) scenario2_container
                      (oneTask scenario2_task)))
   = store (state_of (Process (cellA refusing) scenario2_container
                        (oneTask scenario2_task))) ∧
   (∀ ev, ev ∈ trace_of (ProcessAgain (cellA refusing) scenario2_container
                           (oneTask scenario2_task)) →
          isRunContainer ev = false ∧ isFetch ev = false ∧
          (isStoreWrite ev = true →
           ev ∈ trace_of (Process (cellA refusing) scenario2_container
                            (oneTask scenario2_task)) ∧
           store (state_of (Process (cellA refusing) scenario2_container
                              (oneTask scenario2_task)))
           = store (oneTask scenario2_task))) ∧
   count isStoreWrite
     (trace_of (ProcessAgain (cellA refusing) scenario2_container
                  (oneTask scenario2_task))) ≤ 1 ∧
   ((count isDeleteContainer
       (trace_of (ProcessAgain (cellA refusing) scenario2_container
                    (oneTask scenario2_task))) = 0 ∧
     delegate (state_of (ProcessAgain (cellA refusing) scenario2_container
                           (oneTask scenario2_task)))
     = delegate (state_of (Process (cellA refusing) scenario2_container
                             (oneTask scenario2_task)))) ∨
    (count isDeleteContainer
       (trace_of (ProcessAgain (cellA refusing) scenario2_container
                    (oneTask scenario2_task))) = 1 ∧
     last (trace_of (ProcessAgain (cellA refusing) scenario2_container
                       (oneTask scenario2_task)))
     = Some (CallDeleteContainer "g2") ∧
     delegate (state_of (ProcessAgain (cellA refusing) scenario2_container
                           (oneTask scenario2_task)))
     = delegate (state_of (Process (cellA refusing) scenario2_container
                             (oneTask scenario2_task))) ∖ {[ "g2" ]} ∧
     ((CallDeleteContainer "g2"
         ∈ trace_of (Process (cellA refusing) scenario2_container
                       (oneTask scenario2_task)) ∧
       delegate (state_of (ProcessAgain (cellA refusing) scenario2_container
                             (oneTask scenario2_task)))
       = delegate (state_of (Process (cellA refusing) scenario2_container
                               (oneTask scenario2_task)))) ∨
      CallCompleteTask "g2" "A" true "failed to run container" ""
        ∈ trace_of (Process (cellA refusing) scenario2_container
                      (oneTask scenario2_task)))))).
Proof.
  split.
  - apply (process_twice cellA_contended scenario2_container (mkWorld tt {[ "g2" ]})).
    + exact contendedStore_laws.
    + exact (memDelegate_idempotentDelete obliging).
  - apply (process_twice (cellA refusing) scenario2_container (oneTask scenario2_task)).
    + exact memStore_laws.
    + exact (memDelegate_idempotentDelete refusing).
Defined.

(** On the contended store the second invocation calls StartTask
    again: the claim that was lost is tried once more. *)
Example process_twice_repeats_lost_claim :
  trace_of (Process cellA_contended scenario2_container (mkWorld tt {[ "g2" ]}))
    = [CallTaskByGuid "g2"; CallStartTask "g2" "A"] ∧
  trace_of (ProcessAgain cellA_contended scenario2_container (mkWorld tt {[ "g2" ]}))
    = [CallTaskByGuid "g2"; CallStartTask "g2" "A"].
Proof. split; vm_compute; reflexivity. Qed.

(** A claim that times out is skipped: the container is kept for the
    next pass. *)
Example scenario_claim_times_out :
  Process (overStore unreachableStore obliging "A" "result-file") scenario2_container
    (mkWorld tt {[ "g2" ]})
  = (tt, mkWorld tt {[ "g2" ]}, [CallTaskByGuid "g2"; CallStartTask "g2" "A"]).
Proof. vm_compute. reflexivity. Qed.

(** A claim that the store refuses deletes the container. *)
Example scenario_claim_refused :
  trace_of (Process (overStore claimedElsewhereStore obliging "A" "result-file")
              scenario2_container (mkWorld tt {[ "g2" ]}))
    = [CallTaskByGuid "g2"; CallStartTask "g2" "A"; CallDeleteContainer "g2"] ∧
  delegate (state_of (Process (overStore claimedElsewhereStore obliging "A" "result-file")
                        scenario2_container (mkWorld tt {[ "g2" ]}))) = ∅.
Proof. split; vm_compute; reflexivity. Qed.
End ProcessorScenarios.

(** ** The table test and the scenarios of the spec, run *)
Section TableTest.
Import processor.

(** Every row of the task/container table test passes on the modelled
    processor. *)
Lemma table_test_passes : forallb table_test.passes table_test.Rows = true.
Proof. vm_compute. reflexivity. Qed.

Lemma table_test_has_41_rows : length table_test.Rows = 41.
Proof. reflexivity. Qed.

(** Scenario 1: a Running container of a Running task of the local
    cell: no write, no delegate call. *)
Example scenario1 :
  trace_of (Process (cellA obliging) (NewContainer "g1" executor.StateRunning "/out")
              (oneTask (NewTask "g1" "A" TaskStateRunning "/out")))
  = [CallTaskByGuid "g1"].
Proof. vm_compute. reflexivity. Qed.

(** Scenario 2: a Reserved container of a Pending task. *)
Example scenario2 :
  trace_of (Process (cellA obliging) scenario2_container (oneTask scenario2_task))
  = [CallTaskByGuid "g2"; CallStartTask "g2" "A"; CallRunContainer "g2"] ∧
  State <$> taskIn memStore "g2"
              (store (state_of (Process (cellA obliging) scenario2_container
                                  (oneTask scenario2_task))))
  = Some TaskStateRunning.
Proof. split; vm_compute; reflexivity. Qed.

(** Scenario 3: a Completed container whose run failed with "boom". *)
Example scenario3 :
  trace_of (Process (cellA obliging) scenario3_container (oneTask scenario3_task))
  = [CallTaskByGuid "g3"; CallCompleteTask "g3" "A" true "boom" "";
     CallDeleteContainer "g3"].
Proof. vm_compute. reflexivity. Qed.

(** Scenario 4: a Completed container whose run succeeded. *)
Example scenario4 :
  trace_of (Process (cellA obliging) scenario4_container (oneTask scenario4_task))
  = [CallTaskByGuid "g4"; CallFetchContainerResultFile "g4" "/out";
     CallCompleteTask "g4" "A" false "" "payload"; CallDeleteContainer "g4"].
Proof. vm_compute. reflexivity. Qed.

(** Scenario 5: a Running container of a task that runs on cell "B". *)
Example scenario5 :
  trace_of (Process (cellA obliging) scenario5_container (oneTask scenario5_task))
  = [CallTaskByGuid "g5"; CallDeleteContainer "g5"].
Proof. vm_compute. reflexivity. Qed.

(** Scenario 6: the reaper's tick on a Running task without a
    container. *)
Example scenario6 :
  trace_of (reaper.tick reaper.scenario6_reaper reaper.scenario6_world)
  = [reaper.LogInfo "reaper-entering-loop";
     reaper.LogInfo "reaper-getting-tasks-by-cell-id";
     reaper.CallGetAllTasksByCellID "A";
     reaper.LogInfo "reaper-finding-container-for-task";
     reaper.CallGetContainer "g6";
     reaper.LogInfo "reaper-found-no-container-for-task";
     reaper.LogInfo "reaper-marking-containerless-task-as-failed";
     reaper.CallCompleteTask "g6" true "task container no longer exists" "";
     reaper.LogInfo "reaper-exiting-loop"].
Proof. vm_compute. reflexivity. Qed.

(** An error that reads like the executor's sentinel is another
    value: the reaper logs it and writes nothing. *)
Example lookalike_error :
  Error_text (errorsNew "container not found") = Error_text ErrContainerNotFound ∧
  errorsNew "container not found" ≠ ErrContainerNotFound ∧
  trace_of (reaper.tick reaper.scenario6_reaper reaper.lookalike_world)
  = [reaper.LogInfo "reaper-entering-loop";
     reaper.LogInfo "reaper-getting-tasks-by-cell-id";
     reaper.CallGetAllTasksByCellID "A";
     reaper.LogInfo "reaper-finding-container-for-task";
     reaper.CallGetContainer "g6";
     reaper.LogError "reaper-failed-to-determine-container-existence-for-task"
       (errorsNew "container not found");
     reaper.LogInfo "reaper-exiting-loop"].
Proof. split; [reflexivity|]. split; [discriminate|]. vm_compute. reflexivity. Qed.

(** Robustness: the result file of a successful container cannot be
    read: the task is completed as failed and the container is still
    deleted. *)
Example scenario_fetch_fails :
  trace_of (Process (cellA unreadable) scenario4_container (oneTask scenario4_task))
  = [CallTaskByGuid "g4"; CallFetchContainerResultFile "g4" "/out";
     CallCompleteTask "g4" "A" true "failed to fetch result" "";
     CallDeleteContainer "g4"].
Proof. vm_compute. reflexivity. Qed.

(** Robustness: StartTask answers changed=false without an error: no
    RunContainer call, and the store is as it was. *)
Example scenario_lost_claim :
  Process cellA_contended scenario2_container (mkWorld tt {[ "g2" ]})
  = (tt, mkWorld tt {[ "g2" ]}, [CallTaskByGuid "g2"; CallStartTask "g2" "A"]).
Proof. vm_compute. reflexivity. Qed.
End TableTest.

(** ** More on the reaper: what a run asks and writes *)
Section ReaperCalls.
Import reaper reaper_calls.
Context {S E Container : Type}.
Implicit Types (r : taskReaper S E Container) (task : Task) (w : World S E).

(** Every trace of a tick is put together from log lines, the listing
    of the reaper's own cell and the traces of the loop body, the body
    being run in worlds that keep an invariant of the executor. *)
Lemma tick_trace_built_under r (I : E → Prop) (T : list Event → Prop) :
  T [] →
  (∀ t1 t2, T t1 → T t2 → T (t1 ++ t2)) →
  (∀ msg, T [LogInfo msg]) →
  (∀ msg e, T [LogError msg e]) →
  T [CallGetAllTasksByCellID (cellID r)] →
  (∀ task w, I (executorState w) →
             T (trace_of (reapTask r task w)) ∧
             I (executorState (state_of (reapTask r task w)))) →
  ∀ w, I (executorState w) →
       T (trace_of (tick r w)) ∧ I (executorState (state_of (tick r w))).
Proof.
  intros Hnil Happ Hinfo Herror Hlist Hbody.
  assert (Hrange : ∀ tasks w, I (executorState w) →
            T (trace_of (rangeTasks r tasks w)) ∧
            I (executorState (state_of (rangeTasks r tasks w)))).
  { induction tasks as [|task rest IH]; intros w Hw; [done|].
    rewrite rangeTasks_cons. unfold trace_of at 1, state_of at 1; simpl.
    destruct (Hbody task w Hw) as [Ht Hi]. destruct (IH _ Hi) as [Ht' Hi'].
    split; [by apply Happ|done]. }
  intros w Hw.
  destruct (GetAllTasksByCellID (bbs r) (cellID r) (bbsState w)) as [[tasks [e|]] s']
    eqn:Hget.
  - rewrite (tick_failed_to_get_tasks r w tasks e s' Hget). unfold trace_of, state_of; simpl.
    split; [|done].
    apply (Happ [_]); [done|]. apply (Happ [_]); [done|]. apply (Happ [_]); done.
  - rewrite (tick_got_tasks r w tasks s' Hget). unfold trace_of at 1, state_of at 1; simpl.
    destruct (Hrange tasks (mkWorld s' (executorState w)) Hw) as [Ht Hi].
    split; [|done].
    apply (Happ [_]); [done|]. apply (Happ [_]); [done|]. apply (Happ [_]); [done|].
    apply Happ; done.
Qed.

Lemma tick_trace_built r (T : list Event → Prop) :
  T [] →
  (∀ t1 t2, T t1 → T t2 → T (t1 ++ t2)) →
  (∀ msg, T [LogInfo msg]) →
  (∀ msg e, T [LogError msg e]) →
  T [CallGetAllTasksByCellID (cellID r)] →
  (∀ task w, T (trace_of (reapTask r task w))) →
  ∀ w, T (trace_of (tick r w)).
Proof.
  intros Hnil Happ Hinfo Herror Hlist Hbody w.
  by apply (tick_trace_built_under r (λ _, True) T).
Qed.

(** Every trace of [Run] is put together from the start-up steps and
    the traces of its ticks. *)
Lemma Run_trace_built_under r (I : E → Prop) (T : list Event → Prop) :
  T [] →
  (∀ t1 t2, T t1 → T t2 → T (t1 ++ t2)) →
  T [CloseReady] →
  T [TimerEvery (pollInterval r)] →
  (∀ msg, T [LogInfo msg]) →
  (∀ msg e, T [LogError msg e]) →
  T [CallGetAllTasksByCellID (cellID r)] →
  (∀ task w, I (executorState w) →
             T (trace_of (reapTask r task w)) ∧
             I (executorState (state_of (reapTask r task w)))) →
  ∀ sel w, I (executorState w) → T (trace_of (Run r sel w)).
Proof.
  intros Hnil Happ Hready Htimer Hinfo Herror Hlist Hbody.
  pose proof (tick_trace_built_under r I T Hnil Happ Hinfo Herror Hlist Hbody) as Htick.
  assert (Hticks : ∀ n w, I (executorState w) → T (trace_of (ticks r n w))).
  { induction n as [|n IH]; intros w Hw; [done|].
    simpl. rewrite trace_of_bind. destruct (Htick w Hw) as [Ht Hi].
    apply Happ; [done|]. by apply IH. }
  intros sel w Hw. rewrite Run_ticks. unfold trace_of at 1; simpl.
  apply (Happ [_]); [done|]. apply (Happ [_]); [done|]. by apply Hticks.
Qed.

Lemma Run_trace_built r (T : list Event → Prop) :
  T [] →
  (∀ t1 t2, T t1 → T t2 → T (t1 ++ t2)) →
  T [CloseReady] →
  T [TimerEvery (pollInterval r)] →
  (∀ msg, T [LogInfo msg]) →
  (∀ msg e, T [LogError msg e]) →
  T [CallGetAllTasksByCellID (cellID r)] →
  (∀ task w, T (trace_of (reapTask r task w))) →
  ∀ sel w, T (trace_of (Run r sel w)).
Proof.
  intros Hnil Happ Hready Htimer Hinfo Herror Hlist Hbody sel w.
  by apply (Run_trace_built_under r (λ _, True) T).
Qed.

Lemma prefix_app_cases_of (pre t1 t2 : list Event) :
  pre `prefix_of` t1 ++ t2 →
  pre `prefix_of` t1 ∨ ∃ pre2, pre = t1 ++ pre2 ∧ pre2 `prefix_of` t2.
Proof.
  intros Hpre.
  destruct (prefix_weak_total pre t1 (t1 ++ t2) Hpre) as [Hl|[pre2 ->]];
    [by apply prefix_app_r|by left|right].
  exists pre2. split; [done|]. by eapply prefix_app_inv.
Qed.

Lemma lookedUpFirst_nil : lookedUpFirst [].
Proof. intros pre ->%prefix_nil_inv. done. Qed.

Lemma lookedUpFirst_app t1 t2 :
  lookedUpFirst t1 → lookedUpFirst t2 → lookedUpFirst (t1 ++ t2).
Proof.
  intros H1 H2 pre [Hpre|(pre2 & -> & Hpre)]%prefix_app_cases_of; [by apply H1|].
  unfold completedGuids, queriedGuids. rewrite !omap_app.
  apply sublist_app; [by apply H1|by apply H2].
Qed.

Lemma lookedUpFirst_other ev :
  completedGuid ev = None → lookedUpFirst [ev].
Proof.
  intros Hev pre Hpre. destruct pre as [|x pre]; [done|].
  pose proof (prefix_cons_inv_1 _ _ _ _ Hpre) as ->.
  apply prefix_cons_inv_2, prefix_nil_inv in Hpre as ->.
  unfold completedGuids, queriedGuids; simpl. rewrite Hev. apply sublist_nil_l.
Qed.

(** The lookup and the completion of the loop body, in that order. *)
Lemma lookedUpFirst_lookup_then_complete guid mid failed reason result :
  lookedUpFirst mid → completedGuids mid = [] →
  lookedUpFirst (CallGetContainer guid :: mid ++ [CallCompleteTask guid failed reason result]).
Proof.
  intros Hmid Hnone pre Hpre.
  destruct pre as [|x pre]; [done|].
  pose proof (prefix_cons_inv_1 _ _ _ _ Hpre) as ->.
  apply prefix_cons_inv_2 in Hpre.
  apply prefix_app_cases_of in Hpre as [Hpre|(pre2 & -> & Hpre)].
  - unfold completedGuids, queriedGuids; simpl.
    apply sublist_cons. by apply Hmid.
  - unfold completedGuids, queriedGuids in *; simpl. rewrite !omap_app, Hnone. simpl.
    destruct pre2 as [|y pre2]; [apply sublist_nil_l|].
    pose proof (prefix_cons_inv_1 _ _ _ _ Hpre) as ->.
    apply prefix_cons_inv_2, prefix_nil_inv in Hpre as ->. simpl.
    apply sublist_skip, sublist_nil_l.
Qed.

Lemma lookedUpFirst_reapTask r task w : lookedUpFirst (trace_of (reapTask r task w)).
Proof.
  destruct (decide (reapable task)) as [Hr|Hn];
    [|rewrite (reapTask_skip r task w Hn); apply lookedUpFirst_nil].
  rewrite (reapTask_reapable r task w Hr).
  destruct (GetContainer _ _ _) as [[c err] e'].
  case_bool_decide.
  - destruct (CompleteTask _ _ _ _ _ _) as [err' s']. unfold trace_of; simpl.
    apply (lookedUpFirst_app [_]); [by apply lookedUpFirst_other|].
    change (lookedUpFirst
      ((CallGetContainer (TaskGuid task)
        :: [LogInfo "reaper-found-no-container-for-task";
            LogInfo "reaper-marking-containerless-task-as-failed"]
        ++ [CallCompleteTask (TaskGuid task) true "task container no longer exists" ""])
       ++ match err' with
          | Some e => [LogError "reaper-failed-to-mark-containerless-task-as-failed" e]
          | None => []
          end)).
    apply lookedUpFirst_app.
    + apply lookedUpFirst_lookup_then_complete; [|done].
      apply (lookedUpFirst_app [_] [_]); by apply lookedUpFirst_other.
    + destruct err'; [by apply lookedUpFirst_other|apply lookedUpFirst_nil].
  - unfold trace_of; simpl.
    apply (lookedUpFirst_app [_]); [by apply lookedUpFirst_other|].
    apply (lookedUpFirst_app [_]); [by apply lookedUpFirst_other|].
    destruct err; [by apply lookedUpFirst_other|apply lookedUpFirst_nil].
Qed.

(** X1.  In any run of the reaper, at every point of the trace the
    tasks completed so far have each been looked up in the executor
    before, one lookup per completion; and every CompleteTask call
    fails its task with the reason "task container no longer exists"
    and an empty result. *)
Theorem Run_looks_up_before_completing r sel w :
  lookedUpFirst (trace_of (Run r sel w)) ∧ onlyFailsTasks (trace_of (Run r sel w)).
Proof.
  split.
  - apply Run_trace_built;
      try (intros; by apply lookedUpFirst_other).
    + apply lookedUpFirst_nil.
    + apply lookedUpFirst_app.
    + apply lookedUpFirst_reapTask.
  - apply Run_trace_built.
    + intros ev Hin. by apply elem_of_nil in Hin.
    + intros t1 t2 H1 H2 ev [Hin|Hin]%elem_of_app; [by apply H1|by apply H2].
    + intros ev Hin. small_trace Hin.
    + intros ev Hin. small_trace Hin.
    + intros msg ev Hin. small_trace Hin.
    + intros msg e ev Hin. small_trace Hin.
    + intros ev Hin. small_trace Hin.
    + intros task w0 ev Hin Hev. exists (TaskGuid task).
      by eapply reapTask_complete_shape.
Qed.
Lemma queriedGuids_reapTask r task w :
  queriedGuids (trace_of (reapTask r task w))
  = if decide (reapable task) then [TaskGuid task] else [].
Proof.
  destruct (decide (reapable task)) as [Hr|Hn];
    [|by rewrite (reapTask_skip r task w Hn)].
  rewrite (reapTask_reapable r task w Hr).
  destruct (GetContainer _ _ _) as [[c err] e'].
  case_bool_decide.
  - destruct (CompleteTask _ _ _ _ _ _) as [[e|] s']; done.
  - by destruct err.
Qed.

Lemma queriedGuids_rangeTasks r tasks w :
  queriedGuids (trace_of (rangeTasks r tasks w)) = TaskGuid <$> filter reapable tasks.
Proof.
  revert w. induction tasks as [|task rest IH]; intros w; [done|].
  rewrite rangeTasks_cons. unfold trace_of at 1; simpl.
  unfold queriedGuids in *. rewrite omap_app, IH.
  fold (queriedGuids (trace_of (reapTask r task w))). rewrite queriedGuids_reapTask.
  rewrite filter_cons. by destruct (decide (reapable task)).
Qed.

(** X2.  In a tick whose listing succeeds, the executor is asked for
    exactly the listed tasks that are Claimed or Running, by guid, once
    each and in the order of the listing (a task listed twice is looked
    up twice; a listing without such tasks asks nothing); and the tasks
    the tick completes are among those, in that order. *)
Theorem tick_queries_claimed_and_running r w tasks s' :
  GetAllTasksByCellID (bbs r) (cellID r) (bbsState w) = ((tasks, None), s') →
  queriedGuids (trace_of (tick r w)) = TaskGuid <$> filter reapable tasks ∧
  completedGuids (trace_of (tick r w)) `sublist_of` TaskGuid <$> filter reapable tasks.
Proof.
  intros Hget.
  assert (Hq : queriedGuids (trace_of (tick r w)) = TaskGuid <$> filter reapable tasks).
  { rewrite (tick_got_tasks r w tasks s' Hget). unfold trace_of at 1; simpl.
    unfold queriedGuids. simpl. rewrite omap_app. simpl. rewrite app_nil_r.
    apply queriedGuids_rangeTasks. }
  split; [done|]. rewrite <- Hq.
  assert (Hfirst : lookedUpFirst (trace_of (tick r w))).
  { apply tick_trace_built; try (intros; by apply lookedUpFirst_other).
    - apply lookedUpFirst_nil.
    - apply lookedUpFirst_app.
    - apply lookedUpFirst_reapTask. }
  by apply Hfirst.
Qed.
Lemma listedCells_tick r w : listedCells (trace_of (tick r w)) = [cellID r].
Proof.
  assert (Hrange : ∀ tasks w0, listedCells (trace_of (rangeTasks r tasks w0)) = []).
  { induction tasks as [|task rest IH]; intros w0; [done|].
    rewrite rangeTasks_cons. unfold trace_of at 1; simpl.
    unfold listedCells in *. rewrite omap_app, IH, app_nil_r.
    destruct (decide (reapable task)) as [Hr|Hn];
      [|by rewrite (reapTask_skip r task w0 Hn)].
    rewrite (reapTask_reapable r task w0 Hr).
    destruct (GetContainer _ _ _) as [[c err] e'].
    case_bool_decide.
    - destruct (CompleteTask _ _ _ _ _ _) as [[e|] s']; done.
    - by destruct err. }
  destruct (GetAllTasksByCellID (bbs r) (cellID r) (bbsState w)) as [[tasks [e|]] s']
    eqn:Hget.
  - by rewrite (tick_failed_to_get_tasks r w tasks e s' Hget).
  - rewrite (tick_got_tasks r w tasks s' Hget). unfold trace_of at 1; simpl.
    unfold listedCells in *; simpl. by rewrite omap_app, Hrange.
Qed.

(** X3.  A run of the reaper lists the tasks of the store once for
    each tick taken before the first signal, each time for the reaper's
    own cell, and for no other cell. *)
Theorem Run_lists_own_cell_once_per_tick r sel w :
  listedCells (trace_of (Run r sel w)) = replicate (ticksBeforeSignal sel) (cellID r).
Proof.
  rewrite Run_ticks. unfold trace_of at 1; simpl.
  change (listedCells (trace_of (ticks r (ticksBeforeSignal sel) w))
          = replicate (ticksBeforeSignal sel) (cellID r)).
  generalize (ticksBeforeSignal sel) as n. intros n. revert w.
  induction n as [|n IH]; intros w; [done|].
  simpl. rewrite trace_of_bind. unfold listedCells in *.
  rewrite omap_app, IH. fold (listedCells (trace_of (tick r w))).
  by rewrite listedCells_tick.
Qed.

Lemma loop_app r sel more w :
  loop r (sel ++ more) w =
    if signalTaken sel then loop r sel w
    else (result_of (loop r more (state_of (loop r sel w))),
          state_of (loop r more (state_of (loop r sel w))),
          trace_of (loop r sel w) ++ trace_of (loop r more (state_of (loop r sel w)))).
Proof.
  revert w. induction sel as [|[|] rest IH]; intros w.
  - simpl. by rewrite <- run_eta.
  - simpl app. simpl signalTaken. simpl loop.
    rewrite (run_eta (bind (tick r) (λ _, loop r (rest ++ more)) w)).
    rewrite result_of_bind, state_of_bind, trace_of_bind, IH.
    destruct (signalTaken rest).
    + rewrite (run_eta (bind (tick r) (λ _, loop r rest) w)).
      by rewrite result_of_bind, state_of_bind, trace_of_bind.
    + rewrite state_of_bind, trace_of_bind.
      unfold result_of at 1, state_of at 1, trace_of at 2; simpl.
      by rewrite app_assoc.
  - done.
Qed.

(** X4.  Runs compose: on more selections, a run that has taken a
    signal is unchanged, and a run that is still blocked in select goes
    on from the world it reached, its trace prolonged by the trace of
    the further iterations.  So the trace on a sequence of selections
    is a prefix of the trace on any longer sequence. *)
Theorem Run_composes r sel more w :
  Run r (sel ++ more) w =
    (if signalTaken sel then Run r sel w
     else (result_of (loop r more (state_of (Run r sel w))),
           state_of (loop r more (state_of (Run r sel w))),
           trace_of (Run r sel w) ++ trace_of (loop r more (state_of (Run r sel w))))) ∧
  trace_of (Run r sel w) `prefix_of` trace_of (Run r (sel ++ more) w).
Proof.
  assert (Hrun : ∀ sel0, Run r sel0 w =
            (result_of (loop r sel0 w), state_of (loop r sel0 w),
             [CloseReady; TimerEvery (pollInterval r)] ++ trace_of (loop r sel0 w))).
  { intros sel0. unfold Run, bind at 1 2, emit.
    by destruct (loop r sel0 w) as [[o w1] t1]. }
  assert (Heq : Run r (sel ++ more) w =
    (if signalTaken sel then Run r sel w
     else (result_of (loop r more (state_of (Run r sel w))),
           state_of (loop r more (state_of (Run r sel w))),
           trace_of (Run r sel w) ++ trace_of (loop r more (state_of (Run r sel w)))))).
  { rewrite !Hrun, loop_app. destruct (signalTaken sel); [done|].
    unfold result_of, state_of, trace_of; simpl. done. }
  split; [exact Heq|]. rewrite Heq.
  destruct (signalTaken sel); [done|].
  unfold trace_of at 2; simpl. by apply prefix_app_r.
Qed.

Lemma holdsEveryContainer_reapTask r task w :
  holdsEveryContainer r (executorState w) →
  holdsEveryContainer r (executorState (state_of (reapTask r task w))).
Proof.
  intros Hall. destruct (reapTask_executor r task w) as [->| ->]; [done|].
  intros guids guid. apply (Hall (TaskGuid task :: guids)).
Qed.

Lemma reapTask_present r task w :
  holdsEveryContainer r (executorState w) →
  completedGuids (trace_of (reapTask r task w)) = [] ∧
  bbsState (state_of (reapTask r task w)) = bbsState w.
Proof.
  intros Hall.
  destruct (decide (reapable task)) as [Hr|Hn];
    [|by rewrite (reapTask_skip r task w Hn)].
  rewrite (reapTask_reapable r task w Hr).
  pose proof (Hall [] (TaskGuid task)) as Hne. simpl in Hne.
  destruct (GetContainer _ _ _) as [[c err] e']; simpl in Hne.
  rewrite bool_decide_eq_false_2 by done. by destruct err.
Qed.

Lemma rangeTasks_present r tasks w :
  holdsEveryContainer r (executorState w) →
  bbsState (state_of (rangeTasks r tasks w)) = bbsState w ∧
  holdsEveryContainer r (executorState (state_of (rangeTasks r tasks w))).
Proof.
  revert w. induction tasks as [|task rest IH]; intros w Hall; [done|].
  replace (state_of (rangeTasks r (task :: rest) w))
    with (state_of (rangeTasks r rest (state_of (reapTask r task w))))
    by (by rewrite rangeTasks_cons).
  destruct (IH _ (holdsEveryContainer_reapTask r task w Hall)) as [-> Hall'].
  split; [|done]. by apply reapTask_present.
Qed.

Lemma tick_present r w :
  holdsEveryContainer r (executorState w) →
  bbsState (state_of (tick r w)) = afterListings r 1 (bbsState w) ∧
  holdsEveryContainer r (executorState (state_of (tick r w))).
Proof.
  intros Hall. unfold afterListings; simpl.
  destruct (GetAllTasksByCellID (bbs r) (cellID r) (bbsState w)) as [[tasks [e|]] s']
    eqn:Hget.
  - by rewrite (tick_failed_to_get_tasks r w tasks e s' Hget).
  - rewrite (tick_got_tasks r w tasks s' Hget).
    change (state_of (tt, ?st, ?tr)) with st.
    by destruct (rangeTasks_present r tasks (mkWorld s' (executorState w)) Hall) as [-> ?].
Qed.

(** X5.  When the executor never answers ErrContainerNotFound (it
    holds a container for every task, or fails in any other way), a run
    of the reaper completes no task: it makes no CompleteTask call, and
    the store is left as the listings of the ticks leave it. *)
Theorem Run_completes_nothing_when_containers_exist r sel w :
  holdsEveryContainer r (executorState w) →
  completedGuids (trace_of (Run r sel w)) = [] ∧
  bbsState (state_of (Run r sel w))
  = afterListings r (ticksBeforeSignal sel) (bbsState w).
Proof.
  intros Hall. split.
  - revert sel w Hall.
    apply (Run_trace_built_under r (holdsEveryContainer r) (λ tr, completedGuids tr = []));
      try done.
    + intros t1 t2 H1 H2. unfold completedGuids in *. by rewrite omap_app, H1, H2.
    + intros task w Hall. split; [by apply reapTask_present|].
      by apply holdsEveryContainer_reapTask.
  - rewrite Run_ticks. unfold state_of at 1; simpl.
    generalize (ticksBeforeSignal sel) as n. intros n. revert w Hall.
    induction n as [|n IH]; intros w Hall; [done|].
    simpl ticks. rewrite state_of_bind.
    destruct (tick_present r w Hall) as [Hs Hall'].
    rewrite (IH _ Hall'), Hs. unfold afterListings.
    by rewrite (Nat.iter_succ_r n).
Qed.
Lemma logged_app msg (t1 t2 : list Event) :
  logged msg (t1 ++ t2) = logged msg t1 + logged msg t2.
Proof. unfold logged. by rewrite filter_app, length_app. Qed.

Lemma logTally_app n m n' m' (t1 t2 : list Event) :
  logTally n m t1 → logTally n' m' t2 → logTally (n + n') (m + m') (t1 ++ t2).
Proof.
  unfold logTally, queriedGuids, completedGuids.
  intros (H1 & H2 & H3 & H4 & H5) (H1' & H2' & H3' & H4' & H5').
  rewrite !logged_app, !omap_app, !length_app. lia.
Qed.

Lemma logTally_reapTask r task w : logTally 0 0 (trace_of (reapTask r task w)).
Proof.
  destruct (decide (reapable task)) as [Hr|Hn];
    [|by rewrite (reapTask_skip r task w Hn)].
  rewrite (reapTask_reapable r task w Hr).
  destruct (GetContainer _ _ _) as [[c err] e'].
  case_bool_decide.
  - destruct (CompleteTask _ _ _ _ _ _) as [[e|] s']; vm_compute; repeat split.
  - destruct err; vm_compute; repeat split.
Qed.

Lemma logTally_rangeTasks r tasks w : logTally 0 0 (trace_of (rangeTasks r tasks w)).
Proof.
  revert w. induction tasks as [|task rest IH]; intros w; [vm_compute; repeat split|].
  rewrite rangeTasks_cons. unfold trace_of at 1; simpl.
  apply (logTally_app 0 0 0 0); [apply logTally_reapTask|apply IH].
Qed.

Lemma logTally_tick r w : logTally 1 1 (trace_of (tick r w)).
Proof.
  destruct (GetAllTasksByCellID (bbs r) (cellID r) (bbsState w)) as [[tasks [e|]] s']
    eqn:Hget.
  - rewrite (tick_failed_to_get_tasks r w tasks e s' Hget). vm_compute; repeat split.
  - rewrite (tick_got_tasks r w tasks s' Hget). unfold trace_of at 1; simpl.
    apply (logTally_app 1 0 0 1 [_; _; _]); [vm_compute; repeat split|].
    apply (logTally_app 0 0 0 1); [apply logTally_rangeTasks|vm_compute; repeat split].
Qed.

(** X6.  The log lines of a run account for its iterations: the
    entering line is logged once for each tick taken; each iteration
    ends with the exiting line or, when the listing failed, with the
    failure line in its place (the exiting line is then not logged);
    each executor query has its finding line and each CompleteTask call
    its two announcing lines. *)
Theorem Run_log_lines r sel w :
  logged "reaper-entering-loop" (trace_of (Run r sel w)) = ticksBeforeSignal sel ∧
  logged "reaper-exiting-loop" (trace_of (Run r sel w))
  + logged "reaper-failed-to-get-tasks-by-cell-id" (trace_of (Run r sel w))
  = ticksBeforeSignal sel ∧
  logged "reaper-finding-container-for-task" (trace_of (Run r sel w))
  = length (queriedGuids (trace_of (Run r sel w))) ∧
  logged "reaper-found-no-container-for-task" (trace_of (Run r sel w))
  = length (completedGuids (trace_of (Run r sel w))) ∧
  logged "reaper-marking-containerless-task-as-failed" (trace_of (Run r sel w))
  = length (completedGuids (trace_of (Run r sel w))).
Proof.
  change (logTally (ticksBeforeSignal sel) (ticksBeforeSignal sel) (trace_of (Run r sel w))).
  rewrite Run_ticks.
  change (logTally (0 + ticksBeforeSignal sel) (0 + ticksBeforeSignal sel)
            ([CloseReady; TimerEvery (pollInterval r)]
             ++ trace_of (ticks r (ticksBeforeSignal sel) w))).
  apply logTally_app; [vm_compute; repeat split|].
  generalize (ticksBeforeSignal sel) as n. intros n. revert w.
  induction n as [|n IH]; intros w; [vm_compute; repeat split|].
  change (ticks r (Datatypes.S n) w) with (bind (tick r) (λ _, ticks r n) w).
  rewrite trace_of_bind.
  apply (logTally_app 1 1 n n); [apply logTally_tick|apply IH].
Qed.

Lemma rangeTasks_completes_missing r tasks w e0 :
  (∀ guids guid,
     (GetContainer (executorClient r) guid (afterQueries r guids (executorState w))).1.2
     = (GetContainer (executorClient r) guid e0).1.2) →
  completedGuids (trace_of (rangeTasks r tasks w))
  = filter (missing r e0) (TaskGuid <$> filter reapable tasks).
Proof.
  revert w. induction tasks as [|task rest IH]; intros w Hsteady; [done|].
  rewrite rangeTasks_cons. unfold trace_of at 1; simpl.
  unfold completedGuids in *. rewrite omap_app.
  destruct (decide (reapable task)) as [Hr|Hn].
  - rewrite (filter_cons_True _ _ _ Hr), fmap_cons.
    rewrite IH.
    2:{ intros guids guid.
        destruct (reapTask_executor r task w) as [->| ->]; [apply Hsteady|].
        apply (Hsteady (TaskGuid task :: guids)). }
    rewrite (reapTask_reapable r task w Hr).
    pose proof (Hsteady [] (TaskGuid task)) as Hnow. simpl in Hnow.
    destruct (GetContainer (executorClient r) (TaskGuid task) (executorState w))
      as [[c err] e'].
    simpl in Hnow. subst err.
    rewrite filter_cons.
    destruct (decide (missing r e0 (TaskGuid task))) as [Hmiss|Hmiss];
      unfold missing in Hmiss.
    + rewrite bool_decide_eq_true_2 by done.
      by destruct (CompleteTask _ _ _ _ _ _) as [[e|] s'].
    + rewrite bool_decide_eq_false_2 by done.
      by destruct ((GetContainer (executorClient r) (TaskGuid task) e0).1.2).
  - rewrite (filter_cons_False _ _ _ Hn), (reapTask_skip r task w Hn). by apply IH.
Qed.

(** X7.  With an executor whose answers do not change with the
    queries made of it, a tick whose listing succeeds completes exactly
    the Claimed and Running tasks of the listing for which the executor
    answers ErrContainerNotFound, in the order of the listing and as
    often as they are listed; the state the store holds for a task by
    then plays no part. *)
Theorem tick_completes_the_missing r w tasks s' :
  GetAllTasksByCellID (bbs r) (cellID r) (bbsState w) = ((tasks, None), s') →
  steadyExecutor r (executorState w) →
  completedGuids (trace_of (tick r w))
  = filter (missing r (executorState w)) (TaskGuid <$> filter reapable tasks).
Proof.
  intros Hget Hsteady.
  rewrite (tick_got_tasks r w tasks s' Hget). unfold trace_of at 1; simpl.
  unfold completedGuids. simpl. rewrite omap_app. simpl. rewrite app_nil_r.
  by apply rangeTasks_completes_missing.
Qed.
End ReaperCalls.

(** ** The walk of a task through its lifecycle *)
Section TableHarness.
Import table_harness.
Context {S : Type}.
Implicit Types (BBS : BBS S) (task : Task) (s : S).

Ltac walk_case IH s1 :=
  first
    [ (* the call is refused: the walk stops there *)
      progress (unfold trace_of, result_of; simpl);
      destruct (State _) eqn:?; simpl in *; try lia; try done;
      split_and!; try done; by eexists
    | (* the call is accepted: the walk goes on from the next state *)
      specialize (IH s1);
      destruct (walkFrom _ _ _ _ s1) as [[? ?] ?];
      unfold trace_of, result_of in *; simpl in *;
      destruct (State _) eqn:?; simpl in *; try lia; try done;
      pose proof (IH ltac:(done) ltac:(lia)) as (Hp & Hw & Hpan & Hfuel);
      (split_and!;
        [ by apply prefix_cons
        | intros Hres; destruct (Hw Hres) as [? ->]; done
        | intros msg Hres; destruct (Hpan msg Hres) as (? & ? & ->); done
        | intros Hres; specialize (Hfuel Hres); lia ]) ].

Ltac walk_on IH s1 :=
  specialize (IH s1);
  destruct (walkFrom _ _ _ _ s1) as [[? ?] ?];
  unfold result_of in *; simpl in *;
  destruct (State _) eqn:?; simpl in *; try lia; try done;
  apply IH; first [done | lia].

Lemma walkFrom_arrived fuel BBS task s :
  walkFrom fuel BBS task (State task) s = (Walked, s, []).
Proof.
  destruct fuel; simpl; by rewrite bool_decide_eq_false_2 by (intros Hne; by apply Hne).
Qed.

Lemma walkFrom_step fuel BBS task current s :
  State task ≠ current →
  walkFrom (Datatypes.S fuel) BBS task current s
  = (step <- advanceState BBS task current ;;
     match step with
     | inl a => ret (Aborted a)
     | inr next => walkFrom fuel BBS task next
     end) s.
Proof. intros Hne. simpl. by rewrite bool_decide_eq_true_2. Qed.

Lemma walkFrom_out_of_fuel BBS task current s :
  State task ≠ current →
  walkFrom 0 BBS task current s = (OutOfFuel, s, []).
Proof. intros Hne. simpl. by rewrite bool_decide_eq_true_2. Qed.

Lemma walkFrom_more_fuel fuel k BBS task current s :
  result_of (walkFrom fuel BBS task current s) ≠ OutOfFuel →
  walkFrom (fuel + k) BBS task current s = walkFrom fuel BBS task current s.
Proof.
  revert current s. induction fuel as [|fuel IH]; intros current s Hres.
  - destruct (decide (State task = current)) as [<-|Hne].
    + by rewrite !walkFrom_arrived.
    + by rewrite walkFrom_out_of_fuel in Hres.
  - destruct (decide (State task = current)) as [<-|Hne].
    + by rewrite !walkFrom_arrived.
    + change (Datatypes.S fuel + k) with (Datatypes.S (fuel + k)).
      rewrite !walkFrom_step in * by done.
      unfold bind in *.
      destruct (advanceState BBS task current s) as [[[a|next] s1] t1]; [done|].
      rewrite IH; [done|].
      intros Hout. apply Hres. unfold result_of in *; simpl.
      by destruct (walkFrom fuel BBS task next s1) as [[? ?] ?].
Qed.

Lemma walkFrom_spec fuel BBS task current s :
  current ≠ TaskStateOther →
  rank current ≤ rank (State task) →
  trace_of (walkFrom fuel BBS task current s) `prefix_of` callsBetween current (State task) task ∧
  (result_of (walkFrom fuel BBS task current s) = Walked →
     State task ≠ TaskStateOther ∧
     trace_of (walkFrom fuel BBS task current s) = callsBetween current (State task) task) ∧
  (∀ msg, result_of (walkFrom fuel BBS task current s) = Aborted (Panicked msg) →
     State task = TaskStateOther ∧ msg = "not a thing." ∧
     trace_of (walkFrom fuel BBS task current s) = callsBetween current (State task) task) ∧
  (result_of (walkFrom fuel BBS task current s) = OutOfFuel → fuel + rank current ≤ 4).
Proof.
  revert current s. induction fuel as [|fuel IH]; intros current s Hcur Hle.
  - destruct (decide (State task = current)) as [<-|Hne].
    + rewrite walkFrom_arrived. unfold callsBetween, trace_of, result_of; simpl.
      rewrite drop_ge by (rewrite length_take; lia). done.
    + rewrite walkFrom_out_of_fuel by done. unfold trace_of, result_of; simpl.
      split_and!; [apply prefix_nil|done|done|]. intros _. destruct current; simpl; lia.
  - destruct (decide (State task = current)) as [<-|Hne].
    + rewrite walkFrom_arrived. unfold callsBetween, trace_of, result_of; simpl.
      rewrite drop_ge by (rewrite length_take; lia). done.
    + rewrite walkFrom_step by done.
      unfold callsBetween in *.
      destruct current; [| | | | |done].
      * pose proof (IH TaskStatePending) as IH'.
        unfold advanceState, bind, do_DesireTask, ret, shouldNotHaveOccurred.
        destruct (DesireTask BBS task s) as [[e|] s1]; walk_case IH' s1.
      * pose proof (IH TaskStateRunning) as IH'.
        unfold advanceState, bind, do_StartTask, ret, shouldNotHaveOccurred.
        destruct (StartTask BBS (TaskGuid task) (CellID task) s) as [[[|] [e|]] s1];
          walk_case IH' s1.
      * pose proof (IH TaskStateCompleted) as IH'.
        unfold advanceState, bind, do_CompleteTask, ret, shouldNotHaveOccurred.
        destruct (CompleteTask BBS (TaskGuid task) (CellID task) true "reason" "result" s)
          as [[e|] s1]; walk_case IH' s1.
      * pose proof (IH TaskStateResolving) as IH'.
        unfold advanceState, bind, do_ResolvingTask, ret, shouldNotHaveOccurred.
        destruct (ResolvingTask BBS (TaskGuid task) s) as [[e|] s1]; walk_case IH' s1.
      * unfold advanceState, bind, ret, trace_of, result_of; simpl.
        destruct (State task) eqn:Hd; simpl in *; try lia; try done.
        split_and!; try done. intros msg [= <-]. done.
Qed.

Lemma walkFrom_accepted fuel BBS task current s :
  accepts BBS →
  current ≠ TaskStateOther →
  rank current ≤ rank (State task) →
  rank (State task) < fuel + rank current →
  result_of (walkFrom fuel BBS task current s) ≠ OutOfFuel ∧
  ∀ expectation,
    result_of (walkFrom fuel BBS task current s) ≠ Aborted (ExpectationUnmet expectation).
Proof.
  intros (Hdesire & Hstart & Hcomplete & Hresolving).
  revert current s. induction fuel as [|fuel IH]; intros current s Hcur Hle Hlt; [lia|].
  destruct (decide (State task = current)) as [<-|Hne];
    [by rewrite walkFrom_arrived|].
  rewrite walkFrom_step by done.
  destruct current; [| | | | |done].
  - specialize (IH TaskStatePending).
    unfold advanceState, bind, do_DesireTask, ret, shouldNotHaveOccurred.
    pose proof (Hdesire task s) as Hacc.
    destruct (DesireTask BBS task s) as [e s1]; simpl in Hacc; subst e.
    walk_on IH s1.
  - specialize (IH TaskStateRunning).
    unfold advanceState, bind, do_StartTask, ret, shouldNotHaveOccurred.
    pose proof (Hstart (TaskGuid task) (CellID task) s) as Hacc.
    destruct (StartTask BBS (TaskGuid task) (CellID task) s) as [e s1];
      simpl in Hacc; subst e.
    walk_on IH s1.
  - specialize (IH TaskStateCompleted).
    unfold advanceState, bind, do_CompleteTask, ret, shouldNotHaveOccurred.
    pose proof (Hcomplete (TaskGuid task) (CellID task) true "reason" "result" s) as Hacc.
    destruct (CompleteTask BBS (TaskGuid task) (CellID task) true "reason" "result" s)
      as [e s1]; simpl in Hacc; subst e.
    walk_on IH s1.
  - specialize (IH TaskStateResolving).
    unfold advanceState, bind, do_ResolvingTask, ret, shouldNotHaveOccurred.
    pose proof (Hresolving (TaskGuid task) s) as Hacc.
    destruct (ResolvingTask BBS (TaskGuid task) s) as [e s1]; simpl in Hacc; subst e.
    walk_on IH s1.
  - done.
Qed.

(** X8.  The loop of walkToState ends, whatever the store answers and
    whatever state is desired: five iterations are enough, further
    ones change nothing, and at most as many store calls are made as
    the desired state has steps before it. *)
Theorem walkToState_terminates BBS task s k :
  result_of (walkToState 5 BBS task s) ≠ OutOfFuel ∧
  walkToState (5 + k) BBS task s = walkToState 5 BBS task s ∧
  length (trace_of (walkToState 5 BBS task s)) ≤ rank (State task).
Proof.
  unfold walkToState.
  destruct (walkFrom_spec 5 BBS task TaskStateInvalid s) as (Hp & _ & _ & Hfuel);
    [done|simpl; lia|].
  assert (result_of (walkFrom 5 BBS task TaskStateInvalid s) ≠ OutOfFuel) as Hres.
  { intros Hout. specialize (Hfuel Hout). lia. }
  split_and!; [done|by apply walkFrom_more_fuel|].
  apply prefix_length in Hp. unfold callsBetween in Hp.
  rewrite length_drop, length_take in Hp.
  change (rank TaskStateInvalid) with 0 in Hp. lia.
Qed.

(** X9.  walkToState calls the store in the order of the lifecycle:
    DesireTask, StartTask, CompleteTask, ResolvingTask, each at most
    once, and none beyond the desired state.  When it returns, exactly
    the calls up to the desired state were made; it panics only for a
    desired state outside the lifecycle, after all four calls. *)
Theorem walkToState_follows_lifecycle fuel BBS task s :
  trace_of (walkToState fuel BBS task s)
    `prefix_of` take (rank (State task)) (lifecycleCalls task) ∧
  (result_of (walkToState fuel BBS task s) = Walked →
     State task ≠ TaskStateOther ∧
     trace_of (walkToState fuel BBS task s)
     = take (rank (State task)) (lifecycleCalls task)) ∧
  (∀ msg, result_of (walkToState fuel BBS task s) = Aborted (Panicked msg) →
     State task = TaskStateOther ∧ msg = "not a thing." ∧
     trace_of (walkToState fuel BBS task s) = lifecycleCalls task).
Proof.
  unfold walkToState.
  destruct (walkFrom_spec fuel BBS task TaskStateInvalid s) as (Hp & Hw & Hpan & _);
    [done|simpl; lia|].
  unfold callsBetween in *. simpl drop in *.
  split_and!; [done|done|].
  intros msg Hres. destruct (Hpan msg Hres) as (Hd & -> & ->).
  by rewrite Hd.
Qed.

(** X10.  On a store that accepts every call, walkToState makes exactly
    the calls that lead to the desired state and returns; for a desired
    state outside the lifecycle it makes all four calls and then
    panics. *)
Theorem walkToState_on_accepting_store fuel BBS task s :
  accepts BBS →
  rank (State task) < fuel →
  result_of (walkToState fuel BBS task s)
  = (if bool_decide (State task = TaskStateOther)
     then Aborted (Panicked "not a thing.") else Walked) ∧
  trace_of (walkToState fuel BBS task s) = take (rank (State task)) (lifecycleCalls task).
Proof.
  intros Hacc Hlt. unfold walkToState.
  destruct (walkFrom_accepted fuel BBS task TaskStateInvalid s Hacc) as [Hout Hunmet];
    [done|simpl; lia|simpl; lia|].
  destruct (walkFrom_spec fuel BBS task TaskStateInvalid s) as (_ & Hw & Hpan & _);
    [done|simpl; lia|].
  unfold callsBetween in *. simpl drop in *.
  destruct (result_of (walkFrom fuel BBS task TaskStateInvalid s)) as [|[e|msg]|] eqn:Hres.
  - destruct (Hw eq_refl) as [Hd ->]. by rewrite bool_decide_eq_false_2.
  - by destruct (Hunmet e).
  - destruct (Hpan msg eq_refl) as (Hd & -> & ->). by rewrite bool_decide_eq_true_2.
  - done.
Qed.

End TableHarness.

Section TableHarnessScenarios.
Import table_harness.

(** A task on its way to Completed, on a store that counts the calls:
    three calls, and the walk returns. *)
Lemma walkToState_on_accepting_store_witness :
  result_of (walkToState 4 countingBBS (NewTask "cell" TaskStateCompleted) 0) = Walked ∧
  trace_of (walkToState 4 countingBBS (NewTask "cell" TaskStateCompleted) 0)
  = [CallDesireTask (NewTask "cell" TaskStateCompleted);
     CallStartTask "my-guid" "cell";
     CallCompleteTask "my-guid" "cell" true "reason" "result"].
Proof.
  apply (walkToState_on_accepting_store 4 countingBBS (NewTask "cell" TaskStateCompleted) 0).
  - repeat split.
  - simpl. lia.
Defined.

End TableHarnessScenarios.

(** ** The calls of the reaper, on the stores of the scenarios *)
Section ReaperCallsScenarios.
Import reaper reaper_calls.

(** A store that lists a Running and a Claimed task: one tick asks the
    executor for both, in that order. *)
Lemma tick_queries_claimed_and_running_witness :
  queriedGuids (trace_of (tick refusing_reaper no_containers)) = ["g6"; "g7"] ∧
  completedGuids (trace_of (tick refusing_reaper no_containers)) `sublist_of` ["g6"; "g7"].
Proof.
  apply (tick_queries_claimed_and_running refusing_reaper no_containers
           [refused_g6; refused_g7] tt).
  reflexivity.
Defined.

(** The same store with an executor that finds every container: a run
    of two ticks completes nothing. *)
Lemma Run_completes_nothing_when_containers_exist_witness :
  completedGuids
    (trace_of (Run refusing_reaper [FromTicks; FromTicks; FromSignals] all_present)) = [] ∧
  bbsState (state_of (Run refusing_reaper [FromTicks; FromTicks; FromSignals] all_present))
  = tt.
Proof.
  apply (Run_completes_nothing_when_containers_exist refusing_reaper
           [FromTicks; FromTicks; FromSignals] all_present).
  intros guids. induction guids as [|guid guids IH]; [by intros guid|exact IH].
Defined.

(** The store that lists a Running and a Claimed task, with an
    executor that has no container: one tick completes both. *)
Lemma tick_completes_the_missing_witness :
  completedGuids (trace_of (tick refusing_reaper no_containers)) = ["g6"; "g7"].
Proof.
  apply (tick_completes_the_missing refusing_reaper no_containers
           [refused_g6; refused_g7] tt).
  - reflexivity.
  - intros guids. induction guids as [|guid guids IH]; [by intros guid|exact IH].
Defined.

End ReaperCallsScenarios.
